(** * CROSS ROADS Bistro: reservation server and batch sender

    A shallow embedding of [server.js] and [send-confirmation-emails.js].

    The two scripts are glue code around the file system, the clock and
    an SMTP transport.  The embedding keeps their control flow as it is
    written: handlers are programs of a small state-and-exception monad
    over a [World] (directory contents, attempted sends, console, clock
    readings taken), the failures of the outside world come from an
    [Env] of oracles, and the library primitives the handlers rely on
    ([JSON.stringify], [JSON.parse], [Array.prototype.sort],
    [Date.prototype.toISOString], the abstract operations [ToBoolean],
    [ToString], [ToPrimitive], [ToNumber]) are written out as functions.

    Modelling boundaries, stated once:
    - a string is the sequence of bytes of its UTF-8 encoding, and a
      file holds the text that was written to it; lone surrogates are
      outside the model.  Where the order of strings matters (the
      default order of [sort()]) the bytes are decoded to the UTF-16
      code units that JavaScript compares;
    - finite numbers are exact decimals: an integer [Fin z] or a
      fraction [Frac m k] standing for [m / 10^k]; the rounding of the
      double format is not modelled apart from the overflow of a
      literal to an infinity and its underflow to zero, and [-0] is
      identified with [0];
    - a request body is what [express.json()] hands over: each field
      is any JSON value (a scalar, an array or an object), or
      [undefined] when the body has no such field; the content of a
      stored file is any text;
    - a write that throws has either left the directory as it was or
      left a file holding the first bytes of the data;
    - [Array.prototype.sort] is the stable insertion sort; the order in
      which an engine calls the comparator is its own, and only matters
      for comparators that contradict themselves;
    - the HTML body of a message is a fixed template: a [Mail] keeps the
      strings interpolated into it. *)

From Stdlib Require Import ZArith List String Ascii Bool Lia Permutation Sorted.
Import ListNotations.

Set Warnings "-register-all".

Local Open Scope string_scope.
Local Open Scope Z_scope.

(** ** JavaScript values *)

Inductive JsNumber : Type :=
| NaN
| PosInf
| NegInf
| Fin (z : Z)
| Frac (m : Z) (k : positive).

Inductive Prim : Type :=
| PUndefined
| PNull
| PBool (b : bool)
| PNum (n : JsNumber)
| PStr (s : string).

Inductive JsVal : Type :=
| JPrim (p : Prim)
| JArr (items : list JsVal)
| JObj (props : list (string * JsVal)).

Definition JUndefined : JsVal := JPrim PUndefined.
Definition JNull : JsVal := JPrim PNull.
Definition JStr (s : string) : JsVal := JPrim (PStr s).
Definition JNum (n : JsNumber) : JsVal := JPrim (PNum n).

(** [ToBoolean]: what [!x] and [x ? a : b] look at. *)
Definition ToBoolean (p : Prim) : bool :=
  match p with
  | PUndefined => false
  | PNull => false
  | PBool b => b
  | PNum NaN => false
  | PNum (Fin z) => negb (z =? 0)
  | PNum (Frac m _) => negb (m =? 0)
  | PNum _ => true
  | PStr s => negb (String.eqb s "")
  end.

Definition truthy (v : JsVal) : bool :=
  match v with
  | JPrim p => ToBoolean p
  | _ => true
  end.

(** ** Decimal digits *)

Definition digit_char (d : Z) : ascii := ascii_of_nat (48 + Z.to_nat d).

Fixpoint digits_fuel (fuel : nat) (n : Z) (acc : string) : string :=
  match fuel with
  | O => acc
  | S f =>
      let acc' := String (digit_char (n mod 10)) acc in
      if n <? 10 then acc' else digits_fuel f (n / 10) acc'
  end.

(** The decimal digits of a natural number, most significant first. *)
Definition decimal_digits (n : Z) : string :=
  digits_fuel (S (Z.to_nat (Z.log2 n))) n "".

Fixpoint repeat_char (c : ascii) (n : nat) : string :=
  match n with
  | O => ""
  | S n' => String c (repeat_char c n')
  end.

Fixpoint strip_zeros_rev (s : list ascii) : list ascii :=
  match s with
  | "0"%char :: r => strip_zeros_rev r
  | _ => s
  end.

(** Digits without the trailing zeros. *)
Definition strip_trailing_zeros (s : string) : string :=
  string_of_list_ascii (rev (strip_zeros_rev (rev (list_ascii_of_string s)))).

Definition slen (s : string) : Z := Z.of_nat (String.length s).

(** Exponent notation [d.ddde+x] of the digit string [s] with decimal
    point position [n] (the value is [0.s * 10^n]). *)
Definition exponent_form (s : string) (n : Z) : string :=
  let e := n - 1 in
  let mant :=
    match s with
    | String d EmptyString => String d EmptyString
    | String d r => String d ("." ++ r)
    | EmptyString => EmptyString
    end in
  mant ++ (if 0 <=? e then "e+" else "e-") ++ decimal_digits (Z.abs e).

(** [Number::toString] on a positive finite number. *)
Definition positive_to_string (x : JsNumber) : string :=
  match x with
  | Fin z =>
      let all := decimal_digits z in
      if slen all <=? 21 then all
      else exponent_form (strip_trailing_zeros all) (slen all)
  | Frac m k =>
      let s := decimal_digits m in
      let n := slen s - Z.pos k in
      if (0 <? n) && (n <=? 21) then
        substring 0 (Z.to_nat n) s ++ "." ++
        substring (Z.to_nat n) (String.length s - Z.to_nat n) s
      else if (-6 <? n) && (n <=? 0) then
        "0." ++ repeat_char "0" (Z.to_nat (- n)) ++ s
      else exponent_form s n
  | _ => ""
  end.

Definition NumberToString (x : JsNumber) : string :=
  match x with
  | NaN => "NaN"
  | PosInf => "Infinity"
  | NegInf => "-Infinity"
  | Fin z =>
      if z =? 0 then "0"
      else if z <? 0 then "-" ++ positive_to_string (Fin (- z))
      else positive_to_string (Fin z)
  | Frac m k =>
      if m <? 0 then "-" ++ positive_to_string (Frac (- m) k)
      else positive_to_string (Frac m k)
  end.

(** [ToString] on a scalar: what a template literal does to it. *)
Definition PrimToString (p : Prim) : string :=
  match p with
  | PUndefined => "undefined"
  | PNull => "null"
  | PBool true => "true"
  | PBool false => "false"
  | PNum n => NumberToString n
  | PStr s => s
  end.

(** ** JSON.stringify(value, null, 2) *)

Definition dquote : string := String (ascii_of_nat 34) "".

Definition hex_digit (n : nat) : ascii :=
  if Nat.ltb n 10 then ascii_of_nat (48 + n) else ascii_of_nat (87 + n).

Definition quote_char (c : ascii) : string :=
  let n := nat_of_ascii c in
  if Nat.eqb n 34 then String "\" dquote
  else if Nat.eqb n 92 then "\\"
  else if Nat.eqb n 8 then "\b"
  else if Nat.eqb n 12 then "\f"
  else if Nat.eqb n 10 then "\n"
  else if Nat.eqb n 13 then "\r"
  else if Nat.eqb n 9 then "\t"
  else if Nat.ltb n 32 then
    "\u00" ++ String (hex_digit (Nat.div n 16)) (String (hex_digit (Nat.modulo n 16)) "")
  else String c "".

Fixpoint quote_chars (s : string) : string :=
  match s with
  | EmptyString => EmptyString
  | String c r => quote_char c ++ quote_chars r
  end.

Definition QuoteJSONString (s : string) : string :=
  dquote ++ quote_chars s ++ dquote.

Definition gap : string := "  ".

Definition join_lines (indent : string) (parts : list string) : string :=
  String.concat ("," ++ String (ascii_of_nat 10) indent) parts.

Definition newline : string := String (ascii_of_nat 10) "".

Definition wrap_block (opening closing stepback indent : string)
  (parts : list string) : string :=
  match parts with
  | [] => opening ++ closing
  | _ => opening ++ newline ++ indent ++ join_lines indent parts
         ++ newline ++ stepback ++ closing
  end.

(** [SerializeJSONProperty]: [None] stands for the result [undefined]. *)
Fixpoint SerializeJSONProperty (stepback : string) (v : JsVal) : option string :=
  match v with
  | JPrim PUndefined => None
  | JPrim PNull => Some "null"
  | JPrim (PBool true) => Some "true"
  | JPrim (PBool false) => Some "false"
  | JPrim (PStr s) => Some (QuoteJSONString s)
  | JPrim (PNum (Fin z)) => Some (NumberToString (Fin z))
  | JPrim (PNum (Frac m k)) => Some (NumberToString (Frac m k))
  | JPrim (PNum _) => Some "null"
  | JArr items =>
      let indent := stepback ++ gap in
      Some (wrap_block "[" "]" stepback indent
              (map (fun x => match SerializeJSONProperty indent x with
                             | Some s => s
                             | None => "null"
                             end) items))
  | JObj props =>
      let indent := stepback ++ gap in
      Some (wrap_block "{" "}" stepback indent
              (flat_map (fun kv => match SerializeJSONProperty indent (snd kv) with
                                   | Some s => [QuoteJSONString (fst kv) ++ ": " ++ s]
                                   | None => []
                                   end) props))
  end.

Definition JSON_stringify (v : JsVal) : option string :=
  SerializeJSONProperty "" v.

(** ** Date.prototype.toISOString *)

(** Left-pads the digits of [n] with zeros to width [w]. *)
Definition pad (w : nat) (n : Z) : string :=
  let d := decimal_digits n in
  repeat_char "0" (w - String.length d) ++ d.

(** Proleptic Gregorian date of a day number counted from 1970-01-01. *)
Definition civil_from_days (days : Z) : Z * Z * Z :=
  let z := days + 719468 in
  let era := z / 146097 in
  let doe := z - era * 146097 in
  let yoe := (doe - doe / 1460 + doe / 36524 - doe / 146096) / 365 in
  let doy := doe - (365 * yoe + yoe / 4 - yoe / 100) in
  let mp := (5 * doy + 2) / 153 in
  let d := doy - (153 * mp + 2) / 5 + 1 in
  let m := if mp <? 10 then mp + 3 else mp - 9 in
  let y := yoe + era * 400 + (if m <=? 2 then 1 else 0) in
  (y, m, d).

Definition year_string (y : Z) : string :=
  if (0 <=? y) && (y <=? 9999) then pad 4 y
  else (if y <? 0 then "-" else "+") ++ pad 6 (Z.abs y).

(** [new Date(t).toISOString()] for a time value [t] in milliseconds. *)
Definition toISOString (t : Z) : string :=
  let ms := t mod 86400000 in
  let '(y, m, d) := civil_from_days (t / 86400000) in
  year_string y ++ "-" ++ pad 2 m ++ "-" ++ pad 2 d ++ "T" ++
  pad 2 (ms / 3600000) ++ ":" ++ pad 2 (ms / 60000 mod 60) ++ ":" ++
  pad 2 (ms / 1000 mod 60) ++ "." ++ pad 3 (ms mod 1000) ++ "Z".

(** ** JSON.parse *)

Inductive ParseResult (A : Type) : Type :=
| Parsed (a : A) (rest : string)
| SyntaxError
| OutOfFuel.
Arguments Parsed {A} a rest.
Arguments SyntaxError {A}.
Arguments OutOfFuel {A}.

Definition is_json_ws (c : ascii) : bool :=
  let n := nat_of_ascii c in
  Nat.eqb n 32 || Nat.eqb n 9 || Nat.eqb n 10 || Nat.eqb n 13.

Fixpoint skip_ws (s : string) : string :=
  match s with
  | String c r => if is_json_ws c then skip_ws r else s
  | EmptyString => s
  end.

Definition is_digit (c : ascii) : bool :=
  let n := nat_of_ascii c in Nat.leb 48 n && Nat.leb n 57.

Definition digit_value (c : ascii) : Z := Z.of_nat (nat_of_ascii c) - 48.

(** The longest prefix of decimal digits, and what follows it. *)
Fixpoint span_digits (s : string) : string * string :=
  match s with
  | String c r =>
      if is_digit c then let (d, rest) := span_digits r in (String c d, rest)
      else (EmptyString, s)
  | EmptyString => (EmptyString, EmptyString)
  end.

Fixpoint digits_value_from (acc : Z) (s : string) : Z :=
  match s with
  | String c r => digits_value_from (10 * acc + digit_value c) r
  | EmptyString => acc
  end.

Definition digits_value (s : string) : Z := digits_value_from 0 s.

(** Removes up to [k] factors of ten from [m]. *)
Fixpoint strip_tens (fuel : nat) (m : Z) (k : Z) : Z * Z :=
  match fuel with
  | O => (m, k)
  | S f => if (0 <? k) && (m mod 10 =? 0) then strip_tens f (m / 10) (k - 1)
           else (m, k)
  end.

(** Magnitudes from which a decimal rounds to [Infinity], and up to
    which it rounds to zero. *)
Definition overflow_threshold : Z := 2 ^ 1024 - 2 ^ 970.
Definition underflow_scale : Z := 2 ^ 1075.

(** The number denoted by the digits [m] scaled by [10^e10], [m >= 0]. *)
Definition decimal_number (negative : bool) (m e10 : Z) : JsNumber :=
  let sign (z : Z) := if negative then - z else z in
  let inf := if negative then NegInf else PosInf in
  if m =? 0 then Fin 0
  else if 0 <=? e10 then
    if 310 <? slen (decimal_digits m) + e10 then inf
    else let v := m * 10 ^ e10 in
         if overflow_threshold <=? v then inf else Fin (sign v)
  else
    let (m', k) := strip_tens (Z.to_nat (- e10)) m (- e10) in
    match k with
    | Z.pos p =>
        if 330 <? k - slen (decimal_digits m') then Fin 0
        else if m' * underflow_scale <=? 10 ^ k then Fin 0
        else Frac (sign m') p
    | _ => if overflow_threshold <=? m' then inf else Fin (sign m')
    end.

(** Digits after an optional sign: [Some (negative, digits, rest)]. *)
Definition span_exponent (s : string) : option (bool * string * string) :=
  let '(negative, body) :=
    match s with
    | String "-" r => (true, r)
    | String "+" r => (false, r)
    | _ => (false, s)
    end in
  match span_digits body with
  | (EmptyString, _) => None
  | (d, rest) => Some (negative, d, rest)
  end.

(** A JSON number literal without its sign at the head of [body]. *)
Definition parse_unsigned (negative : bool) (body : string) : ParseResult JsNumber :=
  match span_digits body with
  | (EmptyString, _) => SyntaxError
  | (String d0 ds as int, r1) =>
      if Ascii.eqb d0 "0" && negb (String.eqb ds "") then SyntaxError
      else
        let frac_part :=
          match r1 with
          | String "." r2 =>
              match span_digits r2 with
              | (EmptyString, _) => None
              | (f, r3) => Some (f, r3)
              end
          | _ => Some (EmptyString, r1)
          end in
        match frac_part with
        | None => SyntaxError
        | Some (frac, r3) =>
            let exp_part :=
              match r3 with
              | String c r4 =>
                  if Ascii.eqb c "e" || Ascii.eqb c "E" then
                    match span_exponent r4 with
                    | Some (eneg, ed, r5) =>
                        Some ((if eneg : bool then - digits_value ed
                               else digits_value ed), r5)
                    | None => None
                    end
                  else Some (0, r3)
              | EmptyString => Some (0, r3)
              end in
            match exp_part with
            | None => SyntaxError
            | Some (e, rest) =>
                Parsed (decimal_number negative (digits_value (int ++ frac))
                          (e - slen frac)) rest
            end
        end
  end.

(** A JSON number literal at the head of [s]. *)
Definition parse_number (s : string) : ParseResult JsNumber :=
  match s with
  | String "-" r => parse_unsigned true r
  | _ => parse_unsigned false s
  end.

(** *** String literals *)

Definition hex_value (c : ascii) : option N :=
  let n := N_of_ascii c in
  if (48 <=? n)%N && (n <=? 57)%N then Some (n - 48)%N
  else if (97 <=? n)%N && (n <=? 102)%N then Some (n - 87)%N
  else if (65 <=? n)%N && (n <=? 70)%N then Some (n - 55)%N
  else None.

Definition hex4 (a b c d : ascii) : option N :=
  match hex_value a, hex_value b, hex_value c, hex_value d with
  | Some x, Some y, Some z, Some t => Some (((x * 16 + y) * 16 + z) * 16 + t)%N
  | _, _, _, _ => None
  end.

(** The pieces of a string literal: a character taken as it is, or a
    UTF-16 code unit written as [\uXXXX]. *)
Inductive StrToken : Type :=
| TChar (c : ascii)
| TUnit (u : N).

Definition simple_escape (e : ascii) : option ascii :=
  let n := nat_of_ascii e in
  if Nat.eqb n 34 then Some e
  else if Nat.eqb n 92 then Some e
  else if Nat.eqb n 47 then Some e
  else if Nat.eqb n 98 then Some (ascii_of_nat 8)
  else if Nat.eqb n 102 then Some (ascii_of_nat 12)
  else if Nat.eqb n 110 then Some (ascii_of_nat 10)
  else if Nat.eqb n 114 then Some (ascii_of_nat 13)
  else if Nat.eqb n 116 then Some (ascii_of_nat 9)
  else None.

(** The tokens up to the closing quote. *)
Fixpoint string_tokens (s : string) : option (list StrToken * string) :=
  match s with
  | EmptyString => None
  | String c r =>
      let n := nat_of_ascii c in
      if Nat.eqb n 34 then Some ([], r)
      else if Nat.eqb n 92 then
        match r with
        | String e r1 =>
            if Nat.eqb (nat_of_ascii e) 117 then
              match r1 with
              | String h1 (String h2 (String h3 (String h4 r2))) =>
                  match hex4 h1 h2 h3 h4, string_tokens r2 with
                  | Some u, Some (ts, rest) => Some (TUnit u :: ts, rest)
                  | _, _ => None
                  end
              | _ => None
              end
            else
              match simple_escape e, string_tokens r1 with
              | Some x, Some (ts, rest) => Some (TChar x :: ts, rest)
              | _, _ => None
              end
        | EmptyString => None
        end
      else if Nat.ltb n 32 then None
      else
        match string_tokens r with
        | Some (ts, rest) => Some (TChar c :: ts, rest)
        | None => None
        end
  end.

Definition byte (n : N) : ascii := ascii_of_N n.

(** The UTF-8 bytes of a code point. *)
Definition utf8 (cp : N) : string :=
  (if cp <? 128 then String (byte cp) ""
   else if cp <? 2048 then
     String (byte (192 + cp / 64)) (String (byte (128 + cp mod 64)) "")
   else if cp <? 65536 then
     String (byte (224 + cp / 4096))
       (String (byte (128 + (cp / 64) mod 64))
          (String (byte (128 + cp mod 64)) ""))
   else
     String (byte (240 + cp / 262144))
       (String (byte (128 + (cp / 4096) mod 64))
          (String (byte (128 + (cp / 64) mod 64))
             (String (byte (128 + cp mod 64)) ""))))%N.

Definition is_high_surrogate (u : N) : bool := ((55296 <=? u) && (u <=? 56319))%N.
Definition is_low_surrogate (u : N) : bool := ((56320 <=? u) && (u <=? 57343))%N.

(** The text of a token list: a surrogate pair is one code point. *)
Fixpoint decode_tokens (ts : list StrToken) : string :=
  match ts with
  | [] => EmptyString
  | TChar c :: r => String c (decode_tokens r)
  | TUnit u :: r =>
      match r with
      | TUnit v :: r' =>
          if is_high_surrogate u && is_low_surrogate v
          then utf8 (65536 + (u - 55296) * 1024 + (v - 56320))%N
               ++ decode_tokens r'
          else utf8 u ++ decode_tokens r
      | _ => utf8 u ++ decode_tokens r
      end
  end.

(** A string literal whose opening quote has been read. *)
Definition parse_string (s : string) : ParseResult string :=
  match string_tokens s with
  | Some (ts, rest) => Parsed (decode_tokens ts) rest
  | None => SyntaxError
  end.

(** *** Objects and arrays *)

Fixpoint all_digits (s : string) : bool :=
  match s with
  | EmptyString => true
  | String c r => is_digit c && all_digits r
  end.

(** A property name that is an array index: these are enumerated
    first, in ascending order. *)
Definition array_index (k : string) : option Z :=
  if all_digits k && negb (String.eqb k "") then
    let v := digits_value k in
    if String.eqb (decimal_digits v) k && (v <=? 4294967294) then Some v
    else None
  else None.

Fixpoint has_key (k : string) (props : list (string * JsVal)) : bool :=
  match props with
  | [] => false
  | (k', _) :: r => String.eqb k' k || has_key k r
  end.

Fixpoint replace_prop (k : string) (v : JsVal) (props : list (string * JsVal))
  : list (string * JsVal) :=
  match props with
  | [] => []
  | (k', v') :: r =>
      if String.eqb k' k then (k', v) :: r else (k', v') :: replace_prop k v r
  end.

Fixpoint insert_index (i : Z) (k : string) (v : JsVal)
  (props : list (string * JsVal)) : list (string * JsVal) :=
  match props with
  | [] => [(k, v)]
  | (k', v') :: r =>
      match array_index k' with
      | Some j => if j <? i then (k', v') :: insert_index i k v r
                  else (k, v) :: props
      | None => (k, v) :: props
      end
  end.

(** [CreateDataProperty] on an object under construction. *)
Definition set_prop (k : string) (v : JsVal) (props : list (string * JsVal))
  : list (string * JsVal) :=
  if has_key k props then replace_prop k v props
  else match array_index k with
       | Some i => insert_index i k v props
       | None => (props ++ [(k, v)])%list
       end.

Definition expect_literal (lit : string) (v : JsVal) (s : string)
  : ParseResult JsVal :=
  if String.prefix lit s
  then Parsed v (substring (String.length lit) (String.length s - String.length lit) s)
  else SyntaxError.

(** The rest of [s] when [s] starts with the character [c]. *)
Definition starts_with (c : ascii) (s : string) : option string :=
  match s with
  | String x r => if Ascii.eqb x c then Some r else None
  | EmptyString => None
  end.

Fixpoint parse_value (fuel : nat) (s : string) {struct fuel} : ParseResult JsVal :=
  match fuel with
  | O => OutOfFuel
  | S f =>
      match skip_ws s with
      | EmptyString => SyntaxError
      | String c r =>
          let n := nat_of_ascii c in
          if Nat.eqb n 123 then
            match starts_with "}" (skip_ws r) with
            | Some r' => Parsed (JObj []) r'
            | None => parse_members f r []
            end
          else if Nat.eqb n 91 then
            match starts_with "]" (skip_ws r) with
            | Some r' => Parsed (JArr []) r'
            | None => parse_elements f r []
            end
          else if Nat.eqb n 34 then
            match parse_string r with
            | Parsed str rest => Parsed (JStr str) rest
            | SyntaxError => SyntaxError
            | OutOfFuel => OutOfFuel
            end
          else if Nat.eqb n 45 || is_digit c then
            match parse_number (String c r) with
            | Parsed x rest => Parsed (JNum x) rest
            | SyntaxError => SyntaxError
            | OutOfFuel => OutOfFuel
            end
          else if Nat.eqb n 116 then expect_literal "true" (JPrim (PBool true)) (String c r)
          else if Nat.eqb n 102 then expect_literal "false" (JPrim (PBool false)) (String c r)
          else if Nat.eqb n 110 then expect_literal "null" JNull (String c r)
          else SyntaxError
      end
  end

with parse_members (fuel : nat) (s : string) (acc : list (string * JsVal))
  {struct fuel} : ParseResult JsVal :=
  match fuel with
  | O => OutOfFuel
  | S f =>
      match starts_with (ascii_of_nat 34) (skip_ws s) with
      | Some r =>
          match parse_string r with
          | Parsed k r1 =>
              match starts_with ":" (skip_ws r1) with
              | Some r2 =>
                  match parse_value f r2 with
                  | Parsed v r3 =>
                      let acc' := set_prop k v acc in
                      match starts_with "," (skip_ws r3) with
                      | Some r4 => parse_members f r4 acc'
                      | None =>
                          match starts_with "}" (skip_ws r3) with
                          | Some r4 => Parsed (JObj acc') r4
                          | None => SyntaxError
                          end
                      end
                  | SyntaxError => SyntaxError
                  | OutOfFuel => OutOfFuel
                  end
              | None => SyntaxError
              end
          | SyntaxError => SyntaxError
          | OutOfFuel => OutOfFuel
          end
      | None => SyntaxError
      end
  end

with parse_elements (fuel : nat) (s : string) (acc : list JsVal)
  {struct fuel} : ParseResult JsVal :=
  match fuel with
  | O => OutOfFuel
  | S f =>
      match parse_value f s with
      | Parsed v r1 =>
          let acc' := (acc ++ [v])%list in
          match starts_with "," (skip_ws r1) with
          | Some r2 => parse_elements f r2 acc'
          | None =>
              match starts_with "]" (skip_ws r1) with
              | Some r2 => Parsed (JArr acc') r2
              | None => SyntaxError
              end
          end
      | SyntaxError => SyntaxError
      | OutOfFuel => OutOfFuel
      end
  end.

(** [JSON.parse(text)]: [None] when it throws a [SyntaxError]. *)
Definition JSON_parse (text : string) : option JsVal :=
  match parse_value (2 * String.length text + 2) text with
  | Parsed v rest =>
      match skip_ws rest with
      | EmptyString => Some v
      | _ => None
      end
  | _ => None
  end.

(** [o.k] on an object value, [undefined] when there is no such key. *)
Fixpoint lookup (k : string) (props : list (string * JsVal)) : JsVal :=
  match props with
  | [] => JUndefined
  | (k', v) :: r => if String.eqb k' k then v else lookup k r
  end.

Definition get (k : string) (v : JsVal) : JsVal :=
  match v with
  | JObj props => lookup k props
  | _ => JUndefined
  end.

(** ** ToString, ToPrimitive and ToNumber on parsed values *)

(** [ToString] of a value that came out of [JSON.parse]; [None] when
    it throws a [TypeError].  A plain object prints through
    [Object.prototype.toString] unless an own property hides it (a
    parsed property is never callable); an array joins its elements. *)
Fixpoint ToString (v : JsVal) : option string :=
  match v with
  | JPrim p => Some (PrimToString p)
  | JArr items =>
      option_map (String.concat ",")
        (fold_right
           (fun x acc =>
              match x with
              | JPrim PUndefined | JPrim PNull =>
                  option_map (cons EmptyString) acc
              | _ =>
                  match ToString x, acc with
                  | Some sx, Some l => Some (sx :: l)
                  | _, _ => None
                  end
              end) (Some []) items)
  | JObj props =>
      if has_key "toString" props then None else Some "[object Object]"
  end.

Definition ToPrimitive (v : JsVal) : option Prim :=
  match v with
  | JPrim p => Some p
  | _ => option_map PStr (ToString v)
  end.

Definition string_rev (s : string) : string :=
  string_of_list_ascii (rev (list_ascii_of_string s)).

Definition drop (n : nat) (s : string) : string :=
  substring n (String.length s - n) s.

(** The white space and line terminators of [StrWhiteSpaceChar], in
    UTF-8. *)
Definition str_white_space : list string :=
  map (fun bytes => string_of_list_ascii (map ascii_of_nat bytes))
    [[9]; [10]; [11]; [12]; [13]; [32]; [194; 160]; [225; 154; 128];
     [226; 128; 128]; [226; 128; 129]; [226; 128; 130]; [226; 128; 131];
     [226; 128; 132]; [226; 128; 133]; [226; 128; 134]; [226; 128; 135];
     [226; 128; 136]; [226; 128; 137]; [226; 128; 138]; [226; 128; 168];
     [226; 128; 169]; [226; 128; 175]; [226; 129; 159]; [227; 128; 128];
     [239; 187; 191]]%nat.

Fixpoint drop_leading (fuel : nat) (pats : list string) (s : string) : string :=
  match fuel with
  | O => s
  | S f =>
      match find (fun p => String.prefix p s) pats with
      | Some p => drop_leading f pats (drop (String.length p) s)
      | None => s
      end
  end.

Definition trim (s : string) : string :=
  let s1 := drop_leading (String.length s) str_white_space s in
  string_rev (drop_leading (String.length s1) (map string_rev str_white_space)
                (string_rev s1)).

Fixpoint radix_value (radix : Z) (acc : Z) (s : string) : option Z :=
  match s with
  | EmptyString => Some acc
  | String c r =>
      match hex_value c with
      | Some d => if Z.of_N d <? radix
                  then radix_value radix (radix * acc + Z.of_N d) r
                  else None
      | None => None
      end
  end.

(** [0x..], [0o..] and [0b..] literals. *)
Definition non_decimal_literal (s : string) : option JsNumber :=
  match s with
  | String "0" (String p (String c r)) =>
      let radix :=
        if Ascii.eqb p "x" || Ascii.eqb p "X" then Some 16
        else if Ascii.eqb p "o" || Ascii.eqb p "O" then Some 8
        else if Ascii.eqb p "b" || Ascii.eqb p "B" then Some 2
        else None in
      match radix with
      | Some rx =>
          match radix_value rx 0 (String c r) with
          | Some v => Some (if overflow_threshold <=? v then PosInf else Fin v)
          | None => Some NaN
          end
      | None => None
      end
  | _ => None
  end.

(** [StrUnsignedDecimalLiteral], which has to take the whole string. *)
Definition str_unsigned_literal (negative : bool) (body : string) : JsNumber :=
  if String.eqb body "Infinity" then (if negative then NegInf else PosInf)
  else
    let (int, r1) := span_digits body in
    let (frac, r2) :=
      match r1 with
      | String "." r => span_digits r
      | _ => (EmptyString, r1)
      end in
    if String.eqb int "" && String.eqb frac "" then NaN
    else
      match r2 with
      | EmptyString =>
          decimal_number negative (digits_value (int ++ frac)) (- slen frac)
      | String c r3 =>
          if Ascii.eqb c "e" || Ascii.eqb c "E" then
            match span_exponent r3 with
            | Some (eneg, ed, EmptyString) =>
                decimal_number negative (digits_value (int ++ frac))
                  ((if eneg : bool then - digits_value ed else digits_value ed)
                   - slen frac)
            | _ => NaN
            end
          else NaN
      end.

(** [StrDecimalLiteral]: an optional sign, then the unsigned literal. *)
Definition str_decimal_literal (s : string) : JsNumber :=
  match s with
  | String "-" r => str_unsigned_literal true r
  | String "+" r => str_unsigned_literal false r
  | _ => str_unsigned_literal false s
  end.

(** [StringToNumber] *)
Definition StringToNumber (s : string) : JsNumber :=
  let t := trim s in
  if String.eqb t "" then Fin 0
  else match non_decimal_literal t with
       | Some n => n
       | None => str_decimal_literal t
       end.

(** [ToNumber]; [None] when the conversion to a primitive throws. *)
Definition ToNumber (v : JsVal) : option JsNumber :=
  match ToPrimitive v with
  | None => None
  | Some PUndefined => Some NaN
  | Some PNull => Some (Fin 0)
  | Some (PBool true) => Some (Fin 1)
  | Some (PBool false) => Some (Fin 0)
  | Some (PNum n) => Some n
  | Some (PStr s) => Some (StringToNumber s)
  end.

(** A finite number as a numerator over a power of ten. *)
Definition scaled (x : JsNumber) : option (Z * Z) :=
  match x with
  | Fin z => Some (z, 0)
  | Frac m k => Some (m, Z.pos k)
  | _ => None
  end.

Definition of_scaled (m k : Z) : JsNumber :=
  let (m', k') := strip_tens (Z.to_nat k) m k in
  match k' with
  | Z.pos p => if m' =? 0 then Fin 0 else Frac m' p
  | _ => Fin m'
  end.

(** [x - y] on numbers. *)
Definition js_sub (x y : JsNumber) : JsNumber :=
  match x, y with
  | NaN, _ | _, NaN => NaN
  | PosInf, PosInf | NegInf, NegInf => NaN
  | PosInf, _ | _, NegInf => PosInf
  | NegInf, _ | _, PosInf => NegInf
  | _, _ =>
      match scaled x, scaled y with
      | Some (m1, k1), Some (m2, k2) =>
          let k := Z.max k1 k2 in
          of_scaled (m1 * 10 ^ (k - k1) - m2 * 10 ^ (k - k2)) k
      | _, _ => NaN
      end
  end.

(** ** Array.prototype.sort *)

(** The sign [SortCompare] takes from what the comparator returned:
    [NaN] counts as zero. *)
Definition compare_sign (v : JsNumber) : comparison :=
  match v with
  | NaN => Eq
  | PosInf => Gt
  | NegInf => Lt
  | Fin z => Z.compare z 0
  | Frac m _ => Z.compare m 0
  end.

Section Sort.
Context {A : Type}.
(** The comparator; [None] when the call throws. *)
Variable comparefn : A -> A -> option JsNumber.

Fixpoint insert_sorted (x : A) (l : list A) : option (list A) :=
  match l with
  | [] => Some [x]
  | y :: r =>
      match comparefn x y with
      | None => None
      | Some v =>
          match compare_sign v with
          | Gt => option_map (cons y) (insert_sorted x r)
          | _ => Some (x :: l)
          end
      end
  end.

(** A stable sort: an element moves behind another only when the
    comparator puts it strictly after. *)
Fixpoint sort_by (l : list A) : option (list A) :=
  match l with
  | [] => Some []
  | x :: r =>
      match sort_by r with
      | Some r' => insert_sorted x r'
      | None => None
      end
  end.
End Sort.

(** [o.k]; [None] for the [TypeError] of reading a property of [null]
    or [undefined]. *)
Definition property (k : string) (o : JsVal) : option JsVal :=
  match o with
  | JPrim PUndefined | JPrim PNull => None
  | _ => Some (get k o)
  end.

(** ** The outside world *)

Inductive Exn : Type := Error (message : string).

Definition message_of (e : Exn) : string :=
  match e with Error m => m end.

(** A message handed to [transporter.sendMail].  The HTML body is a
    fixed template; [mail_html] lists the strings interpolated into it,
    in order. *)
Record Mail : Type := {
  mail_from : JsVal;
  mail_to : JsVal;
  mail_subject : string;
  mail_html : list string
}.

(** What the process sees of its environment: [process.env], the
    clock (its successive readings), whether the disk and the SMTP
    transport accept a request, and the date format of the runtime's
    locale data, [new Date(x).toLocaleDateString('en-US', ...)].  An
    oracle answers [Some e] when the call throws [e]; the disk and the
    transport are given what happened before.  When a write throws,
    [disk_partial] tells how many bytes of the data had reached the
    file by then: [None] when the file was never opened. *)
Record Env : Type := {
  GMAIL_USER : option string;
  GMAIL_PASSWORD : option string;
  NODE_ENV : option string;
  dataDir : string;
  clock : nat -> Z;
  disk_write : list (string * string) -> string -> string -> option Exn;
  disk_partial : list (string * string) -> string -> string -> option nat;
  disk_read : list (string * string) -> option Exn;
  smtp_verify : option Exn;
  smtp_send : list (Mail * bool) -> Mail -> option Exn;
  toLocaleDateString : Prim -> string
}.

(** The mutable world: the files of [dataDir] in the order
    [fs.readdirSync] lists them (a new file is listed last), every
    [sendMail] attempted so far with its outcome, the console, and the
    number of clock readings taken. *)
Record World : Type := {
  files : list (string * string);
  outbox : list (Mail * bool);
  console : list string;
  ticks : nat
}.

Definition empty_world : World :=
  {| files := []; outbox := []; console := []; ticks := O |}.

Inductive Outcome (A : Type) : Type :=
| Returned (a : A)
| Thrown (e : Exn).
Arguments Returned {A} a.
Arguments Thrown {A} e.

(** Programs: a world transformer that returns or throws. *)
Definition M (A : Type) : Type := World -> Outcome A * World.

Definition ret {A} (a : A) : M A := fun w => (Returned a, w).

Definition bind {A B} (m : M A) (k : A -> M B) : M B :=
  fun w => match m w with
           | (Returned a, w') => k a w'
           | (Thrown e, w') => (Thrown e, w')
           end.

Definition throw {A} (e : Exn) : M A := fun w => (Thrown e, w).

(** [try { m } catch (e) { h e }] *)
Definition try_catch {A} (m : M A) (h : Exn -> M A) : M A :=
  fun w => match m w with
           | (Returned a, w') => (Returned a, w')
           | (Thrown e, w') => h e w'
           end.

Declare Scope js_scope.
Delimit Scope js_scope with js.
Notation "x <- m ;; k" := (bind m (fun x => k))
  (at level 100, m at next level, right associativity) : js_scope.
Notation "m ;;; k" := (bind m (fun _ => k))
  (at level 100, right associativity) : js_scope.
Local Open Scope js_scope.

(** [list.map(f)] for an [f] that may throw: left to right, stopping at
    the first exception. *)
Fixpoint mapM {A B} (f : A -> M B) (l : list A) : M (list B) :=
  match l with
  | [] => ret []
  | x :: r => y <- f x ;; ys <- mapM f r ;; ret (y :: ys)
  end.

Fixpoint upsert (name data : string) (fs : list (string * string))
  : list (string * string) :=
  match fs with
  | [] => [(name, data)]
  | (n, d) :: r =>
      if String.eqb n name then (n, data) :: r
      else (n, d) :: upsert name data r
  end.

(** The content of the file called [n], if the directory has one. *)
Fixpoint file_content (n : string) (fs : list (string * string)) : option string :=
  match fs with
  | [] => None
  | (n', d) :: r => if String.eqb n' n then Some d else file_content n r
  end.

Section Primitives.
Variable env : Env.

(** [Date.now()], and the time value of [new Date()]. *)
Definition Date_now : M Z :=
  fun w => (Returned (clock env (ticks w)),
            {| files := files w; outbox := outbox w;
               console := console w; ticks := S (ticks w) |}).

(** The directory after a write that threw: untouched when the file
    could not be opened; otherwise the file was created or truncated
    and holds the bytes written before the failure. *)
Definition interrupted_write (name data : string) (fs : list (string * string))
  : list (string * string) :=
  match disk_partial env fs name data with
  | Some n => upsert name (substring 0 n data) fs
  | None => fs
  end.

(** [fs.writeFileSync(path.join(dataDir, name), data)]: the file is
    opened with flag ['w'], then the data is written. *)
Definition writeFileSync (name data : string) : M unit :=
  fun w => match disk_write env (files w) name data with
           | Some e => (Thrown e,
                        {| files := interrupted_write name data (files w);
                           outbox := outbox w; console := console w;
                           ticks := ticks w |})
           | None => (Returned tt,
                      {| files := upsert name data (files w);
                         outbox := outbox w; console := console w;
                         ticks := ticks w |})
           end.

(** [fs.readdirSync(dataDir)] *)
Definition readdirSync : M (list string) :=
  fun w => match disk_read env (files w) with
           | Some e => (Thrown e, w)
           | None => (Returned (map fst (files w)), w)
           end.

(** [fs.readFileSync(path.join(dataDir, name), 'utf8')] *)
Definition readFileSync (name : string) : M string :=
  fun w => match file_content name (files w) with
           | Some data => (Returned data, w)
           | None => (Thrown (Error "ENOENT: no such file or directory"), w)
           end.

(** [await transporter.sendMail(m)]: the attempt is recorded whether
    it succeeds or not. *)
Definition sendMail (m : Mail) : M unit :=
  fun w => let r := smtp_send env (outbox w) m in
           let w' := {| files := files w;
                        outbox := outbox w ++ [(m, match r with None => true | Some _ => false end)];
                        console := console w; ticks := ticks w |} in
           match r with
           | Some e => (Thrown e, w')
           | None => (Returned tt, w')
           end.

(** [await transporter.verify()] *)
Definition verify : M unit :=
  fun w => match smtp_verify env with
           | Some e => (Thrown e, w)
           | None => (Returned tt, w)
           end.

(** [console.log] and [console.error] *)
Definition console_log (line : string) : M unit :=
  fun w => (Returned tt,
            {| files := files w; outbox := outbox w;
               console := console w ++ [line]; ticks := ticks w |}).
End Primitives.

Definition env_prim (o : option string) : Prim :=
  match o with
  | Some s => PStr s
  | None => PUndefined
  end.

Definition path_join (dir name : string) : string := dir ++ "/" ++ name.

(** ** server.js *)

(** The module-level variables [transporter] and [emailConfigured]. *)
Record ServerState : Type := {
  transporter : bool;
  emailConfigured : bool
}.

(** The destructured request body: each field is whatever JSON value
    the request carried under that name, [undefined] when it carried
    none. *)
Record Body : Type := {
  name : JsVal;
  phone : JsVal;
  email : JsVal;
  date : JsVal;
  time : JsVal;
  guests : JsVal;
  notes : JsVal
}.

Record Response : Type := {
  status : Z;
  success : bool;
  message : option string;
  reservations : option (list JsVal);
  error : option string
}.

Definition json_message (code : Z) (ok : bool) (msg : string) : Response :=
  {| status := code; success := ok; message := Some msg;
     reservations := None; error := None |}.

(** The interpolations of a template, left to right; the whole
    template throws when one of them does. *)
Fixpoint interpolate (holes : list (option string)) : option (list string) :=
  match holes with
  | [] => Some []
  | Some s :: r => option_map (cons s) (interpolate r)
  | None :: _ => None
  end.

(** The [TypeError] of a conversion to a primitive that finds no
    callable [toString] or [valueOf]. *)
Definition conversion_error : Exn :=
  Error "Cannot convert object to primitive value".

(** An expression built from template literals: its value, or the
    [TypeError] of the conversion that failed. *)
Definition evaluated {A} (o : option A) : M A :=
  match o with
  | Some a => ret a
  | None => throw conversion_error
  end.

(** The text a template literal shows for a value it can convert. *)
Definition shown_text (v : JsVal) : string :=
  match ToString v with
  | Some s => s
  | None => ""
  end.

Section Server.
Variable env : Env.

(** [initializeEmail]: the state it leaves in [transporter] and
    [emailConfigured], starting from [null] and [false]. *)
Definition initializeEmail : M ServerState :=
  if ToBoolean (env_prim (GMAIL_USER env)) && ToBoolean (env_prim (GMAIL_PASSWORD env)) then
    try_catch
      (verify env ;;;
       console_log "✓ Email service ready" ;;;
       ret {| transporter := true; emailConfigured := true |})
      (fun error =>
         console_log ("⚠ Email service not available: " ++ message_of error) ;;;
         console_log "✓ Reservations will be saved locally" ;;;
         ret {| transporter := true; emailConfigured := false |})
  else ret {| transporter := false; emailConfigured := false |}.

Definition reservationData (id submitted : Z) (b : Body) : JsVal :=
  JObj [("id", JNum (Fin id));
        ("name", name b);
        ("phone", phone b);
        ("email", email b);
        ("date", date b);
        ("time", time b);
        ("guests", guests b);
        ("notes", notes b);
        ("submittedAt", JStr (toISOString submitted))].

Definition fileName (id : Z) : string :=
  "reservation-" ++ NumberToString (Fin id) ++ ".json".

(** [new Date(x).toLocaleDateString('en-US', ...)] *)
Definition format_date (x : JsVal) : option string :=
  option_map (toLocaleDateString env) (ToPrimitive x).

(** The message to the restaurant, lines 91-121; [None] when one of
    the template literals throws. *)
Definition mailOptions (b : Body) : option Mail :=
  match ToString (name b),
        interpolate
          [ToString (name b); ToString (phone b); ToString (email b);
           format_date (date b); ToString (time b); ToString (guests b);
           if truthy (notes b)
           then option_map (fun s => "<p><strong>Special Requests:</strong> " ++ s ++ "</p>")
                  (ToString (notes b))
           else Some ""] with
  | Some n, Some html =>
      Some {| mail_from := JPrim (env_prim (GMAIL_USER env));
              mail_to := JPrim (env_prim (GMAIL_USER env));
              mail_subject := "New Reservation Request from " ++ n;
              mail_html := html |}
  | _, _ => None
  end.

(** The message to the guest, lines 126-160. *)
Definition confirmationEmail (b : Body) : option Mail :=
  match interpolate
          [ToString (name b); format_date (date b);
           ToString (time b); ToString (guests b)] with
  | Some html =>
      Some {| mail_from := JPrim (env_prim (GMAIL_USER env));
              mail_to := email b;
              mail_subject := "Reservation Request Received - CROSS ROADS Bistro";
              mail_html := html |}
  | None => None
  end.

Definition missing_required (b : Body) : bool :=
  negb (truthy (name b)) || negb (truthy (phone b))
  || negb (truthy (email b)) || negb (truthy (date b))
  || negb (truthy (time b)) || negb (truthy (guests b)).

Definition message_sent : string :=
  "✓ Reservation submitted! You will receive a confirmation email shortly.".
Definition message_received : string :=
  "✓ Reservation received! We will contact you shortly to confirm.".
Definition message_failed : string :=
  "Failed to process reservation. Please try again or call (214) 555-1234".

(** The [try] block of lines 89-167, with the value it leaves in
    [emailSent]: each message is built, then sent.  The flag is set
    before the closing line is logged, so a throw from there on would
    leave it [true]. *)
Definition send_both (b : Body) : M bool :=
  try_catch
    (m1 <- evaluated (mailOptions b) ;;
     sendMail env m1 ;;;
     m2 <- evaluated (confirmationEmail b) ;;
     sendMail env m2 ;;;
     try_catch
       (to <- evaluated (ToString (email b)) ;;
        console_log ("✓ Emails sent to " ++ PrimToString (env_prim (GMAIL_USER env))
                     ++ " and " ++ to) ;;;
        ret true)
       (fun emailError =>
          console_log ("⚠ Email sending failed: " ++ message_of emailError) ;;;
          ret true))
    (fun emailError =>
       console_log ("⚠ Email sending failed: " ++ message_of emailError) ;;;
       ret false).

(** [app.post('/api/reservations', ...)] *)
Definition post_reservations (st : ServerState) (b : Body) : M Response :=
  try_catch
    (if missing_required b then
       ret (json_message 400 false "Missing required fields")
     else
       id <- Date_now env ;;
       submitted <- Date_now env ;;
       let record := reservationData id submitted b in
       data <- match JSON_stringify record with
               | Some text => ret text
               | None => throw (Error "The data argument must be of type string")
               end ;;
       writeFileSync env (fileName id) data ;;;
       saved <- evaluated (ToString (name b)) ;;
       console_log ("✓ Reservation saved: " ++ saved ++ " - "
                    ++ path_join (dataDir env) (fileName id)) ;;;
       emailSent <- (if emailConfigured st && transporter st
                     then send_both b
                     else ret false) ;;
       ret (json_message 200 true
              (if emailSent : bool then message_sent else message_received)))
    (fun error =>
       console_log ("Error processing reservation: " ++ message_of error) ;;;
       ret {| status := 500; success := false;
              message := Some message_failed;
              reservations := None;
              error := match NODE_ENV env with
                       | Some mode => if String.eqb mode "development"
                                      then Some (message_of error) else None
                       | None => None
                       end |}).

(** The comparator of the listing: [(a, b) => b.submittedAt - a.submittedAt] *)
Definition by_submittedAt (a b : JsVal) : option JsNumber :=
  match property "submittedAt" b, property "submittedAt" a with
  | Some x, Some y =>
      match ToNumber x, ToNumber y with
      | Some nx, Some ny => Some (js_sub nx ny)
      | _, _ => None
      end
  | _, _ => None
  end.

(** [f => JSON.parse(fs.readFileSync(path.join(dataDir, f), 'utf8'))] *)
Definition read_record (f : string) : M JsVal :=
  data <- readFileSync f ;;
  match JSON_parse data with
  | Some v => ret v
  | None => throw (Error "Unexpected token in JSON")
  end.

(** [app.get('/api/reservations', ...)] *)
Definition get_reservations : M Response :=
  try_catch
    (files <- readdirSync env ;;
     parsed <- mapM read_record
                 (filter (fun f => String.prefix "reservation-" f) files) ;;
     match sort_by by_submittedAt parsed with
     | Some sorted =>
         ret {| status := 200; success := true; message := None;
                reservations := Some sorted; error := None |}
     | None => throw (Error "Cannot read properties of null")
     end)
    (fun error =>
       ret (json_message 500 false "Failed to retrieve reservations")).

(** [app.get('/api/health', ...)] *)
Definition get_health (st : ServerState) : string * bool :=
  ("Server is running", emailConfigured st).
End Server.

(** ** send-confirmation-emails.js *)

Inductive ExitStatus : Type :=
| Completed
| Exit (code : Z).

(** The code points a string of bytes encodes in UTF-8; a byte that
    starts no sequence is read as U+FFFD. *)
Fixpoint code_points (s : string) : list N :=
  match s with
  | EmptyString => []
  | String b0 r =>
      let n0 := N_of_ascii b0 in
      if (n0 <? 128)%N then n0 :: code_points r
      else
        match r with
        | String b1 r1 =>
            let n1 := (N_of_ascii b1 mod 64)%N in
            if (192 <=? n0)%N && (n0 <? 224)%N then
              ((n0 - 192) * 64 + n1)%N :: code_points r1
            else
              match r1 with
              | String b2 r2 =>
                  let n2 := (N_of_ascii b2 mod 64)%N in
                  if (224 <=? n0)%N && (n0 <? 240)%N then
                    (((n0 - 224) * 64 + n1) * 64 + n2)%N :: code_points r2
                  else
                    match r2 with
                    | String b3 r3 =>
                        let n3 := (N_of_ascii b3 mod 64)%N in
                        if (240 <=? n0)%N && (n0 <? 248)%N then
                          ((((n0 - 240) * 64 + n1) * 64 + n2) * 64 + n3)%N
                          :: code_points r3
                        else 65533%N :: code_points r
                    | EmptyString => 65533%N :: code_points r
                    end
              | EmptyString => 65533%N :: code_points r
              end
        | EmptyString => [65533%N]
        end
  end.

(** The UTF-16 code units of a code point: itself, or a surrogate
    pair. *)
Definition utf16 (cp : N) : list N :=
  if (cp <? 65536)%N then [cp]
  else [(55296 + (cp - 65536) / 1024)%N; (56320 + (cp - 65536) mod 1024)%N].

(** The string as JavaScript holds it: a sequence of code units. *)
Definition code_units (s : string) : list N :=
  flat_map utf16 (code_points s).

(** The order of sequences of code units: the first unit that differs
    decides, and a prefix comes first. *)
Fixpoint units_leb (a b : list N) : bool :=
  match a, b with
  | [], _ => true
  | _ :: _, [] => false
  | x :: a', y :: b' =>
      if (x <? y)%N then true
      else if (y <? x)%N then false
      else units_leb a' b'
  end.

(** [a] is not after [b] in the default order of [sort()]. *)
Definition name_leb (a b : string) : bool :=
  units_leb (code_units a) (code_units b).

Fixpoint insert_name (x : string) (l : list string) : list string :=
  match l with
  | [] => [x]
  | y :: r => if name_leb x y then x :: l else y :: insert_name x r
  end.

(** [names.sort()]: the default order on strings, which compares
    their UTF-16 code units. *)
Definition sort_names (l : list string) : list string :=
  fold_right insert_name [] l.

Section Batch.
Variable env : Env.

Definition restaurantEmail (reservation : JsVal) : option Mail :=
  let name := get "name" reservation in
  let notes := get "notes" reservation in
  match ToString name,
        interpolate
          [ToString name; ToString (get "phone" reservation);
           ToString (get "email" reservation);
           format_date env (get "date" reservation);
           ToString (get "time" reservation);
           ToString (get "guests" reservation);
           if truthy notes
           then option_map (fun s => "<p><strong>Special Requests:</strong> " ++ s ++ "</p>")
                  (ToString notes)
           else Some ""] with
  | Some n, Some html =>
      Some {| mail_from := JPrim (env_prim (GMAIL_USER env));
              mail_to := JPrim (env_prim (GMAIL_USER env));
              mail_subject := "New Reservation Request from " ++ n;
              mail_html := html |}
  | _, _ => None
  end.

Definition batch_confirmationEmail (reservation : JsVal) : option Mail :=
  match interpolate
          [ToString (get "name" reservation);
           format_date env (get "date" reservation);
           ToString (get "time" reservation);
           ToString (get "guests" reservation)] with
  | Some html =>
      Some {| mail_from := JPrim (env_prim (GMAIL_USER env));
              mail_to := get "email" reservation;
              mail_subject := "Reservation Request Received - CROSS ROADS Bistro";
              mail_html := html |}
  | None => None
  end.

(** The [try] block of lines 117-126: both sends and their lines. *)
Definition send_pair (m1 m2 : Mail) (name email : string) : M unit :=
  try_catch
    (sendMail env m1 ;;;
     console_log ("✓ Restaurant email sent for " ++ name) ;;;
     sendMail env m2 ;;;
     console_log ("✓ Confirmation email sent to " ++ email) ;;;
     console_log "")
    (fun error =>
       console_log ("✗ Failed to send email for " ++ name ++ ": "
                    ++ message_of error)).

(** The body of [for (const file of files)]. *)
Definition process_file (file : string) : M unit :=
  data <- readFileSync file ;;
  reservation <- match JSON_parse data with
                 | Some v => ret v
                 | None => throw (Error "Unexpected token in JSON")
                 end ;;
  match property "name" reservation,
        restaurantEmail reservation, batch_confirmationEmail reservation with
  | Some name, Some m1, Some m2 =>
      send_pair m1 m2 (shown_text name) (shown_text (get "email" reservation))
  | None, _, _ => throw (Error "Cannot destructure property 'name' of null")
  | _, _, _ => throw conversion_error
  end.

Fixpoint for_each (files : list string) : M unit :=
  match files with
  | [] => ret tt
  | file :: rest => process_file file ;;; for_each rest
  end.

(** [sendConfirmationEmails()] *)
Definition sendConfirmationEmails : M ExitStatus :=
  try_catch
    (console_log "🔐 Verifying Gmail connection..." ;;;
     verify env ;;;
     console_log ("✓ Gmail connection verified!" ++ newline) ;;;
     names <- readdirSync env ;;
     let files := sort_names
                    (filter (fun f => String.prefix "reservation-" f) names) in
     match files with
     | [] => console_log "No reservations found." ;;; ret Completed
     | _ =>
         console_log ("Found " ++ NumberToString (Fin (Z.of_nat (List.length files)))
                      ++ " reservation(s). Sending confirmation emails..."
                      ++ newline) ;;;
         for_each files ;;;
         console_log "✅ All emails sent successfully!" ;;;
         ret Completed
     end)
    (fun error =>
       console_log ("❌ Error: " ++ message_of error) ;;;
       ret (Exit 1)).
End Batch.

(** ** Vocabulary of the specification *)

(** A field that is absent from the body or the empty string. *)
Definition absent_or_empty (v : JsVal) : bool :=
  match v with
  | JPrim PUndefined => true
  | JPrim (PStr EmptyString) => true
  | _ => false
  end.

(** [hay.includes(needle)] *)
Fixpoint includes (needle hay : string) : bool :=
  String.prefix needle hay ||
  match hay with
  | EmptyString => false
  | String _ r => includes needle r
  end.

(** The text [JSON.stringify] yields for a value that has one. *)
Definition JSON_text (v : JsVal) : string :=
  match JSON_stringify v with
  | Some text => text
  | None => "undefined"
  end.

(** The channel states of the specification. *)
Inductive ChannelState : Type := Disabled | Unavailable | Ready.

Definition channel_state (st : ServerState) : ChannelState :=
  if transporter st then
    if emailConfigured st then Ready else Unavailable
  else Disabled.

(** A guest count as the data model describes it. *)
Definition positive_integer (v : JsVal) : bool :=
  match v with
  | JPrim (PNum (Fin z)) => 0 <? z
  | _ => false
  end.

(** The identifier a submission arriving in world [w] is given, the
    time its [submittedAt] renders, and the text it writes. *)
Definition submission_id (env : Env) (w : World) : Z := clock env (ticks w).

Definition submission_stamp (env : Env) (w : World) : Z :=
  clock env (S (ticks w)).

Definition submission_record (env : Env) (w : World) (b : Body) : JsVal :=
  reservationData (submission_id env w) (submission_stamp env w) b.

Definition submission_text (env : Env) (w : World) (b : Body) : string :=
  JSON_text (submission_record env w b).

(** ** Sample runs *)

Definition smtp_always (history : list (Mail * bool)) (m : Mail) : option Exn :=
  None.

(** A transport that rejects the first message it is given. *)
Definition smtp_first_fails (history : list (Mail * bool)) (m : Mail) : option Exn :=
  match history with
  | [] => Some (Error "Connection timeout")
  | _ => None
  end.

Definition sample_env (write : option Exn)
  (send : list (Mail * bool) -> Mail -> option Exn) : Env :=
  {| GMAIL_USER := Some "bistro@example.com";
     GMAIL_PASSWORD := Some "app-password";
     NODE_ENV := None;
     dataDir := "/srv/app/reservations-data";
     clock := fun n => 1700000000000 + Z.of_nat n;
     disk_write := fun _ _ _ => write;
     disk_partial := fun _ _ _ => None;
     disk_read := fun _ => None;
     smtp_verify := None;
     smtp_send := send;
     toLocaleDateString := fun _ => "Saturday, March 1, 2025" |}.

Definition env_ok : Env := sample_env None smtp_always.
Definition env_disk_full : Env :=
  sample_env (Some (Error "ENOSPC: no space left on device")) smtp_always.
Definition env_first_send_fails : Env := sample_env None smtp_first_fails.

Definition st_ready : ServerState :=
  {| transporter := true; emailConfigured := true |}.
Definition st_disabled : ServerState :=
  {| transporter := false; emailConfigured := false |}.

Definition sample_body (g : Prim) : Body :=
  {| name := JStr "Asha Rao"; phone := JStr "214-555-0101";
     email := JStr "asha@example.com"; date := JStr "2025-03-01";
     time := JStr "19:30"; guests := JPrim g; notes := JUndefined |}.

(** A record whose [submittedAt] is a string that is not a numeric
    literal, as every ISO-8601 timestamp is. *)
Definition text_stamped (v : JsVal) : bool :=
  match v with
  | JObj props =>
      match lookup "submittedAt" props with
      | JPrim (PStr s) =>
          match StringToNumber s with
          | NaN => true
          | _ => false
          end
      | _ => false
      end
  | _ => false
  end.

(** A record stamped by the server: an object whose [submittedAt] is
    the ISO-8601 rendering of a time value. *)
Definition iso_stamped (v : JsVal) : Prop :=
  exists props t, v = JObj props /\
                  lookup "submittedAt" props = JStr (toISOString t).

(** The names [GET /api/reservations] reads, in directory order. *)
Definition listed_names (w : World) : list string :=
  filter (fun f => String.prefix "reservation-" f) (map fst (files w)).

(** Three submissions of the same guest, stored at times T1 < T2 < T3
    and listed by the directory in that order. *)
Definition stored_at (t : Z) : string * string :=
  (fileName t, JSON_text (reservationData t t (sample_body (PNum (Fin 4))))).

Definition three_records : World :=
  {| files := [stored_at 1700000000000; stored_at 1700000060000;
               stored_at 1700000120000];
     outbox := []; console := []; ticks := O |}.

Definition parsed_at (t : Z) : JsVal :=
  JObj [("id", JNum (Fin t)); ("name", JStr "Asha Rao");
        ("phone", JStr "214-555-0101"); ("email", JStr "asha@example.com");
        ("date", JStr "2025-03-01"); ("time", JStr "19:30");
        ("guests", JNum (Fin 4)); ("submittedAt", JStr (toISOString t))].

(** A directory in which one reservation file is cut short. *)
Definition truncated_record : World :=
  {| files := [stored_at 1700000000000;
               ("reservation-1700000060000.json", "{ ");
               stored_at 1700000120000];
     outbox := []; console := []; ticks := O |}.

(** The world after a submission whose guest count overflowed to
    [Infinity] (the body said [1e999]). *)
Definition after_infinite_guests : World :=
  snd (post_reservations env_ok st_disabled (sample_body (PNum PosInf)) empty_world).

(** What the batch sender has in hand for one file when it reaches the
    sends: both messages and the two texts it prints; [None] when
    reading the record or building a message throws. *)
Definition prepared (env : Env) (data : string)
  : option (Mail * Mail * string * string) :=
  match JSON_parse data with
  | Some reservation =>
      match property "name" reservation,
            restaurantEmail env reservation,
            batch_confirmationEmail env reservation with
      | Some name, Some m1, Some m2 =>
          Some (m1, m2, shown_text name, shown_text (get "email" reservation))
      | _, _, _ => None
      end
  | None => None
  end.

(** Every listed file holds a record both messages can be built from. *)
Definition all_prepared (env : Env) (w : World) (names : list string) : bool :=
  forallb (fun n => match file_content n (files w) with
                    | Some d => match prepared env d with
                                | Some _ => true
                                | None => false
                                end
                    | None => false
                    end) names.

(** The files the batch sender works through, in its order. *)
Definition batch_names (w : World) : list string :=
  sort_names (filter (fun f => String.prefix "reservation-" f) (map fst (files w))).

(** What the batch sender does for one record, given the sends
    attempted so far: its restaurant-facing message [m1] is attempted;
    the guest-facing message [m2] is attempted only after [m1] went
    through; and the console tells what became of the record. *)
Inductive record_run (env : Env) (history : list (Mail * bool))
  (m1 m2 : Mail) (shown to : string)
  : list (Mail * bool) -> list string -> Prop :=
| first_send_failed e :
    smtp_send env history m1 = Some e ->
    record_run env history m1 m2 shown to
      [(m1, false)]
      ["✗ Failed to send email for " ++ shown ++ ": " ++ message_of e]
| second_send_failed e :
    smtp_send env history m1 = None ->
    smtp_send env (history ++ [(m1, true)]) m2 = Some e ->
    record_run env history m1 m2 shown to
      [(m1, true); (m2, false)]
      ["✓ Restaurant email sent for " ++ shown;
       "✗ Failed to send email for " ++ shown ++ ": " ++ message_of e]
| both_sent :
    smtp_send env history m1 = None ->
    smtp_send env (history ++ [(m1, true)]) m2 = None ->
    record_run env history m1 m2 shown to
      [(m1, true); (m2, true)]
      ["✓ Restaurant email sent for " ++ shown;
       "✓ Confirmation email sent to " ++ to; ""].

(** The sends and the console lines of a run over the files [names],
    record after record: each record is worked as [record_run] says,
    whatever became of the records before it. *)
Inductive records_run (env : Env) (w : World)
  : list (Mail * bool) -> list string
    -> list (Mail * bool) -> list string -> Prop :=
| records_done history : records_run env w history [] [] []
| records_next history n names d m1 m2 shown to g l gs ls :
    file_content n (files w) = Some d ->
    prepared env d = Some (m1, m2, shown, to) ->
    record_run env history m1 m2 shown to g l ->
    records_run env w (history ++ g) names gs ls ->
    records_run env w history (n :: names) (g ++ gs) (l ++ ls).

(** ** Further sample runs *)

(** The required fields of a body, in the order line 61 tests them. *)
Definition required_fields (b : Body) : list JsVal :=
  [name b; phone b; email b; date b; time b; guests b].

(** The range of time values: what [Date.now()] can return. *)
Definition time_value (t : Z) : Prop :=
  - 8640000000000000 <= t <= 8640000000000000.

(** The same process in development mode, on a disk that is full. *)
Definition env_development : Env :=
  {| GMAIL_USER := GMAIL_USER env_ok;
     GMAIL_PASSWORD := GMAIL_PASSWORD env_ok;
     NODE_ENV := Some "development";
     dataDir := dataDir env_ok;
     clock := clock env_ok;
     disk_write := disk_write env_disk_full;
     disk_partial := disk_partial env_ok;
     disk_read := disk_read env_ok;
     smtp_verify := smtp_verify env_ok;
     smtp_send := smtp_send env_ok;
     toLocaleDateString := toLocaleDateString env_ok |}.

(** A disk that fills up while the record is being written: the write
    throws after the first ten bytes. *)
Definition env_disk_fills : Env :=
  {| GMAIL_USER := GMAIL_USER env_ok;
     GMAIL_PASSWORD := GMAIL_PASSWORD env_ok;
     NODE_ENV := NODE_ENV env_ok;
     dataDir := dataDir env_ok;
     clock := clock env_ok;
     disk_write := disk_write env_disk_full;
     disk_partial := fun _ _ _ => Some 10%nat;
     disk_read := disk_read env_ok;
     smtp_verify := smtp_verify env_ok;
     smtp_send := smtp_send env_ok;
     toLocaleDateString := toLocaleDateString env_ok |}.

(** A clock that stands still: two requests within one millisecond. *)
Definition env_frozen_clock : Env :=
  {| GMAIL_USER := GMAIL_USER env_ok;
     GMAIL_PASSWORD := GMAIL_PASSWORD env_ok;
     NODE_ENV := NODE_ENV env_ok;
     dataDir := dataDir env_ok;
     clock := fun _ => 1700000000000;
     disk_write := disk_write env_ok;
     disk_partial := disk_partial env_ok;
     disk_read := disk_read env_ok;
     smtp_verify := smtp_verify env_ok;
     smtp_send := smtp_send env_ok;
     toLocaleDateString := toLocaleDateString env_ok |}.

(** Credentials that the mail service does not accept. *)
Definition env_unverified : Env :=
  {| GMAIL_USER := GMAIL_USER env_ok;
     GMAIL_PASSWORD := GMAIL_PASSWORD env_ok;
     NODE_ENV := NODE_ENV env_ok;
     dataDir := dataDir env_ok;
     clock := clock env_ok;
     disk_write := disk_write env_ok;
     disk_partial := disk_partial env_ok;
     disk_read := disk_read env_ok;
     smtp_verify := Some (Error "Invalid login");
     smtp_send := smtp_send env_ok;
     toLocaleDateString := toLocaleDateString env_ok |}.

(** A transport that rejects every message. *)
Definition smtp_never (history : list (Mail * bool)) (m : Mail) : option Exn :=
  Some (Error "Connection timeout").

Definition env_no_send : Env := sample_env None smtp_never.

(** A directory that cannot be listed. *)
Definition env_unreadable : Env :=
  {| GMAIL_USER := GMAIL_USER env_ok;
     GMAIL_PASSWORD := GMAIL_PASSWORD env_ok;
     NODE_ENV := NODE_ENV env_ok;
     dataDir := dataDir env_ok;
     clock := clock env_ok;
     disk_write := disk_write env_ok;
     disk_partial := disk_partial env_ok;
     disk_read := fun _ => Some (Error "EACCES: permission denied");
     smtp_verify := smtp_verify env_ok;
     smtp_send := smtp_send env_ok;
     toLocaleDateString := toLocaleDateString env_ok |}.

(** A body whose name is an object with a [toString] property of its
    own: truthy, and not convertible to a string. *)
Definition unshown_body : Body :=
  {| name := JObj [("toString", JNum (Fin 1))]; phone := JStr "214-555-0101";
     email := JStr "asha@example.com"; date := JStr "2025-03-01";
     time := JStr "19:30"; guests := JNum (Fin 4); notes := JUndefined |}.

Definition other_body : Body :=
  {| name := JStr "Ben Ortiz"; phone := JStr "214-555-0199";
     email := JStr "ben@example.com"; date := JStr "2025-03-02";
     time := JStr "20:00"; guests := JNum (Fin 2);
     notes := JStr "Window table" |}.

(** Two submissions within one millisecond. *)
Definition after_first_submission : World :=
  snd (post_reservations env_frozen_clock st_disabled
         (sample_body (PNum (Fin 4))) empty_world).

Definition after_second_submission : World :=
  snd (post_reservations env_frozen_clock st_disabled other_body
         after_first_submission).

(** Two submissions while the clock advances. *)
Definition after_one_submission : World :=
  snd (post_reservations env_ok st_disabled (sample_body (PNum (Fin 4)))
         empty_world).

Definition after_two_submissions : World :=
  snd (post_reservations env_ok st_disabled other_body after_one_submission).

(** The three records next to files that are not reservations. *)
Definition three_records_and_more : World :=
  {| files := (".DS_Store", "{ ") :: files three_records
              ++ [("notes.txt", "closed on Mondays")];
     outbox := []; console := []; ticks := O |}.

(** The integer a record carries as [submittedAt], if it carries one. *)
Definition integer_stamp (v : JsVal) : option Z :=
  match get "submittedAt" v with
  | JPrim (PNum (Fin t)) => Some t
  | _ => None
  end.

Definition stamp_or_zero (v : JsVal) : Z :=
  match integer_stamp v with
  | Some t => t
  | None => 0
  end.

(** [a] may stand before [b] in a listing that is newest first. *)
Definition not_older (a b : JsVal) : Prop := stamp_or_zero b <= stamp_or_zero a.

(** Records edited by hand to carry a number as [submittedAt], listed
    oldest first. *)
Definition numbered (t : Z) : JsVal :=
  JObj [("name", JStr "Asha Rao"); ("submittedAt", JNum (Fin t))].

Definition numbered_file (t : Z) : string * string :=
  (fileName t, JSON_text (numbered t)).

Definition numbered_records : World :=
  {| files := [numbered_file 100; numbered_file 200; numbered_file 300];
     outbox := []; console := []; ticks := O |}.

(** A directory in which one reservation file holds [null]. *)
Definition null_record : World :=
  {| files := [stored_at 1700000000000; (fileName 1700000060000, "null")];
     outbox := []; console := []; ticks := O |}.

(** The order of [names.sort()] on two names. *)
Definition name_le (a b : string) : Prop := name_leb a b = true.

(** What the batch sender attempts for the record in file [n]: its
    restaurant-facing message, failed, or that message, sent, followed
    by the guest-facing one. *)
Definition record_attempts (env : Env) (w : World) (n : string)
  (g : list (Mail * bool)) : Prop :=
  exists d m1 m2 shown to,
    file_content n (files w) = Some d /\
    prepared env d = Some (m1, m2, shown, to) /\
    ((g = [(m1, false)] /\ exists h, smtp_send env h m1 <> None) \/
     (exists ok, g = [(m1, true); (m2, ok)] /\
                 exists h, smtp_send env h m1 = None)).

(** ** Notions used in the proofs *)

(** Tokens that stand for themselves when decoded. *)
Definition plain_token (t : StrToken) : bool :=
  match t with
  | TChar _ => true
  | TUnit u => (u <? 128)%N
  end.

Definition token_char (t : StrToken) : ascii :=
  match t with
  | TChar c => c
  | TUnit u => byte u
  end.

(** What may follow a number literal without being taken for part of it. *)
Definition stops_number (rest : string) : bool :=
  match rest with
  | EmptyString => true
  | String c _ =>
      negb (is_digit c) && negb (Ascii.eqb c ".") && negb (Ascii.eqb c "e")
      && negb (Ascii.eqb c "E")
  end.

(** A scalar that [JSON.stringify] writes and [JSON.parse] gives back. *)
Definition storable (p : Prim) : bool :=
  match p with
  | PUndefined => false
  | PNum (Fin z) => (- 10 ^ 21 <? z) && (z <? 10 ^ 21)
  | PNum _ => false
  | _ => true
  end.

Definition defined (p : Prim) : bool :=
  match p with
  | PUndefined => false
  | _ => true
  end.

(** A field value that is absent or survives the round trip. *)
Definition storable_field (p : Prim) : bool := negb (defined p) || storable p.

(** A field of a body that is a scalar as [storable_field] wants it. *)
Definition storable_value (v : JsVal) : bool :=
  match v with
  | JPrim p => storable_field p
  | _ => false
  end.

Definition storable_body (b : Body) : bool :=
  forallb storable_value
    [name b; phone b; email b; date b; time b; guests b; notes b].

(** The first character of a signed run of digits. *)
Definition sign_or_digit (c : ascii) : bool :=
  is_digit c || Ascii.eqb c "+" || Ascii.eqb c "-".

(** The text of a number literal: integer digits, fraction digits
    (no fraction when there is none) and an optional exponent with its
    sign. *)
Definition literal_text (i f : string) (e : option (bool * string)) : string :=
  i ++ match f with
       | EmptyString => ""
       | _ => "." ++ f
       end
    ++ match e with
       | Some (negative, d) => "e" ++ (if negative : bool then "-" else "+") ++ d
       | None => ""
       end.

(** The parts of a literal the JSON grammar accepts: digits with no
    superfluous leading zero, and an exponent that has digits. *)
Definition literal_ok (i f : string) (e : option (bool * string)) : bool :=
  all_digits i && all_digits f
  && match i with
     | EmptyString => false
     | String c r => negb (Ascii.eqb c "0") || String.eqb r ""
     end
  && match e with
     | Some (_, d) => all_digits d && negb (String.eqb d "")
     | None => true
     end.

(** The number a literal denotes. *)
Definition literal_value (negative : bool) (i f : string)
  (e : option (bool * string)) : JsNumber :=
  decimal_number negative (digits_value (i ++ f))
    (match e with
     | Some (true, d) => - digits_value d
     | Some (false, d) => digits_value d
     | None => 0
     end - slen f).

Definition set_field (acc : list (string * JsVal)) (kv : string * JsVal)
  : list (string * JsVal) :=
  set_prop (fst kv) (snd kv) acc.

(** A value that is not an object or an array. *)
Definition is_scalar (v : JsVal) : bool :=
  match v with
  | JPrim _ => true
  | _ => false
  end.

Definition is_defined (v : JsVal) : bool :=
  match v with
  | JPrim PUndefined => false
  | _ => true
  end.

Definition is_finite (n : JsNumber) : bool :=
  match n with
  | Fin _ | Frac _ _ => true
  | _ => false
  end.

(** A run of JSON white space. *)
Fixpoint all_ws (s : string) : bool :=
  match s with
  | EmptyString => true
  | String c r => is_json_ws c && all_ws r
  end.

(** The number [JSON.parse] reads from the text [JSON.stringify] wrote
    for [n]; [null] was written for a number that is not finite. *)
Definition read_number (n : JsNumber) : JsVal :=
  match n with
  | Fin _ | Frac _ _ =>
      match parse_number (NumberToString n) with
      | Parsed x _ => JNum x
      | _ => JNull
      end
  | _ => JNull
  end.

(** What [JSON.parse] gives back for the text [JSON.stringify] wrote
    for a value: a hole of an array comes back as [null], a property
    that is [undefined] does not come back, and the properties that do
    are created one after the other. *)
Fixpoint read_back (v : JsVal) : JsVal :=
  match v with
  | JPrim (PNum n) => read_number n
  | JPrim p => JPrim p
  | JArr items =>
      JArr (map (fun x => match x with
                          | JPrim PUndefined => JNull
                          | _ => read_back x
                          end) items)
  | JObj props =>
      JObj (fold_left set_field
              (flat_map (fun kv => match snd kv with
                                   | JPrim PUndefined => []
                                   | _ => [(fst kv, read_back (snd kv))]
                                   end) props) [])
  end.

(** The text of an array item or of a property value, and what it is
    read back as. *)
Definition item_text (indent : string) (x : JsVal) : string :=
  match SerializeJSONProperty indent x with
  | Some s => s
  | None => "null"
  end.

Definition item_back (x : JsVal) : JsVal :=
  match x with
  | JPrim PUndefined => JNull
  | _ => read_back x
  end.

Definition member_line (indent : string) (kv : string * JsVal) : string :=
  QuoteJSONString (fst kv) ++ ": " ++ item_text indent (snd kv).

(** The text of [x] is read back as [item_back x] wherever it stands,
    by a parser that has fuel enough. *)
Definition reads_ok (indent : string) (x : JsVal) : Prop :=
  exists f0, forall f pre rest,
    (f0 <= f)%nat -> all_ws pre = true -> stops_number rest = true ->
    parse_value f (pre ++ item_text indent x ++ rest) = Parsed (item_back x) rest.

(** The first character of a value's text. *)
Definition value_head (t : string) : Prop :=
  exists c r, t = String c r /\ is_json_ws c = false /\
              Ascii.eqb c "]" = false /\ Ascii.eqb c "," = false.

(** The exponent a literal carries. *)
Definition literal_exponent (e : option (bool * string)) : Z :=
  match e with
  | Some (true, d) => - digits_value d
  | Some (false, d) => digits_value d
  | None => 0
  end.

(** The numbers of the model in their normal form: an integer below
    the magnitude that overflows, or a fraction [m / 10^k] in lowest
    decimal terms above the magnitude that underflows.  These are the
    numbers a literal is read as. *)
Definition normal_number (n : JsNumber) : bool :=
  match n with
  | Fin z => Z.abs z <? overflow_threshold
  | Frac m k =>
      negb (m mod 10 =? 0)
      && negb (330 <? Z.pos k - slen (decimal_digits (Z.abs m)))
      && negb (Z.abs m * underflow_scale <=? 10 ^ Z.pos k)
  | _ => true
  end.

(** [k] is enumerated before [k']: array indices in ascending order,
    then the other keys in the order they were created. *)
Definition key_before (k k' : string) : bool :=
  match array_index k, array_index k' with
  | Some i, Some j => i <? j
  | Some _, None => true
  | None, Some _ => false
  | None, None => true
  end.

(** Properties listed in the order the object enumerates them, no key
    twice. *)
Fixpoint in_order (props : list (string * JsVal)) : bool :=
  match props with
  | [] => true
  | (k, _) :: r =>
      negb (has_key k r) && forallb (fun kv => key_before k (fst kv)) r
      && in_order r
  end.

(** A value as [JSON.parse] builds it, which is how [express.json()]
    builds the fields of a body: numbers in normal form, objects
    listing their properties in enumeration order, no [undefined]
    inside. *)
Fixpoint json_value (v : JsVal) : bool :=
  match v with
  | JPrim PUndefined => false
  | JPrim (PNum n) => normal_number n
  | JPrim _ => true
  | JArr items => forallb json_value items
  | JObj props => in_order props && forallb (fun kv => json_value (snd kv)) props
  end.

(** A field of a body: absent, or a value as [JSON.parse] builds it. *)
Definition json_field (v : JsVal) : bool :=
  negb (is_defined v) || json_value v.

Definition json_body (b : Body) : bool :=
  forallb json_field
    [name b; phone b; email b; date b; time b; guests b; notes b].

(** [const { name, phone, email, date, time, guests, notes } = req.body],
    line 57, on the value [express.json()] parsed from the request. *)
Definition request_body (body : JsVal) : Body :=
  {| name := get "name" body; phone := get "phone" body;
     email := get "email" body; date := get "date" body;
     time := get "time" body; guests := get "guests" body;
     notes := get "notes" body |}.

(** The value with every number that is not finite replaced by [null]. *)
Fixpoint non_finite_to_null (v : JsVal) : JsVal :=
  match v with
  | JPrim (PNum n) => if is_finite n then v else JNull
  | JPrim _ => v
  | JArr items => JArr (map non_finite_to_null items)
  | JObj props => JObj (map (fun kv => (fst kv, non_finite_to_null (snd kv))) props)
  end.

(** No number inside the value is [NaN] or an infinity. *)
Fixpoint finite_only (v : JsVal) : bool :=
  match v with
  | JPrim (PNum n) => is_finite n
  | JPrim _ => true
  | JArr items => forallb finite_only items
  | JObj props => forallb (fun kv => finite_only (snd kv)) props
  end.

(** Every field of the body is a scalar or absent. *)
Definition scalar_body (b : Body) : bool :=
  forallb is_scalar
    [name b; phone b; email b; date b; time b; guests b; notes b].

(** A text the server wrote for a submission that passed validation. *)
Definition server_written (data : string) (record : JsVal) : Prop :=
  exists id submitted b,
    record = reservationData id submitted b /\
    data = JSON_text record /\
    missing_required b = false.

(** The file [n] of [w] holds the text of a record the server wrote,
    and [r] gives back every field of it that is a string, a boolean,
    [null] or an integer below [10^21] in magnitude. *)
Definition reads_back (w : World) (n : string) (r : JsVal) : Prop :=
  exists data record,
    file_content n (files w) = Some data /\
    server_written data record /\
    forall k p, get k record = JPrim p -> storable p = true ->
                get k r = JPrim p.

(** Every reservation file of the directory is a record the server
    wrote. *)
Definition server_written_directory (w : World) : Prop :=
  Forall (fun n => exists data record,
                     file_content n (files w) = Some data /\
                     server_written data record) (listed_names w).

(** Every reservation file of the directory is a record the server
    wrote for a body whose fields were scalars. *)
Definition scalar_records_directory (w : World) : Prop :=
  Forall (fun n => exists id submitted b,
                     file_content n (files w)
                     = Some (JSON_text (reservationData id submitted b)) /\
                     missing_required b = false /\
                     scalar_body b = true) (listed_names w).

(** The world after a series of submissions, handled one after the
    other by the same process. *)
Fixpoint after_submissions (env : Env) (st : ServerState) (bodies : list Body)
  (w : World) : World :=
  match bodies with
  | [] => w
  | b :: rest =>
      after_submissions env st rest (snd (post_reservations env st b w))
  end.

(** The answer of the outer [catch] to the exception [e]. *)
Definition failure_response (env : Env) (e : Exn) : Response :=
  {| status := 500; success := false; message := Some message_failed;
     reservations := None;
     error := match NODE_ENV env with
              | Some mode => if String.eqb mode "development"
                             then Some (message_of e) else None
              | None => None
              end |}.

(** The ways a submission can go: rejected by the validation; failed
    in the write; stored, but with a name the log line that follows
    the write cannot show; stored and answered. *)
Inductive PostRun (env : Env) (st : ServerState) (b : Body) (w : World)
  : Response -> World -> Prop :=
| Rejected :
    missing_required b = true ->
    PostRun env st b w (json_message 400 false "Missing required fields") w
| Failed e w' :
    missing_required b = false ->
    disk_write env (files w) (fileName (submission_id env w))
      (submission_text env w b) = Some e ->
    files w' = interrupted_write env (fileName (submission_id env w))
                 (submission_text env w b) (files w) ->
    outbox w' = outbox w ->
    ticks w' = S (S (ticks w)) ->
    PostRun env st b w (failure_response env e) w'
| Unshown w' :
    missing_required b = false ->
    disk_write env (files w) (fileName (submission_id env w))
      (submission_text env w b) = None ->
    ToString (name b) = None ->
    files w' = upsert (fileName (submission_id env w))
                 (submission_text env w b) (files w) ->
    outbox w' = outbox w ->
    ticks w' = S (S (ticks w)) ->
    PostRun env st b w (failure_response env conversion_error) w'
| Stored attempts w' :
    missing_required b = false ->
    disk_write env (files w) (fileName (submission_id env w))
      (submission_text env w b) = None ->
    ToString (name b) <> None ->
    files w' = upsert (fileName (submission_id env w))
                 (submission_text env w b) (files w) ->
    outbox w' = (outbox w ++ attempts)%list ->
    ticks w' = S (S (ticks w)) ->
    (emailConfigured st && transporter st = false -> attempts = []) ->
    (mailOptions env b = None -> attempts = []) ->
    (attempts = [] \/
     (exists m1, mailOptions env b = Some m1 /\ attempts = [(m1, false)]) \/
     (exists m1 m2 ok, mailOptions env b = Some m1 /\
                       confirmationEmail env b = Some m2 /\
                       attempts = [(m1, true); (m2, ok)])) ->
    PostRun env st b w
      (json_message 200 true
         (if forallb snd attempts && Nat.eqb (List.length attempts) 2
          then message_sent else message_received)) w'.

(** * Properties *)

(** ** The model at work *)

Example ex_iso1 : toISOString 0 = "1970-01-01T00:00:00.000Z".
Proof. reflexivity. Qed.

Example ex_iso2 : toISOString 1700000000123 = "2023-11-14T22:13:20.123Z".
Proof. reflexivity. Qed.

Example ex_iso3 : toISOString 951782400000 = "2000-02-29T00:00:00.000Z".
Proof. reflexivity. Qed.

Example ex_iso4 : toISOString (-1) = "1969-12-31T23:59:59.999Z".
Proof. reflexivity. Qed.

Example ex_number_text :
  map NumberToString
    [Fin 1700000000000; Frac 25 1; Frac (-1) 7; Fin (15 * 10 ^ 20);
     Frac 1 6; Frac 12345 2; Fin 0; NaN; NegInf]
  = ["1700000000000"; "2.5"; "-1e-7"; "1.5e+21"; "0.000001"; "123.45"; "0";
     "NaN"; "-Infinity"].
Proof. vm_compute. reflexivity. Qed.

Example ex_string_to_number :
  map StringToNumber
    ["2023-11-14T22:13:20.000Z"; "  12.50 "; "0x1F"; ""; ".5"; "5."; "1e3";
     "-Infinity"; "12px"; "1e999"]
  = [NaN; Frac 125 1; Fin 31; Fin 0; Frac 5 1; Fin 5; Fin 1000; NegInf; NaN;
     PosInf].
Proof. vm_compute. reflexivity. Qed.

Example ex_parse_array :
  JSON_parse " [1, 2.50, -0, 1e3, 1e999, true, null, [], {}] "
  = Some (JArr [JNum (Fin 1); JNum (Frac 25 1); JNum (Fin 0); JNum (Fin 1000);
                JNum PosInf; JPrim (PBool true); JNull; JArr []; JObj []]).
Proof. vm_compute. reflexivity. Qed.

Example ex_parse_rejects :
  map JSON_parse ["[1,]"; "01"; "1 2"; "tru"; "{"; "-"; "1."; ""]
  = [None; None; None; None; None; None; None; None].
Proof. vm_compute. reflexivity. Qed.

Example ex_stringify_non_finite :
  JSON_stringify (JObj [("guests", JNum PosInf); ("notes", JUndefined)])
  = Some ("{" ++ newline ++ "  " ++ QuoteJSONString "guests" ++ ": null"
          ++ newline ++ "}").
Proof. reflexivity. Qed.

(** On numeric stamps the comparator of the listing does sort, latest
    first. *)
Example ex_sort_numeric :
  sort_by by_submittedAt
    [JObj [("submittedAt", JNum (Fin 1))]; JObj [("submittedAt", JNum (Fin 3))];
     JObj [("submittedAt", JNum (Fin 2))]]
  = Some [JObj [("submittedAt", JNum (Fin 3))]; JObj [("submittedAt", JNum (Fin 2))];
          JObj [("submittedAt", JNum (Fin 1))]].
Proof. vm_compute. reflexivity. Qed.

Example ex_sort_null :
  sort_by by_submittedAt [JNull; JObj []] = None.
Proof. reflexivity. Qed.

(** [sort()] compares code units: U+1F600, a surrogate pair that
    starts with [0xD83D], comes before U+FF5E, although its UTF-8
    bytes come after. *)
Example ex_sort_names_code_units :
  sort_names ["reservation-～.json"; "reservation-😀.json"]
  = ["reservation-😀.json"; "reservation-～.json"] /\
  code_units "😀" = [55357%N; 56832%N] /\
  code_units "～" = [65374%N] /\
  String.leb "～" "😀" = true.
Proof. vm_compute. repeat split. Qed.

(** ** Strings *)

Lemma app_assoc_s (a b c : string) : (a ++ b) ++ c = a ++ (b ++ c).
Proof. induction a as [|x a IH]; simpl; [reflexivity|]. rewrite IH. reflexivity. Qed.

Lemma app_nil_r_s (a : string) : a ++ "" = a.
Proof. induction a as [|x a IH]; simpl; [reflexivity|]. rewrite IH. reflexivity. Qed.

Lemma length_app_s (a b : string) :
  String.length (a ++ b) = (String.length a + String.length b)%nat.
Proof. induction a as [|x a IH]; simpl; [reflexivity|]. rewrite IH. reflexivity. Qed.

Lemma substring_all (s : string) : substring 0 (String.length s) s = s.
Proof. induction s as [|x s IH]; simpl; [reflexivity|]. rewrite IH. reflexivity. Qed.

Lemma decode_unit_plain u ts :
  (u <? 128)%N = true ->
  decode_tokens (TUnit u :: ts) = String (byte u) (decode_tokens ts).
Proof.
  intros Hu.
  assert (Hhi : is_high_surrogate u = false).
  { unfold is_high_surrogate. apply N.ltb_lt in Hu.
    apply andb_false_intro1. apply N.leb_gt. lia. }
  assert (H8 : utf8 u = String (byte u) "").
  { unfold utf8. rewrite Hu. reflexivity. }
  destruct ts as [|[c|v] ts']; cbn [decode_tokens];
    rewrite ?Hhi; cbn [andb]; rewrite H8; reflexivity.
Qed.

Lemma decode_plain ts :
  forallb plain_token ts = true ->
  decode_tokens ts = string_of_list_ascii (map token_char ts).
Proof.
  induction ts as [|t ts IH]; [reflexivity|].
  cbn [forallb]. intros H. apply andb_prop in H. destruct H as [Ht Hts].
  destruct t as [c|u].
  - cbn [decode_tokens map token_char string_of_list_ascii].
    rewrite IH by assumption. reflexivity.
  - rewrite decode_unit_plain by exact Ht.
    cbn [map token_char string_of_list_ascii].
    rewrite IH by assumption. reflexivity.
Qed.

Lemma string_tokens_step (c : ascii) (tail : string) :
  Nat.eqb (nat_of_ascii c) 34 = false ->
  Nat.eqb (nat_of_ascii c) 92 = false ->
  Nat.ltb (nat_of_ascii c) 32 = false ->
  string_tokens (String c tail)
  = match string_tokens tail with
    | Some (ts, rest) => Some (TChar c :: ts, rest)
    | None => None
    end.
Proof. intros H1 H2 H3. simpl. rewrite H1, H2, H3. reflexivity. Qed.

(** The tokens [string_tokens] reads from the escaped form of [c]. *)
Lemma quote_char_tokens (c : ascii) (tail : string) ts rest :
  string_tokens tail = Some (ts, rest) ->
  exists t, string_tokens (quote_char c ++ tail) = Some (t :: ts, rest) /\
            plain_token t = true /\ token_char t = c.
Proof.
  intros H.
  destruct (Nat.ltb (nat_of_ascii c) 32) eqn:Hlow.
  - apply Nat.ltb_lt in Hlow.
    rewrite <- (ascii_nat_embedding c).
    remember (nat_of_ascii c) as n eqn:Hn. clear Hn.
    do 32 (destruct n as [|n];
           [eexists; simpl; rewrite H; split; [reflexivity|split; reflexivity]|]).
    exfalso. lia.
  - destruct (Nat.eqb (nat_of_ascii c) 34) eqn:H34.
    + apply Nat.eqb_eq in H34. rewrite <- (ascii_nat_embedding c). rewrite H34.
      eexists; simpl; rewrite H; split; [reflexivity|split; reflexivity].
    + destruct (Nat.eqb (nat_of_ascii c) 92) eqn:H92.
      * apply Nat.eqb_eq in H92. rewrite <- (ascii_nat_embedding c). rewrite H92.
        eexists; simpl; rewrite H; split; [reflexivity|split; reflexivity].
      * exists (TChar c). split; [|split; reflexivity].
        assert (Hq : quote_char c = String c "").
        { unfold quote_char. rewrite H34, H92.
          apply Nat.ltb_ge in Hlow.
          repeat match goal with
          | |- context [Nat.eqb (nat_of_ascii c) ?k] =>
              replace (Nat.eqb (nat_of_ascii c) k) with false
                by (symmetry; apply Nat.eqb_neq; lia)
          end.
          replace (Nat.ltb (nat_of_ascii c) 32) with false
            by (symmetry; apply Nat.ltb_ge; lia).
          reflexivity. }
        rewrite Hq. change (String c "" ++ tail) with (String c tail).
        rewrite string_tokens_step by assumption. rewrite H. reflexivity.
Qed.

Lemma quote_chars_tokens (s rest : string) :
  exists ts, string_tokens (quote_chars s ++ dquote ++ rest) = Some (ts, rest) /\
             forallb plain_token ts = true /\ map token_char ts = list_ascii_of_string s.
Proof.
  induction s as [|c s IH].
  - exists []. split; [reflexivity|split; reflexivity].
  - destruct IH as (ts & H1 & H2 & H3).
    destruct (quote_char_tokens c _ ts rest H1) as (t & Ht1 & Ht2 & Ht3).
    exists (t :: ts). simpl quote_chars. rewrite app_assoc_s. rewrite Ht1.
    split; [reflexivity|]. split.
    + simpl. rewrite Ht2, H2. reflexivity.
    + simpl. rewrite Ht3, H3. reflexivity.
Qed.

(** A quoted string is read back as it was. *)
Lemma parse_string_quote (s rest : string) :
  parse_string (quote_chars s ++ dquote ++ rest) = Parsed s rest.
Proof.
  unfold parse_string.
  destruct (quote_chars_tokens s rest) as (ts & H1 & H2 & H3).
  rewrite H1. rewrite decode_plain by assumption. rewrite H3.
  rewrite string_of_list_ascii_of_string. reflexivity.
Qed.

(** ** Numbers *)

Lemma digit_char_spec d :
  0 <= d < 10 ->
  is_digit (digit_char d) = true /\ digit_value (digit_char d) = d.
Proof.
  intros H.
  assert (Hc : d = 0 \/ d = 1 \/ d = 2 \/ d = 3 \/ d = 4 \/ d = 5 \/ d = 6
               \/ d = 7 \/ d = 8 \/ d = 9) by lia.
  repeat (destruct Hc as [Hc|Hc]; [subst d; split; reflexivity|]).
  subst d; split; reflexivity.
Qed.

Lemma digits_fuel_acc f : forall n acc,
  digits_fuel f n acc = digits_fuel f n "" ++ acc.
Proof.
  induction f as [|f IH]; intros n acc; [reflexivity|].
  cbn [digits_fuel]. destruct (n <? 10); [reflexivity|].
  rewrite (IH (n / 10) (String _ acc)), (IH (n / 10) (String _ "")).
  rewrite app_assoc_s. reflexivity.
Qed.

Lemma digits_fuel_step f n :
  digits_fuel (S f) n ""
  = if n <? 10 then String (digit_char (n mod 10)) ""
    else digits_fuel f (n / 10) "" ++ String (digit_char (n mod 10)) "".
Proof.
  cbn [digits_fuel]. destruct (n <? 10); [reflexivity|].
  apply digits_fuel_acc.
Qed.

Lemma all_digits_app a b :
  all_digits (a ++ b) = all_digits a && all_digits b.
Proof.
  induction a as [|c a IH]; [reflexivity|].
  cbn [append all_digits]. rewrite IH. apply andb_assoc.
Qed.

Lemma digits_value_from_app a : forall acc b,
  digits_value_from acc (a ++ b) = digits_value_from (digits_value_from acc a) b.
Proof.
  induction a as [|c a IH]; intros acc b; [reflexivity|].
  cbn [append digits_value_from]. apply IH.
Qed.

Lemma digits_fuel_spec f : forall n,
  0 <= n < 10 ^ Z.of_nat (S f) ->
  let s := digits_fuel (S f) n "" in
  all_digits s = true /\ digits_value s = n /\
  (String.length s <= S f)%nat /\
  exists c r, s = String c r /\ (0 < n -> c <> "0"%char).
Proof.
  induction f as [|f IH]; intros n Hn s; subst s; rewrite digits_fuel_step;
    assert (Hm : 0 <= n mod 10 < 10) by (apply Z.mod_pos_bound; lia);
    destruct (digit_char_spec _ Hm) as [Hd1 Hd2];
    (destruct (n <? 10) eqn:Hlt;
     [ apply Z.ltb_lt in Hlt;
       rewrite Z.mod_small in * by lia;
       split; [cbn [all_digits]; rewrite Hd1; reflexivity|];
       split; [unfold digits_value; cbn [digits_value_from]; lia|];
       split; [cbn; lia|];
       eexists; eexists; (split; [reflexivity|]);
       intros Hpos Hc;
       assert (Hv : digit_value (digit_char n) = digit_value "0"%char)
         by (rewrite Hc; reflexivity);
       rewrite Hd2 in Hv; change (digit_value "0"%char) with 0 in Hv; lia
     | apply Z.ltb_ge in Hlt ]).
  - change (10 ^ Z.of_nat 1) with 10 in Hn. lia.
  - assert (Hq : 0 <= n / 10 < 10 ^ Z.of_nat (S f)).
    { split; [apply Z.div_pos; lia|].
      apply Z.div_lt_upper_bound; [lia|].
      rewrite (Nat2Z.inj_succ (S f)), Z.pow_succ_r in Hn by lia. lia. }
    destruct (IH (n / 10) Hq) as (H1 & H2 & H3 & c & r & H4 & H5).
    split; [rewrite all_digits_app, H1; cbn [all_digits]; rewrite Hd1; reflexivity|].
    split.
    { unfold digits_value in *. rewrite digits_value_from_app, H2.
      cbn [digits_value_from]. rewrite Hd2.
      pose proof (Z.div_mod n 10). lia. }
    split.
    { rewrite length_app_s. cbn [String.length]. lia. }
    exists c, (r ++ String (digit_char (n mod 10)) "").
    split; [rewrite H4; reflexivity|].
    intros _. apply H5.
    apply Z.div_str_pos. lia.
Qed.

(** The fuel [decimal_digits] starts with is enough. *)
Lemma decimal_digits_spec n :
  0 <= n ->
  let s := decimal_digits n in
  all_digits s = true /\ digits_value s = n /\
  exists c r, s = String c r /\ (0 < n -> c <> "0"%char).
Proof.
  intros Hn s. subst s. unfold decimal_digits.
  assert (Hb : 0 <= n < 10 ^ Z.of_nat (S (Z.to_nat (Z.log2 n)))).
  { split; [assumption|].
    rewrite Nat2Z.inj_succ, Z2Nat.id by apply Z.log2_nonneg.
    destruct (Z.eq_dec n 0) as [->|Hnz]; [cbn; lia|].
    apply Z.lt_le_trans with (2 ^ Z.succ (Z.log2 n)).
    - apply Z.log2_spec. lia.
    - apply Z.pow_le_mono_l. pose proof (Z.log2_nonneg n). lia. }
  destruct (digits_fuel_spec _ n Hb) as (H1 & H2 & _ & H4).
  repeat split; assumption.
Qed.

(** A number below [10^k] has at most [k] digits. *)
Lemma decimal_digits_length n k :
  0 <= n < 10 ^ Z.of_nat (S k) -> (String.length (decimal_digits n) <= S k)%nat.
Proof.
  intros Hn. unfold decimal_digits.
  remember (S (Z.to_nat (Z.log2 n))) as f eqn:Hf.
  assert (Hgen : forall f m, 0 <= m < 10 ^ Z.of_nat (S k) ->
                 forall j, (S j = f)%nat -> 0 <= m < 10 ^ Z.of_nat f ->
                 (String.length (digits_fuel f m "") <= S k)%nat).
  { clear. induction k as [|k IHk]; intros f m Hm j Hj Hf; subst f;
      rewrite digits_fuel_step.
    - change (10 ^ Z.of_nat 1) with 10 in Hm.
      replace (m <? 10) with true by (symmetry; apply Z.ltb_lt; lia).
      cbn. lia.
    - destruct (m <? 10) eqn:Hlt; [cbn; lia|].
      apply Z.ltb_ge in Hlt.
      rewrite length_app_s. cbn [String.length].
      assert (Hq : 0 <= m / 10 < 10 ^ Z.of_nat (S k)).
      { split; [apply Z.div_pos; lia|].
        apply Z.div_lt_upper_bound; [lia|].
        rewrite (Nat2Z.inj_succ (S k)), Z.pow_succ_r in Hm by lia. lia. }
      destruct j as [|j].
      + change (10 ^ Z.of_nat 1) with 10 in Hf. lia.
      + assert (Hq' : 0 <= m / 10 < 10 ^ Z.of_nat (S j)).
        { split; [apply Z.div_pos; lia|].
          apply Z.div_lt_upper_bound; [lia|].
          rewrite (Nat2Z.inj_succ (S j)), Z.pow_succ_r in Hf by lia. lia. }
        pose proof (IHk (S j) (m / 10) Hq j eq_refl Hq'). lia. }
  apply (Hgen f n Hn (Z.to_nat (Z.log2 n))); [congruence|].
  subst f. split; [lia|].
  rewrite Nat2Z.inj_succ, Z2Nat.id by apply Z.log2_nonneg.
  destruct (Z.eq_dec n 0) as [->|Hnz]; [cbn; lia|].
  apply Z.lt_le_trans with (2 ^ Z.succ (Z.log2 n)).
  - apply Z.log2_spec. lia.
  - apply Z.pow_le_mono_l. pose proof (Z.log2_nonneg n). lia.
Qed.

Lemma span_digits_app s rest :
  all_digits s = true ->
  match rest with String c _ => is_digit c = false | EmptyString => True end ->
  span_digits (s ++ rest) = (s, rest).
Proof.
  intros Hs Hr. induction s as [|c s IH].
  - cbn [append]. destruct rest as [|c r]; [reflexivity|].
    cbn [span_digits]. rewrite Hr. reflexivity.
  - cbn [all_digits] in Hs. apply andb_prop in Hs. destruct Hs as [Hc Hs].
    cbn [append span_digits]. rewrite Hc, IH by assumption. reflexivity.
Qed.

Lemma is_digit_cases c :
  is_digit c = true ->
  c = "0"%char \/ c = "1"%char \/ c = "2"%char \/ c = "3"%char \/ c = "4"%char \/
  c = "5"%char \/ c = "6"%char \/ c = "7"%char \/ c = "8"%char \/ c = "9"%char.
Proof.
  intros H. unfold is_digit in H. apply andb_prop in H. destruct H as [H1 H2].
  apply Nat.leb_le in H1. apply Nat.leb_le in H2.
  rewrite <- (ascii_nat_embedding c).
  remember (nat_of_ascii c) as n eqn:Hn. clear Hn.
  do 48 (destruct n as [|n]; [exfalso; lia|]).
  do 10 (destruct n as [|n]; [tauto|]).
  exfalso. lia.
Qed.

Lemma ten_21_below_overflow : (overflow_threshold <=? 10 ^ 21) = false.
Proof. vm_compute. reflexivity. Qed.

Lemma parse_unsigned_digits negative (s rest : string) c r :
  s = String c r ->
  all_digits s = true ->
  (c = "0"%char -> r = "") ->
  stops_number rest = true ->
  parse_unsigned negative (s ++ rest)
  = Parsed (decimal_number negative (digits_value s) 0) rest.
Proof.
  intros Hs Hd Hz Hstop.
  assert (Hspan : span_digits (s ++ rest) = (s, rest)).
  { apply span_digits_app; [assumption|].
    destruct rest as [|x rest']; [exact I|].
    cbn in Hstop. destruct (is_digit x); [discriminate|reflexivity]. }
  unfold parse_unsigned.
  rewrite Hspan. rewrite Hs at 1.
  assert (Hlead : Ascii.eqb c "0" && negb (String.eqb r "") = false).
  { destruct (Ascii.eqb c "0") eqn:E; [|reflexivity].
    apply Ascii.eqb_eq in E. rewrite (Hz E). reflexivity. }
  rewrite Hlead.
  destruct rest as [|x rest'].
  - cbv beta iota zeta. rewrite app_nil_r_s. reflexivity.
  - cbn in Hstop.
    destruct (is_digit x) eqn:E1; [discriminate|].
    destruct (Ascii.eqb x ".") eqn:E2; [discriminate|].
    destruct (Ascii.eqb x "e") eqn:E3; [discriminate|].
    destruct (Ascii.eqb x "E") eqn:E4; [discriminate|].
    assert (Hdot : match String x rest' with
                   | String "." r2 =>
                       match span_digits r2 with
                       | (EmptyString, _) => None
                       | (f, r3) => Some (f, r3)
                       end
                   | _ => Some (EmptyString, String x rest')
                   end = Some (EmptyString, String x rest')).
    { destruct x as [[] [] [] [] [] [] [] []]; try reflexivity; discriminate. }
    cbv zeta. rewrite Hdot. cbv beta iota. rewrite E3, E4. cbn [orb]. cbv beta iota.
    rewrite app_nil_r_s. reflexivity.
Qed.

Lemma parse_number_unsigned s rest c r :
  s = String c r -> is_digit c = true ->
  parse_number (s ++ rest) = parse_unsigned false (s ++ rest).
Proof.
  intros Hs Hc. subst s. cbn [append]. unfold parse_number.
  destruct (is_digit_cases c Hc) as [E|[E|[E|[E|[E|[E|[E|[E|[E|E]]]]]]]]];
    subst c; reflexivity.
Qed.

Lemma decimal_number_small negative m :
  0 < m < 10 ^ 21 ->
  decimal_number negative m 0 = Fin (if negative then - m else m).
Proof.
  intros Hm. unfold decimal_number.
  replace (m =? 0) with false by (symmetry; apply Z.eqb_neq; lia).
  change (0 <=? 0) with true. cbv iota.
  assert (Hl : (String.length (decimal_digits m) <= 21)%nat).
  { apply (decimal_digits_length m 20). change (10 ^ Z.of_nat 21) with (10 ^ 21). lia. }
  replace (310 <? slen (decimal_digits m) + 0) with false
    by (symmetry; apply Z.ltb_ge; unfold slen; lia).
  change (10 ^ 0) with 1. rewrite Z.mul_1_r.
  replace (overflow_threshold <=? m) with false; [reflexivity|].
  symmetry. apply Z.leb_gt.
  pose proof ten_21_below_overflow as H. apply Z.leb_gt in H. lia.
Qed.

(** An integer of magnitude below [10^21] is printed in plain decimal
    and read back as the same integer. *)
Lemma parse_number_integer z rest :
  - 10 ^ 21 < z < 10 ^ 21 ->
  stops_number rest = true ->
  parse_number (NumberToString (Fin z) ++ rest) = Parsed (Fin z) rest.
Proof.
  intros Hz Hstop.
  assert (Hplain : forall m, 0 < m < 10 ^ 21 ->
            positive_to_string (Fin m) = decimal_digits m).
  { intros m Hm. unfold positive_to_string.
    assert (Hl : (String.length (decimal_digits m) <= 21)%nat).
    { apply (decimal_digits_length m 20). change (10 ^ Z.of_nat 21) with (10 ^ 21). lia. }
    replace (slen (decimal_digits m) <=? 21) with true; [reflexivity|].
    symmetry. apply Z.leb_le. unfold slen. lia. }
  assert (Hgen : forall negative m, 0 < m < 10 ^ 21 ->
            parse_unsigned negative (decimal_digits m ++ rest)
            = Parsed (Fin (if negative then - m else m)) rest).
  { intros negative m Hm.
    destruct (decimal_digits_spec m) as (H1 & H2 & c & r & H3 & H4); [lia|].
    rewrite (parse_unsigned_digits negative (decimal_digits m) rest c r H3 H1);
      [|intros Hc; exfalso; apply H4; [lia|exact Hc] | exact Hstop].
    rewrite H2. apply f_equal2; [|reflexivity]. apply decimal_number_small. exact Hm. }
  unfold NumberToString.
  destruct (z =? 0) eqn:E0.
  - apply Z.eqb_eq in E0. subst z.
    rewrite (parse_number_unsigned "0" rest "0"%char "") by reflexivity.
    rewrite (parse_unsigned_digits false "0" rest "0"%char "") by (auto; reflexivity).
    reflexivity.
  - apply Z.eqb_neq in E0.
    destruct (z <? 0) eqn:En.
    + apply Z.ltb_lt in En.
      rewrite Hplain by lia.
      change (("-" ++ decimal_digits (- z)) ++ rest)
        with (String "-" (decimal_digits (- z) ++ rest)).
      change (parse_number (String "-" (decimal_digits (- z) ++ rest)))
        with (parse_unsigned true (decimal_digits (- z) ++ rest)).
      rewrite Hgen by lia. f_equal. f_equal. lia.
    + apply Z.ltb_ge in En.
      rewrite Hplain by lia.
      destruct (decimal_digits_spec z) as (H1 & _ & c & r & H3 & _); [lia|].
      rewrite (parse_number_unsigned (decimal_digits z) rest c r H3).
      * rewrite Hgen by lia. reflexivity.
      * rewrite H3 in H1. cbn [all_digits] in H1. apply andb_prop in H1. tauto.
Qed.

(** ** Literals inside a text *)

Lemma prefix_app lit rest : String.prefix lit (lit ++ rest) = true.
Proof.
  induction lit as [|c lit IH]; cbn [append String.prefix].
  - destruct rest; reflexivity.
  - destruct (ascii_dec c c) as [_|N]; [exact IH|exfalso; apply N; reflexivity].
Qed.

Lemma drop_app lit rest :
  substring (String.length lit) (String.length (lit ++ rest) - String.length lit)
    (lit ++ rest) = rest.
Proof.
  induction lit as [|c lit IH]; cbn [append String.length substring].
  - rewrite Nat.sub_0_r. apply substring_all.
  - exact IH.
Qed.

Lemma expect_literal_app lit v rest :
  expect_literal lit v (lit ++ rest) = Parsed v rest.
Proof.
  unfold expect_literal. rewrite prefix_app, drop_app. reflexivity.
Qed.

(** ** The fuel of the parser *)

Lemma skip_ws_length s : (String.length (skip_ws s) <= String.length s)%nat.
Proof.
  induction s as [|c s IH]; [apply Nat.le_refl|].
  cbn [skip_ws]. destruct (is_json_ws c); cbn [String.length]; lia.
Qed.

Lemma span_digits_length s d rest :
  span_digits s = (d, rest) ->
  (String.length s = String.length d + String.length rest)%nat.
Proof.
  revert d rest. induction s as [|c s IH]; intros d rest H; cbn [span_digits] in H.
  - injection H as <- <-. reflexivity.
  - destruct (is_digit c).
    + destruct (span_digits s) as [d0 r0]. injection H as <- <-.
      cbn [String.length]. rewrite (IH d0 r0 eq_refl). reflexivity.
    + injection H as <- <-. reflexivity.
Qed.

Lemma string_tokens_length n : forall s ts rest,
  (String.length s <= n)%nat ->
  string_tokens s = Some (ts, rest) ->
  (String.length rest < String.length s)%nat.
Proof.
  induction n as [|n IH]; intros s ts rest Hn H.
  - destruct s; [discriminate|cbn in Hn; lia].
  - destruct s as [|c r]; [discriminate|].
    cbn [string_tokens] in H. cbn [String.length] in *.
    destruct (Nat.eqb (nat_of_ascii c) 34).
    { injection H as _ <-. lia. }
    destruct (Nat.eqb (nat_of_ascii c) 92).
    { destruct r as [|e r1]; [discriminate|].
      destruct (Nat.eqb (nat_of_ascii e) 117).
      - destruct r1 as [|h1 [|h2 [|h3 [|h4 r2]]]]; try discriminate.
        destruct (hex4 h1 h2 h3 h4); [|discriminate].
        destruct (string_tokens r2) as [[ts0 rest0]|] eqn:E; [|discriminate].
        injection H as _ <-.
        apply IH in E; cbn [String.length] in *; lia.
      - destruct (simple_escape e); [|discriminate].
        destruct (string_tokens r1) as [[ts0 rest0]|] eqn:E; [|discriminate].
        injection H as _ <-.
        apply IH in E; cbn [String.length] in *; lia. }
    destruct (Nat.ltb (nat_of_ascii c) 32); [discriminate|].
    destruct (string_tokens r) as [[ts0 rest0]|] eqn:E; [|discriminate].
    injection H as _ <-.
    apply IH in E; lia.
Qed.

Lemma parse_string_length s k rest :
  parse_string s = Parsed k rest ->
  (String.length rest < String.length s)%nat.
Proof.
  unfold parse_string.
  destruct (string_tokens s) as [[ts r]|] eqn:E; [|discriminate].
  intros H. injection H as _ <-.
  apply (string_tokens_length (String.length s) s ts r (Nat.le_refl _) E).
Qed.

Lemma parse_string_fuel s : parse_string s <> OutOfFuel.
Proof.
  unfold parse_string. destruct (string_tokens s) as [[ts r]|]; discriminate.
Qed.

Lemma parse_unsigned_length negative s x rest :
  parse_unsigned negative s = Parsed x rest ->
  (String.length rest < String.length s)%nat.
Proof.
  unfold parse_unsigned.
  destruct (span_digits s) as [int r1] eqn:E1.
  apply span_digits_length in E1.
  destruct int as [|d0 ds]; [discriminate|].
  destruct (Ascii.eqb d0 "0" && negb (String.eqb ds "")); [discriminate|].
  cbn [String.length] in E1.
  assert (Hfrac : forall frac r3,
            match r1 with
            | String "." r2 =>
                match span_digits r2 with
                | (EmptyString, _) => None
                | (f, r3) => Some (f, r3)
                end
            | _ => Some (EmptyString, r1)
            end = Some (frac, r3) ->
            (String.length r3 <= String.length r1)%nat).
  { intros frac r3 H.
    destruct r1 as [|c r2]; [injection H as _ <-; lia|].
    destruct (Ascii.eqb c ".") eqn:Ec.
    - apply Ascii.eqb_eq in Ec. subst c.
      destruct (span_digits r2) as [f r] eqn:E2.
      apply span_digits_length in E2.
      destruct f; [discriminate|]. injection H as _ <-.
      cbn [String.length] in *. lia.
    - assert (Hd : match String c r2 with
                   | String "." r0 =>
                       match span_digits r0 with
                       | (EmptyString, _) => None
                       | (f, r3) => Some (f, r3)
                       end
                   | _ => Some (EmptyString, String c r2)
                   end = Some (EmptyString, String c r2)).
      { destruct c as [[] [] [] [] [] [] [] []]; try reflexivity; discriminate. }
      rewrite Hd in H. injection H as _ <-. lia. }
  cbv zeta.
  match goal with
  | |- match ?fp with _ => _ end = _ -> _ =>
      destruct fp as [[frac r3]|] eqn:Ef; [|discriminate]
  end.
  specialize (Hfrac frac r3 eq_refl).
  assert (Hexp : forall e r5,
            match r3 with
            | String c r4 =>
                if Ascii.eqb c "e" || Ascii.eqb c "E" then
                  match span_exponent r4 with
                  | Some (eneg, ed, r5) =>
                      Some ((if eneg : bool then (- digits_value ed)%Z
                             else digits_value ed), r5)
                  | None => None
                  end
                else Some (0%Z, r3)
            | EmptyString => Some (0%Z, r3)
            end = Some (e, r5) ->
            (String.length r5 <= String.length r3)%nat).
  { intros e r5 H.
    destruct r3 as [|c r4]; [injection H as _ <-; lia|].
    destruct (Ascii.eqb c "e" || Ascii.eqb c "E"); [|injection H as _ <-; lia].
    unfold span_exponent in H.
    assert (Hb : forall ng body,
              match r4 with
              | String "-" r => (true, r)
              | String "+" r => (false, r)
              | _ => (false, r4)
              end = (ng, body) -> (String.length body <= String.length r4)%nat).
    { intros ng body Hm. destruct r4 as [|y r]; [injection Hm as _ <-; lia|].
      destruct y as [[] [] [] [] [] [] [] []]; injection Hm as _ <-;
        cbn [String.length]; lia. }
    destruct (match r4 with
              | String "-" r => (true, r)
              | String "+" r => (false, r)
              | _ => (false, r4)
              end) as [ng body] eqn:Em.
    specialize (Hb ng body eq_refl).
    destruct (span_digits body) as [ed r] eqn:E3.
    apply span_digits_length in E3.
    destruct ed; [discriminate|]. injection H as _ <-.
    cbn [String.length] in *. lia. }
  match goal with
  | |- match ?ep with _ => _ end = _ -> _ =>
      destruct ep as [[e r5]|] eqn:Ee; [|discriminate]
  end.
  specialize (Hexp e r5 eq_refl).
  intros H. injection H as _ <-. lia.
Qed.

Lemma parse_unsigned_fuel negative s : parse_unsigned negative s <> OutOfFuel.
Proof.
  unfold parse_unsigned.
  destruct (span_digits s) as [[|d0 ds] r1]; [discriminate|].
  destruct (Ascii.eqb d0 "0" && negb (String.eqb ds "")); [discriminate|].
  cbv zeta.
  match goal with
  | |- match ?fp with _ => _ end <> _ => destruct fp as [[frac r3]|]; [|discriminate]
  end.
  match goal with
  | |- match ?ep with _ => _ end <> _ => destruct ep as [[e r5]|]; discriminate
  end.
Qed.

Lemma parse_number_length s x rest :
  parse_number s = Parsed x rest ->
  (String.length rest < String.length s)%nat.
Proof.
  unfold parse_number. destruct s as [|c r].
  - apply parse_unsigned_length.
  - destruct (Ascii.eqb c "-") eqn:Ec.
    + apply Ascii.eqb_eq in Ec. subst c. intros H.
      apply parse_unsigned_length in H. cbn [String.length]. lia.
    + assert (Hd : match String c r with
                   | String "-" r0 => parse_unsigned true r0
                   | _ => parse_unsigned false (String c r)
                   end = parse_unsigned false (String c r)).
      { destruct c as [[] [] [] [] [] [] [] []]; try reflexivity; discriminate. }
      rewrite Hd. apply parse_unsigned_length.
Qed.

Lemma parse_number_fuel s : parse_number s <> OutOfFuel.
Proof.
  unfold parse_number. destruct s as [|c r]; [apply parse_unsigned_fuel|].
  destruct c as [[] [] [] [] [] [] [] []]; apply parse_unsigned_fuel.
Qed.

Lemma starts_with_length c s r :
  starts_with c s = Some r -> (String.length s = S (String.length r))%nat.
Proof.
  destruct s as [|x t]; [discriminate|]. cbn [starts_with].
  destruct (Ascii.eqb x c); [|discriminate].
  intros H. injection H as <-. reflexivity.
Qed.

Lemma expect_literal_length lit v s w rest :
  lit <> "" ->
  expect_literal lit v s = Parsed w rest ->
  (String.length rest < String.length s)%nat.
Proof.
  unfold expect_literal. intros Hl.
  destruct (String.prefix lit s) eqn:Hp; [|discriminate].
  intros H. injection H as _ <-.
  assert (Hlen : forall a b, String.prefix a b = true ->
                 (String.length a <= String.length b)%nat).
  { induction a as [|x a IH]; intros b Hb; [cbn; lia|].
    destruct b as [|y b]; [discriminate|]. cbn [String.prefix] in Hb.
    destruct (ascii_dec x y); [|discriminate].
    apply IH in Hb. cbn [String.length]. lia. }
  assert (Hsub : forall n m t, (String.length (substring n m t) <= m)%nat).
  { induction n as [|n IHn]; intros m t.
    - revert t. induction m as [|m IHm]; intros t; destruct t; cbn; try lia.
      specialize (IHm t). lia.
    - destruct t; cbn [substring]; [destruct m; cbn; lia|apply IHn]. }
  specialize (Hlen _ _ Hp). specialize (Hsub (String.length lit) (String.length s - String.length lit)%nat s).
  destruct lit; [congruence|]. cbn [String.length] in *. lia.
Qed.

Lemma expect_literal_fuel lit v s : expect_literal lit v s <> OutOfFuel.
Proof. unfold expect_literal. destruct (String.prefix lit s); discriminate. Qed.

(** Whatever the parser reads is a proper piece of its input. *)
Lemma parse_lengths f :
  (forall s v rest, parse_value f s = Parsed v rest ->
                    (String.length rest < String.length s)%nat) /\
  (forall s acc v rest, parse_members f s acc = Parsed v rest ->
                        (String.length rest < String.length s)%nat) /\
  (forall s acc v rest, parse_elements f s acc = Parsed v rest ->
                        (String.length rest < String.length s)%nat).
Proof.
  induction f as [|f (IHv & IHm & IHe)]; [repeat split; intros; discriminate|].
  split; [|split].
  - intros s v rest H. cbn [parse_value] in H.
    pose proof (skip_ws_length s) as Hs.
    destruct (skip_ws s) as [|c r]; [discriminate|]. cbn [String.length] in Hs.
    cbv zeta in H.
    destruct (Nat.eqb (nat_of_ascii c) 123).
    { pose proof (skip_ws_length r) as Hr.
      destruct (starts_with "}" (skip_ws r)) as [r'|] eqn:E.
      - apply starts_with_length in E. injection H as _ <-. lia.
      - apply IHm in H. lia. }
    destruct (Nat.eqb (nat_of_ascii c) 91).
    { pose proof (skip_ws_length r) as Hr.
      destruct (starts_with "]" (skip_ws r)) as [r'|] eqn:E.
      - apply starts_with_length in E. injection H as _ <-. lia.
      - apply IHe in H. lia. }
    destruct (Nat.eqb (nat_of_ascii c) 34).
    { destruct (parse_string r) as [str rest0| |] eqn:E; try discriminate.
      apply parse_string_length in E. injection H as _ <-. lia. }
    destruct (Nat.eqb (nat_of_ascii c) 45 || is_digit c).
    { destruct (parse_number (String c r)) as [x rest0| |] eqn:E; try discriminate.
      apply parse_number_length in E. injection H as _ <-.
      cbn [String.length] in E. lia. }
    destruct (Nat.eqb (nat_of_ascii c) 116).
    { apply expect_literal_length in H; [cbn [String.length] in H; lia|discriminate]. }
    destruct (Nat.eqb (nat_of_ascii c) 102).
    { apply expect_literal_length in H; [cbn [String.length] in H; lia|discriminate]. }
    destruct (Nat.eqb (nat_of_ascii c) 110).
    { apply expect_literal_length in H; [cbn [String.length] in H; lia|discriminate]. }
    discriminate.
  - intros s acc v rest H. cbn [parse_members] in H.
    pose proof (skip_ws_length s) as Hs.
    destruct (starts_with (ascii_of_nat 34) (skip_ws s)) as [r|] eqn:E0; [|discriminate].
    apply starts_with_length in E0.
    destruct (parse_string r) as [k r1| |] eqn:E1; try discriminate.
    apply parse_string_length in E1.
    pose proof (skip_ws_length r1) as Hr1.
    destruct (starts_with ":" (skip_ws r1)) as [r2|] eqn:E2; [|discriminate].
    apply starts_with_length in E2.
    destruct (parse_value f r2) as [v0 r3| |] eqn:E3; try discriminate.
    apply IHv in E3. cbv zeta in H.
    pose proof (skip_ws_length r3) as Hr3.
    destruct (starts_with "," (skip_ws r3)) as [r4|] eqn:E4.
    + apply starts_with_length in E4. apply IHm in H. lia.
    + destruct (starts_with "}" (skip_ws r3)) as [r4|] eqn:E5; [|discriminate].
      apply starts_with_length in E5. injection H as _ <-. lia.
  - intros s acc v rest H. cbn [parse_elements] in H.
    destruct (parse_value f s) as [v0 r1| |] eqn:E1; try discriminate.
    apply IHv in E1. cbv zeta in H.
    pose proof (skip_ws_length r1) as Hr1.
    destruct (starts_with "," (skip_ws r1)) as [r2|] eqn:E2.
    + apply starts_with_length in E2. apply IHe in H. lia.
    + destruct (starts_with "]" (skip_ws r1)) as [r2|] eqn:E3; [|discriminate].
      apply starts_with_length in E3. injection H as _ <-. lia.
Qed.

(** Fuel in proportion to the length of the text never runs out. *)
Lemma parse_fuel f :
  (forall s, (2 * String.length s < f)%nat -> parse_value f s <> OutOfFuel) /\
  (forall s acc, (2 * String.length s < f)%nat ->
                 parse_members f s acc <> OutOfFuel) /\
  (forall s acc, (2 * String.length s + 1 < f)%nat ->
                 parse_elements f s acc <> OutOfFuel).
Proof.
  induction f as [|f (IHv & IHm & IHe)]; [repeat split; intros; lia|].
  split; [|split].
  - intros s Hf. cbn [parse_value].
    pose proof (skip_ws_length s) as Hs.
    destruct (skip_ws s) as [|c r]; [discriminate|]. cbn [String.length] in Hs.
    cbv zeta.
    destruct (Nat.eqb (nat_of_ascii c) 123).
    { destruct (starts_with "}" (skip_ws r)); [discriminate|]. apply IHm. lia. }
    destruct (Nat.eqb (nat_of_ascii c) 91).
    { destruct (starts_with "]" (skip_ws r)); [discriminate|]. apply IHe. lia. }
    destruct (Nat.eqb (nat_of_ascii c) 34).
    { pose proof (parse_string_fuel r).
      destruct (parse_string r); congruence. }
    destruct (Nat.eqb (nat_of_ascii c) 45 || is_digit c).
    { pose proof (parse_number_fuel (String c r)).
      destruct (parse_number (String c r)); congruence. }
    destruct (Nat.eqb (nat_of_ascii c) 116); [apply expect_literal_fuel|].
    destruct (Nat.eqb (nat_of_ascii c) 102); [apply expect_literal_fuel|].
    destruct (Nat.eqb (nat_of_ascii c) 110); [apply expect_literal_fuel|].
    discriminate.
  - intros s acc Hf. cbn [parse_members].
    pose proof (skip_ws_length s) as Hs.
    destruct (starts_with (ascii_of_nat 34) (skip_ws s)) as [r|] eqn:E0; [|discriminate].
    apply starts_with_length in E0.
    pose proof (parse_string_fuel r) as Hps.
    destruct (parse_string r) as [k r1| |] eqn:E1; [|discriminate|congruence].
    apply parse_string_length in E1.
    pose proof (skip_ws_length r1) as Hr1.
    destruct (starts_with ":" (skip_ws r1)) as [r2|] eqn:E2; [|discriminate].
    apply starts_with_length in E2.
    assert (Hv : parse_value f r2 <> OutOfFuel) by (apply IHv; lia).
    destruct (parse_value f r2) as [v0 r3| |] eqn:E3; [|discriminate|congruence].
    apply (proj1 (parse_lengths f)) in E3. cbv zeta.
    pose proof (skip_ws_length r3) as Hr3.
    destruct (starts_with "," (skip_ws r3)) as [r4|] eqn:E4.
    + apply starts_with_length in E4. apply IHm. lia.
    + destruct (starts_with "}" (skip_ws r3)); discriminate.
  - intros s acc Hf. cbn [parse_elements].
    assert (Hv : parse_value f s <> OutOfFuel) by (apply IHv; lia).
    destruct (parse_value f s) as [v0 r1| |] eqn:E1; [|discriminate|congruence].
    apply (proj1 (parse_lengths f)) in E1. cbv zeta.
    pose proof (skip_ws_length r1) as Hr1.
    destruct (starts_with "," (skip_ws r1)) as [r2|] eqn:E2.
    + apply starts_with_length in E2. apply IHe. lia.
    + destruct (starts_with "]" (skip_ws r1)); discriminate.
Qed.

(** [JSON_parse] answers [None] only for a text the grammar rejects:
    its fuel is never the reason. *)
Lemma JSON_parse_fuel text :
  parse_value (2 * String.length text + 2) text <> OutOfFuel.
Proof. apply (proj1 (parse_fuel _)). lia. Qed.

Lemma JSON_parse_rejects text :
  JSON_parse text = None ->
  parse_value (2 * String.length text + 2) text = SyntaxError \/
  exists v rest, parse_value (2 * String.length text + 2) text = Parsed v rest /\
                 skip_ws rest <> "".
Proof.
  unfold JSON_parse. pose proof (JSON_parse_fuel text) as Hf.
  destruct (parse_value (2 * String.length text + 2) text) as [v rest| |];
    [|left; reflexivity|congruence].
  intros H. right. exists v, rest. split; [reflexivity|].
  destruct (skip_ws rest); discriminate.
Qed.

Lemma all_digits_zeros n : all_digits (repeat_char "0" n) = true.
Proof. induction n as [|n IH]; [reflexivity|]. cbn. exact IH. Qed.

(** ** More fuel changes nothing *)

(** More fuel never changes what the parser answers. *)
Lemma parse_more_fuel f :
  (forall s, parse_value f s <> OutOfFuel ->
             parse_value (S f) s = parse_value f s) /\
  (forall s acc, parse_members f s acc <> OutOfFuel ->
                 parse_members (S f) s acc = parse_members f s acc) /\
  (forall s acc, parse_elements f s acc <> OutOfFuel ->
                 parse_elements (S f) s acc = parse_elements f s acc).
Proof.
  induction f as [|f (IHv & IHm & IHe)];
    [repeat split; intros; exfalso; apply H; reflexivity|].
  split; [|split].
  - intros s H.
    change (parse_value (S (S f)) s) with
      (match skip_ws s with
       | EmptyString => SyntaxError
       | String c r =>
           let n := nat_of_ascii c in
           if Nat.eqb n 123 then
             match starts_with "}" (skip_ws r) with
             | Some r' => Parsed (JObj []) r'
             | None => parse_members (S f) r []
             end
           else if Nat.eqb n 91 then
             match starts_with "]" (skip_ws r) with
             | Some r' => Parsed (JArr []) r'
             | None => parse_elements (S f) r []
             end
           else if Nat.eqb n 34 then
             match parse_string r with
             | Parsed str rest => Parsed (JStr str) rest
             | SyntaxError => SyntaxError
             | OutOfFuel => OutOfFuel
             end
           else if Nat.eqb n 45 || is_digit c then
             match parse_number (String c r) with
             | Parsed x rest => Parsed (JNum x) rest
             | SyntaxError => SyntaxError
             | OutOfFuel => OutOfFuel
             end
           else if Nat.eqb n 116 then expect_literal "true" (JPrim (PBool true)) (String c r)
           else if Nat.eqb n 102 then expect_literal "false" (JPrim (PBool false)) (String c r)
           else if Nat.eqb n 110 then expect_literal "null" JNull (String c r)
           else SyntaxError
       end).
    cbn [parse_value] in H |- *.
    destruct (skip_ws s) as [|c r]; [reflexivity|]. cbv zeta in H |- *.
    destruct (Nat.eqb (nat_of_ascii c) 123).
    { destruct (starts_with "}" (skip_ws r)); [reflexivity|]. apply IHm. exact H. }
    destruct (Nat.eqb (nat_of_ascii c) 91).
    { destruct (starts_with "]" (skip_ws r)); [reflexivity|]. apply IHe. exact H. }
    reflexivity.
  - intros s acc H.
    change (parse_members (S (S f)) s acc) with
      (match starts_with (ascii_of_nat 34) (skip_ws s) with
       | Some r =>
           match parse_string r with
           | Parsed k r1 =>
               match starts_with ":" (skip_ws r1) with
               | Some r2 =>
                   match parse_value (S f) r2 with
                   | Parsed v r3 =>
                       let acc' := set_prop k v acc in
                       match starts_with "," (skip_ws r3) with
                       | Some r4 => parse_members (S f) r4 acc'
                       | None =>
                           match starts_with "}" (skip_ws r3) with
                           | Some r4 => Parsed (JObj acc') r4
                           | None => SyntaxError
                           end
                       end
                   | SyntaxError => SyntaxError
                   | OutOfFuel => OutOfFuel
                   end
               | None => SyntaxError
               end
           | SyntaxError => SyntaxError
           | OutOfFuel => OutOfFuel
           end
       | None => SyntaxError
       end).
    cbn [parse_members] in H |- *.
    destruct (starts_with (ascii_of_nat 34) (skip_ws s)) as [r|]; [|reflexivity].
    destruct (parse_string r) as [k r1| |]; try reflexivity.
    destruct (starts_with ":" (skip_ws r1)) as [r2|]; [|reflexivity].
    assert (Hv : parse_value f r2 <> OutOfFuel).
    { intros E. rewrite E in H. apply H. reflexivity. }
    rewrite (IHv r2 Hv).
    destruct (parse_value f r2) as [v r3| |]; try reflexivity.
    cbv zeta in H |- *.
    destruct (starts_with "," (skip_ws r3)) as [r4|]; [|reflexivity].
    apply IHm. exact H.
  - intros s acc H.
    change (parse_elements (S (S f)) s acc) with
      (match parse_value (S f) s with
       | Parsed v r1 =>
           let acc' := (acc ++ [v])%list in
           match starts_with "," (skip_ws r1) with
           | Some r2 => parse_elements (S f) r2 acc'
           | None =>
               match starts_with "]" (skip_ws r1) with
               | Some r2 => Parsed (JArr acc') r2
               | None => SyntaxError
               end
           end
       | SyntaxError => SyntaxError
       | OutOfFuel => OutOfFuel
       end).
    cbn [parse_elements] in H |- *.
    assert (Hv : parse_value f s <> OutOfFuel).
    { intros E. rewrite E in H. apply H. reflexivity. }
    rewrite (IHv s Hv).
    destruct (parse_value f s) as [v r1| |]; try reflexivity.
    cbv zeta in H |- *.
    destruct (starts_with "," (skip_ws r1)) as [r2|]; [|reflexivity].
    apply IHe. exact H.
Qed.

Lemma parse_value_more_fuel f g s :
  (f <= g)%nat -> parse_value f s <> OutOfFuel ->
  parse_value g s = parse_value f s.
Proof.
  intros Hle H. induction Hle as [|g Hle IH]; [reflexivity|].
  rewrite <- IH. apply (proj1 (parse_more_fuel g)). rewrite IH. exact H.
Qed.

(** What some amount of fuel reads in full is what [JSON.parse] reads. *)
Lemma JSON_parse_with_fuel f text v :
  parse_value f text = Parsed v "" -> JSON_parse text = Some v.
Proof.
  intros H. unfold JSON_parse.
  pose proof (JSON_parse_fuel text) as HF.
  set (F := (2 * String.length text + 2)%nat) in *.
  assert (E : parse_value F text = Parsed v "").
  { destruct (Nat.le_ge_cases f F) as [L|L].
    - rewrite (parse_value_more_fuel f F text L); [exact H|].
      rewrite H. discriminate.
    - rewrite <- (parse_value_more_fuel F f text L HF). exact H. }
  rewrite E. reflexivity.
Qed.

(** ** Number literals *)

Lemma not_digit_head rest :
  stops_number rest = true ->
  match rest with String c _ => is_digit c = false | EmptyString => True end.
Proof.
  destruct rest as [|x rest']; [exact (fun _ => I)|]. cbn.
  destruct (is_digit x); [discriminate|reflexivity].
Qed.

Lemma no_fraction_ahead rest :
  stops_number rest = true ->
  match rest with
  | String "." r2 =>
      match span_digits r2 with
      | (EmptyString, _) => None
      | (f, r3) => Some (f, r3)
      end
  | _ => Some (EmptyString, rest)
  end = Some (EmptyString, rest).
Proof.
  destruct rest as [|x rest']; [reflexivity|]. cbn [stops_number].
  intros H. destruct (Ascii.eqb x ".") eqn:E.
  - rewrite andb_false_r in H. discriminate H.
  - destruct x as [[] [] [] [] [] [] [] []]; try reflexivity; discriminate.
Qed.

Lemma no_exponent_ahead rest :
  stops_number rest = true ->
  match rest with
  | String c r4 =>
      if Ascii.eqb c "e" || Ascii.eqb c "E" then
        match span_exponent r4 with
        | Some (eneg, ed, r5) =>
            Some ((if eneg : bool then - digits_value ed else digits_value ed), r5)
        | None => None
        end
      else Some (0, rest)
  | EmptyString => Some (0, rest)
  end = Some (0, rest).
Proof.
  destruct rest as [|x rest']; [reflexivity|]. cbn [stops_number].
  intros H. apply andb_prop in H. destruct H as [H H4].
  apply andb_prop in H. destruct H as [_ H3].
  apply negb_true_iff in H3. apply negb_true_iff in H4.
  rewrite H3, H4. reflexivity.
Qed.

Lemma exponent_ahead negative d rest :
  all_digits d = true -> d <> "" ->
  stops_number rest = true ->
  span_exponent ((if negative : bool then "-" else "+") ++ d ++ rest)
  = Some (negative, d, rest).
Proof.
  intros Hd Hne Hstop. unfold span_exponent.
  assert (Hspan : span_digits (d ++ rest) = (d, rest))
    by (apply span_digits_app; [exact Hd|apply not_digit_head; exact Hstop]).
  destruct negative; cbn [append]; rewrite Hspan;
    destruct d; [congruence|reflexivity|congruence|reflexivity].
Qed.

Lemma parse_unsigned_literal negative i f e rest :
  literal_ok i f e = true ->
  stops_number rest = true ->
  parse_unsigned negative (literal_text i f e ++ rest)
  = Parsed (literal_value negative i f e) rest.
Proof.
  unfold literal_ok. intros Hok Hstop.
  apply andb_prop in Hok. destruct Hok as [Hok He].
  apply andb_prop in Hok. destruct Hok as [Hok Hlead].
  apply andb_prop in Hok. destruct Hok as [Hi Hf].
  destruct i as [|c r]; [discriminate|].
  set (ep := match e with
             | Some (neg, d) => "e" ++ (if neg : bool then "-" else "+") ++ d
             | None => ""
             end).
  assert (Hexp : match ep ++ rest with
                 | String c0 r4 =>
                     if Ascii.eqb c0 "e" || Ascii.eqb c0 "E" then
                       match span_exponent r4 with
                       | Some (eneg, ed, r5) =>
                           Some ((if eneg : bool then - digits_value ed
                                  else digits_value ed), r5)
                       | None => None
                       end
                     else Some (0, ep ++ rest)
                 | EmptyString => Some (0, ep ++ rest)
                 end
                 = Some (match e with
                         | Some (true, d) => - digits_value d
                         | Some (false, d) => digits_value d
                         | None => 0
                         end, rest)).
  { unfold ep. destruct e as [[neg d]|].
    - apply andb_prop in He. destruct He as [Hd Hne].
      assert (Hd' : d <> "").
      { intros ->. discriminate Hne. }
      rewrite !app_assoc_s. cbn [append]. cbn [Ascii.eqb Bool.eqb orb].
      rewrite (exponent_ahead neg d rest Hd Hd' Hstop).
      destruct neg; reflexivity.
    - cbn [append]. apply no_exponent_ahead. exact Hstop. }
  assert (Hnd : match ep ++ rest with
                | String x _ => is_digit x = false
                | EmptyString => True
                end).
  { unfold ep. destruct e as [[neg d]|].
    - reflexivity.
    - cbn [append]. apply not_digit_head. exact Hstop. }
  assert (Hlead' : Ascii.eqb c "0" && negb (String.eqb r "") = false).
  { destruct (Ascii.eqb c "0"); [|reflexivity].
    cbn in Hlead. rewrite Hlead. reflexivity. }
  unfold literal_text, literal_value, parse_unsigned. fold ep.
  rewrite !app_assoc_s.
  destruct f as [|fc fr].
  - cbn [append] in *.
    change (String c (r ++ ep ++ rest)) with (String c r ++ (ep ++ rest)).
    rewrite (span_digits_app (String c r) (ep ++ rest) Hi Hnd).
    rewrite Hlead'. cbv zeta.
    assert (Hdot : match ep ++ rest with
                   | String "." r2 =>
                       match span_digits r2 with
                       | (EmptyString, _) => None
                       | (f, r3) => Some (f, r3)
                       end
                   | _ => Some (EmptyString, ep ++ rest)
                   end = Some (EmptyString, ep ++ rest)).
    { unfold ep. destruct e as [[neg d]|]; [reflexivity|].
      cbn [append]. apply no_fraction_ahead. exact Hstop. }
    rewrite Hdot. cbv beta iota. rewrite Hexp. cbv beta iota.
    cbn [append]. rewrite ?app_nil_r_s. reflexivity.
  - change (String c r ++ "." ++ String fc fr ++ ep ++ rest)
      with (String c r ++ String "." (String fc fr ++ (ep ++ rest))).
    rewrite (span_digits_app (String c r) _ Hi) by reflexivity.
    rewrite Hlead'. cbv zeta.
    change (("." ++ String fc fr) ++ ep ++ rest)
      with (String "." (String fc fr ++ (ep ++ rest))).
    cbv beta iota.
    rewrite (span_digits_app (String fc fr) (ep ++ rest) Hf Hnd).
    cbv beta iota. rewrite Hexp. cbv beta iota. reflexivity.
Qed.

Lemma all_digits_substring s : forall n m,
  all_digits s = true -> all_digits (substring n m s) = true.
Proof.
  induction s as [|c s IH]; intros n m H.
  - destruct n, m; reflexivity.
  - cbn [all_digits] in H. apply andb_prop in H. destruct H as [Hc Hs].
    destruct n as [|n].
    + destruct m as [|m]; [reflexivity|].
      cbn [substring all_digits]. rewrite Hc. apply IH. exact Hs.
    + cbn [substring]. apply IH. exact Hs.
Qed.

Lemma length_substring s : forall n m,
  (n + m <= String.length s)%nat -> String.length (substring n m s) = m.
Proof.
  induction s as [|c s IH]; intros n m H; cbn [String.length] in H.
  - destruct n, m; try reflexivity; lia.
  - destruct n as [|n].
    + destruct m as [|m]; [reflexivity|].
      cbn [substring String.length]. rewrite IH by lia. reflexivity.
    + cbn [substring]. apply IH. lia.
Qed.

Lemma all_digits_of_list l :
  all_digits (string_of_list_ascii l) = forallb is_digit l.
Proof.
  induction l as [|c l IH]; [reflexivity|].
  cbn [string_of_list_ascii all_digits forallb]. rewrite IH. reflexivity.
Qed.

Lemma digits_of_string s :
  forallb is_digit (list_ascii_of_string s) = all_digits s.
Proof.
  induction s as [|c s IH]; [reflexivity|].
  cbn [list_ascii_of_string all_digits forallb]. rewrite IH. reflexivity.
Qed.

Lemma strip_zeros_rev_digits l :
  forallb is_digit l = true -> forallb is_digit (strip_zeros_rev l) = true.
Proof.
  induction l as [|c l IH]; [reflexivity|]. intros H.
  cbn [forallb] in H. apply andb_prop in H. destruct H as [Hc Hl].
  destruct (Ascii.eqb c "0") eqn:E.
  - apply Ascii.eqb_eq in E. subst c. cbn [strip_zeros_rev]. apply IH. exact Hl.
  - replace (strip_zeros_rev (c :: l)) with (c :: l).
    + cbn [forallb]. rewrite Hc, Hl. reflexivity.
    + destruct c as [[] [] [] [] [] [] [] []]; try reflexivity; discriminate.
Qed.

Lemma strip_zeros_rev_last l c :
  c <> "0"%char -> strip_zeros_rev (l ++ [c]) = (strip_zeros_rev l ++ [c])%list.
Proof.
  intros Hc. induction l as [|x l IH].
  - cbn [app]. destruct (Ascii.eqb c "0") eqn:E.
    + apply Ascii.eqb_eq in E. contradiction.
    + destruct c as [[] [] [] [] [] [] [] []]; try reflexivity; discriminate.
  - destruct (Ascii.eqb x "0") eqn:E.
    + apply Ascii.eqb_eq in E. subst x. cbn [app strip_zeros_rev]. exact IH.
    + destruct x as [[] [] [] [] [] [] [] []]; try reflexivity; discriminate.
Qed.

Lemma forallb_reversed {A} (f : A -> bool) l : forallb f (rev l) = forallb f l.
Proof.
  induction l as [|x l IH]; [reflexivity|].
  cbn [rev forallb]. rewrite forallb_app, IH. cbn [forallb].
  rewrite andb_true_r. apply andb_comm.
Qed.

(** Stripping the trailing zeros keeps the leading digit. *)
Lemma strip_trailing_zeros_head c r :
  c <> "0"%char -> all_digits (String c r) = true ->
  exists r', strip_trailing_zeros (String c r) = String c r' /\
             all_digits r' = true.
Proof.
  intros Hc Hd. unfold strip_trailing_zeros.
  cbn [list_ascii_of_string rev].
  rewrite (strip_zeros_rev_last _ c Hc), rev_app_distr. cbn [rev app].
  cbn [string_of_list_ascii]. eexists. split; [reflexivity|].
  cbn [all_digits] in Hd. apply andb_prop in Hd. destruct Hd as [_ Hr].
  rewrite all_digits_of_list, forallb_reversed.
  apply strip_zeros_rev_digits. rewrite forallb_reversed, digits_of_string. exact Hr.
Qed.

Lemma exponent_digits e :
  all_digits (decimal_digits (Z.abs e)) = true /\
  negb (String.eqb (decimal_digits (Z.abs e)) "") = true.
Proof.
  destruct (decimal_digits_spec (Z.abs e)) as (H1 & _ & c & r & H3 & _); [lia|].
  split; [exact H1|]. rewrite H3. reflexivity.
Qed.

(** The exponent notation of a digit string is a literal. *)
Lemma exponent_form_literal c r n :
  all_digits (String c r) = true ->
  exists i f e, literal_ok i f e = true /\
                exponent_form (String c r) n = literal_text i f e.
Proof.
  intros Hd. cbn [all_digits] in Hd. apply andb_prop in Hd.
  destruct Hd as [Hc Hr].
  destruct (exponent_digits (n - 1)) as [He1 He2].
  exists (String c ""), r, (Some (negb (0 <=? n - 1), decimal_digits (Z.abs (n - 1)))).
  split.
  - unfold literal_ok. cbn [all_digits]. rewrite Hc, Hr, He1, He2.
    cbn. rewrite orb_true_r. reflexivity.
  - unfold exponent_form, literal_text. cbv zeta.
    destruct (0 <=? n - 1); destruct r; reflexivity.
Qed.

Lemma positive_literal x :
  match x with
  | Fin z => 0 < z
  | Frac m _ => 0 <= m
  | _ => False
  end ->
  exists i f e, literal_ok i f e = true /\
                positive_to_string x = literal_text i f e.
Proof.
  destruct x as [| | |z|m k]; try contradiction; intros Hpos;
    unfold positive_to_string; cbv zeta.
  - destruct (decimal_digits_spec z) as (H1 & _ & c & r & H3 & H4); [lia|].
    assert (Hc : c <> "0"%char) by (apply H4; exact Hpos).
    destruct (slen (decimal_digits z) <=? 21).
    + exists (decimal_digits z), "", None. split.
      * unfold literal_ok. rewrite H1. rewrite H3. cbn [all_digits andb].
        destruct (Ascii.eqb c "0") eqn:E; [|reflexivity].
        apply Ascii.eqb_eq in E. contradiction.
      * unfold literal_text. rewrite !app_nil_r_s. reflexivity.
    + rewrite H3 in *.
      destruct (strip_trailing_zeros_head c r Hc H1) as (r' & Hs & Hr').
      rewrite Hs. apply exponent_form_literal.
      cbn [all_digits] in H1 |- *. apply andb_prop in H1.
      destruct H1 as [-> _]. exact Hr'.
  - pose proof (decimal_digits_spec m Hpos) as Hspec. cbv zeta in Hspec.
    destruct Hspec as (H1 & H2 & c & r & H3 & H4).
    set (ds := decimal_digits m) in *.
    set (n := slen ds - Z.pos k).
    destruct ((0 <? n) && (n <=? 21)) eqn:Hrange.
    + apply andb_prop in Hrange. destruct Hrange as [Hlo _].
      apply Z.ltb_lt in Hlo.
      assert (Hm : 0 < m).
      { destruct (Z.eq_dec m 0) as [E|E]; [|lia].
        exfalso. unfold n, ds, slen in Hlo. rewrite E in Hlo.
        change (decimal_digits 0) with "0" in Hlo.
        cbn [String.length] in Hlo. lia. }
      assert (Hc : c <> "0"%char) by (apply H4; exact Hm).
      assert (Hlen : (Z.to_nat n + Pos.to_nat k = String.length ds)%nat)
        by (unfold n, slen in *; lia).
      exists (substring 0 (Z.to_nat n) ds),
             (substring (Z.to_nat n) (String.length ds - Z.to_nat n) ds), None.
      split.
      * unfold literal_ok.
        rewrite !all_digits_substring by exact H1. cbn [andb].
        rewrite andb_true_r. rewrite H3.
        destruct (Z.to_nat n) as [|n'] eqn:En; [lia|].
        cbn [substring].
        destruct (Ascii.eqb c "0") eqn:E; [|reflexivity].
        apply Ascii.eqb_eq in E. contradiction.
      * unfold literal_text. rewrite !app_nil_r_s.
        assert (Hf : String.length
                       (substring (Z.to_nat n) (String.length ds - Z.to_nat n) ds)
                     = (String.length ds - Z.to_nat n)%nat)
          by (apply length_substring; lia).
        destruct (substring (Z.to_nat n) (String.length ds - Z.to_nat n) ds);
          [cbn [String.length] in Hf; pose proof (Pos2Nat.is_pos k); lia
          |reflexivity].
    + destruct ((-6 <? n) && (n <=? 0)).
      * exists "0", (repeat_char "0" (Z.to_nat (- n)) ++ ds), None. split.
        -- unfold literal_ok. rewrite all_digits_app, all_digits_zeros, H1.
           reflexivity.
        -- unfold literal_text. rewrite !app_nil_r_s.
           assert (Hne : repeat_char "0" (Z.to_nat (- n)) ++ ds <> "").
           { rewrite H3. destruct (repeat_char "0" (Z.to_nat (- n))); discriminate. }
           destruct (repeat_char "0" (Z.to_nat (- n)) ++ ds);
             [congruence|reflexivity].
      * rewrite H3 in *. apply exponent_form_literal. exact H1.
Qed.

(** What [Number::toString] prints for a finite number is a JSON
    number literal, with a minus sign before it when negative. *)
Lemma number_literal x :
  match x with Fin _ | Frac _ _ => True | _ => False end ->
  exists negative i f e,
    literal_ok i f e = true /\
    NumberToString x
    = (if negative : bool then "-" else "") ++ literal_text i f e.
Proof.
  destruct x as [| | |z|m k]; try contradiction; intros _; unfold NumberToString.
  - destruct (z =? 0) eqn:E0.
    + exists false, "0", "", None. split; reflexivity.
    + apply Z.eqb_neq in E0. destruct (z <? 0) eqn:En.
      * apply Z.ltb_lt in En.
        destruct (positive_literal (Fin (- z))) as (i & f & e & Hok & Ht);
          [cbn; lia|].
        exists true, i, f, e. split; [exact Hok|]. rewrite Ht. reflexivity.
      * apply Z.ltb_ge in En.
        destruct (positive_literal (Fin z)) as (i & f & e & Hok & Ht);
          [cbn; lia|].
        exists false, i, f, e. split; [exact Hok|]. rewrite Ht. reflexivity.
  - destruct (m <? 0) eqn:En.
    + apply Z.ltb_lt in En.
      destruct (positive_literal (Frac (- m) k)) as (i & f & e & Hok & Ht);
        [cbn; lia|].
      exists true, i, f, e. split; [exact Hok|]. rewrite Ht. reflexivity.
    + apply Z.ltb_ge in En.
      destruct (positive_literal (Frac m k)) as (i & f & e & Hok & Ht);
        [cbn; lia|].
      exists false, i, f, e. split; [exact Hok|]. rewrite Ht. reflexivity.
Qed.

Lemma literal_head i f e :
  literal_ok i f e = true ->
  exists c r, literal_text i f e = String c r /\ is_digit c = true.
Proof.
  unfold literal_ok. intros H.
  apply andb_prop in H. destruct H as [H _].
  apply andb_prop in H. destruct H as [H Hlead].
  apply andb_prop in H. destruct H as [Hi _].
  destruct i as [|c r]; [discriminate|].
  cbn [all_digits] in Hi. apply andb_prop in Hi.
  unfold literal_text. cbn [append]. eexists. eexists.
  split; [reflexivity|apply Hi].
Qed.

(** ** Numbers in normal form *)

Lemma overflow_below : overflow_threshold < 10 ^ 309.
Proof. vm_compute. reflexivity. Qed.

Lemma decimal_number_integer negative M E :
  0 < M -> 0 <= E -> M * 10 ^ E < overflow_threshold ->
  decimal_number negative M E
  = Fin (if negative then - (M * 10 ^ E) else M * 10 ^ E).
Proof.
  intros HM HE Hv. unfold decimal_number.
  replace (M =? 0) with false by (symmetry; apply Z.eqb_neq; lia).
  replace (0 <=? E) with true by (symmetry; apply Z.leb_le; lia).
  pose proof overflow_below as Hov.
  assert (Hp : 0 < 10 ^ E) by (apply Z.pow_pos_nonneg; lia).
  assert (HE' : E < 309).
  { destruct (Z_lt_le_dec E 309) as [L|L]; [exact L|exfalso].
    assert (10 ^ 309 <= 10 ^ E) by (apply Z.pow_le_mono_r; lia).
    assert (10 ^ E <= M * 10 ^ E) by nia. lia. }
  assert (HM' : M < 10 ^ (309 - E)).
  { apply (Z.mul_lt_mono_pos_r (10 ^ E)); [exact Hp|].
    rewrite <- Z.pow_add_r by lia. replace (309 - E + E) with 309 by lia. lia. }
  assert (Hl : (String.length (decimal_digits M) <= S (Z.to_nat (308 - E)))%nat).
  { apply decimal_digits_length. split; [lia|].
    rewrite Nat2Z.inj_succ, Z2Nat.id by lia.
    replace (Z.succ (308 - E)) with (309 - E) by lia. exact HM'. }
  replace (310 <? slen (decimal_digits M) + E) with false
    by (symmetry; apply Z.ltb_ge; unfold slen; lia).
  replace (overflow_threshold <=? M * 10 ^ E) with false
    by (symmetry; apply Z.leb_gt; exact Hv).
  reflexivity.
Qed.

Lemma decimal_number_fraction negative m k :
  0 < m ->
  normal_number (Frac m k) = true ->
  decimal_number negative m (- Z.pos k) = Frac (if negative then - m else m) k.
Proof.
  intros Hm Hn. unfold normal_number in Hn.
  apply andb_prop in Hn. destruct Hn as [Hn H3].
  apply andb_prop in Hn. destruct Hn as [H1 H2].
  apply negb_true_iff in H1, H2, H3.
  rewrite Z.abs_eq in H2, H3 by lia.
  unfold decimal_number.
  replace (m =? 0) with false by (symmetry; apply Z.eqb_neq; lia).
  change (0 <=? - Z.pos k) with false. cbv iota.
  change (- - Z.pos k) with (Z.pos k).
  destruct (Z.to_nat (Z.pos k)) as [|j] eqn:Ej; [lia|].
  cbn [strip_tens]. rewrite H1, andb_false_r.
  rewrite H2, H3. reflexivity.
Qed.

Lemma digits_value_from_zeros j : forall acc,
  digits_value_from acc (repeat_char "0" j) = acc * 10 ^ Z.of_nat j.
Proof.
  induction j as [|j IH]; intros acc.
  - cbn. lia.
  - cbn [repeat_char digits_value_from]. rewrite IH.
    change (digit_value "0") with 0.
    rewrite Nat2Z.inj_succ, Z.pow_succ_r by lia. lia.
Qed.

Lemma digits_value_trailing_zeros s j :
  digits_value (s ++ repeat_char "0" j) = digits_value s * 10 ^ Z.of_nat j.
Proof.
  unfold digits_value. rewrite digits_value_from_app. apply digits_value_from_zeros.
Qed.

Lemma digits_value_leading_zeros j s :
  digits_value (repeat_char "0" j ++ s) = digits_value s.
Proof.
  unfold digits_value. rewrite digits_value_from_app, digits_value_from_zeros.
  reflexivity.
Qed.

Lemma strip_zeros_rev_split l :
  exists j, l = (repeat "0"%char j ++ strip_zeros_rev l)%list.
Proof.
  induction l as [|c l IH]; [exists O; reflexivity|].
  destruct (Ascii.eqb c "0") eqn:E.
  - apply Ascii.eqb_eq in E. subst c. destruct IH as [j Hj].
    exists (S j). cbn [strip_zeros_rev repeat app]. rewrite <- Hj. reflexivity.
  - exists O. cbn [repeat app].
    destruct c as [[] [] [] [] [] [] [] []]; try reflexivity; discriminate.
Qed.

Lemma string_of_list_app a b :
  string_of_list_ascii (a ++ b)
  = string_of_list_ascii a ++ string_of_list_ascii b.
Proof.
  induction a as [|c a IH]; [reflexivity|].
  cbn [app string_of_list_ascii append]. rewrite IH. reflexivity.
Qed.

Lemma string_of_repeat c j :
  string_of_list_ascii (repeat c j) = repeat_char c j.
Proof.
  induction j as [|j IH]; [reflexivity|].
  cbn [repeat string_of_list_ascii repeat_char]. rewrite IH. reflexivity.
Qed.

Lemma rev_repeat {A} (x : A) j : rev (repeat x j) = repeat x j.
Proof.
  induction j as [|j IH]; [reflexivity|].
  cbn [repeat rev]. rewrite IH. clear IH.
  induction j as [|j IH]; [reflexivity|].
  cbn [repeat app]. rewrite IH. reflexivity.
Qed.

(** What stripping removes is a run of zeros. *)
Lemma strip_trailing_zeros_split s :
  exists j, s = strip_trailing_zeros s ++ repeat_char "0" j.
Proof.
  unfold strip_trailing_zeros.
  destruct (strip_zeros_rev_split (rev (list_ascii_of_string s))) as [j Hj].
  exists j.
  rewrite <- string_of_repeat, <- string_of_list_app.
  rewrite <- (rev_repeat "0"%char j), <- rev_app_distr, <- Hj, rev_involutive.
  symmetry. apply string_of_list_ascii_of_string.
Qed.

Lemma substring_split s : forall n,
  (n <= String.length s)%nat ->
  substring 0 n s ++ substring n (String.length s - n) s = s.
Proof.
  induction s as [|c s IH]; intros n Hn.
  - destruct n; reflexivity.
  - destruct n as [|n].
    + cbn [substring append String.length]. rewrite Nat.sub_0_r.
      rewrite substring_all. reflexivity.
    + cbn [String.length] in Hn |- *. cbn [substring append Nat.sub].
      rewrite IH by lia. reflexivity.
Qed.

(** The exponent notation of a digit string, with what it denotes. *)
Lemma exponent_form_value c r n :
  all_digits (String c r) = true ->
  exists e, literal_ok (String c "") r e = true /\
            exponent_form (String c r) n = literal_text (String c "") r e /\
            literal_exponent e = n - 1.
Proof.
  intros Hd. cbn [all_digits] in Hd. apply andb_prop in Hd.
  destruct Hd as [Hc Hr].
  destruct (exponent_digits (n - 1)) as [He1 He2].
  destruct (decimal_digits_spec (Z.abs (n - 1))) as (_ & Hv & _); [lia|].
  exists (Some (negb (0 <=? n - 1), decimal_digits (Z.abs (n - 1)))).
  split; [|split].
  - unfold literal_ok. cbn [all_digits]. rewrite Hc, Hr, He1, He2.
    cbn. rewrite orb_true_r. reflexivity.
  - unfold exponent_form, literal_text. cbv zeta.
    destruct (0 <=? n - 1); destruct r; reflexivity.
  - unfold literal_exponent. destruct (0 <=? n - 1) eqn:E; cbn [negb]; rewrite Hv.
    + apply Z.leb_le in E. lia.
    + apply Z.leb_gt in E. lia.
Qed.

(** What [Number::toString] prints for a positive number is a literal
    that denotes it. *)
Lemma positive_literal_value x :
  match x with
  | Fin z => 0 < z
  | Frac m _ => 0 < m
  | _ => False
  end ->
  exists i f e,
    literal_ok i f e = true /\
    positive_to_string x = literal_text i f e /\
    match x with
    | Fin z => 0 <= literal_exponent e - slen f /\
               digits_value (i ++ f) * 10 ^ (literal_exponent e - slen f) = z
    | Frac m k => digits_value (i ++ f) = m /\
                  literal_exponent e - slen f = - Z.pos k
    | _ => False
    end.
Proof.
  destruct x as [| | |z|m k]; try contradiction; intros Hpos;
    unfold positive_to_string; cbv zeta.
  - destruct (decimal_digits_spec z) as (H1 & H2 & c & r & H3 & H4); [lia|].
    assert (Hc : c <> "0"%char) by (apply H4; exact Hpos).
    destruct (slen (decimal_digits z) <=? 21).
    + exists (decimal_digits z), "", None. split; [|split].
      * unfold literal_ok. rewrite H1. rewrite H3. cbn [all_digits andb].
        destruct (Ascii.eqb c "0") eqn:E; [|reflexivity].
        apply Ascii.eqb_eq in E. contradiction.
      * unfold literal_text. rewrite !app_nil_r_s. reflexivity.
      * rewrite app_nil_r_s, H2. cbn. lia.
    + destruct (strip_trailing_zeros_split (decimal_digits z)) as [j Hj].
      rewrite H3 in H1.
      destruct (strip_trailing_zeros_head c r Hc H1) as (r' & Hs & Hr').
      rewrite H3 in Hj |- *. rewrite Hs in Hj |- *.
      assert (Hd : all_digits (String c r') = true).
      { cbn [all_digits] in H1 |- *. apply andb_prop in H1.
        destruct H1 as [-> _]. exact Hr'. }
      destruct (exponent_form_value c r' (slen (String c r)) Hd) as (e & Hok & Ht & He).
      exists (String c ""), r', e. split; [exact Hok|]. split; [exact Ht|].
      rewrite He.
      assert (Hlen : slen (String c r) = slen (String c r') + Z.of_nat j).
      { rewrite Hj at 1. unfold slen. rewrite length_app_s.
        assert (Hz : forall j, String.length (repeat_char "0" j) = j)
          by (clear; induction j as [|j IH]; [reflexivity|cbn; rewrite IH; reflexivity]).
        rewrite Hz. lia. }
      assert (Hl' : slen (String c r') = 1 + slen r')
        by (unfold slen; cbn [String.length]; lia).
      replace (slen (String c r) - 1 - slen r') with (Z.of_nat j) by lia.
      split; [lia|].
      change (String c "" ++ r') with (String c r').
      rewrite <- digits_value_trailing_zeros, <- Hj, <- H3. exact H2.
  - assert (Hnn : 0 <= m) by lia.
    pose proof (decimal_digits_spec m Hnn) as Hspec. cbv zeta in Hspec.
    destruct Hspec as (H1 & H2 & c & r & H3 & H4).
    set (ds := decimal_digits m) in *.
    set (n := slen ds - Z.pos k).
    assert (Hc : c <> "0"%char) by (apply H4; exact Hpos).
    destruct ((0 <? n) && (n <=? 21)) eqn:Hrange.
    + apply andb_prop in Hrange. destruct Hrange as [Hlo _].
      apply Z.ltb_lt in Hlo.
      assert (Hlen : (Z.to_nat n + Pos.to_nat k = String.length ds)%nat)
        by (unfold n, slen in *; lia).
      exists (substring 0 (Z.to_nat n) ds),
             (substring (Z.to_nat n) (String.length ds - Z.to_nat n) ds), None.
      assert (Hf : String.length
                     (substring (Z.to_nat n) (String.length ds - Z.to_nat n) ds)
                   = (String.length ds - Z.to_nat n)%nat)
        by (apply length_substring; lia).
      split; [|split].
      * unfold literal_ok.
        rewrite !all_digits_substring by exact H1. cbn [andb].
        rewrite andb_true_r. rewrite H3.
        destruct (Z.to_nat n) as [|n'] eqn:En; [lia|].
        cbn [substring].
        destruct (Ascii.eqb c "0") eqn:E; [|reflexivity].
        apply Ascii.eqb_eq in E. contradiction.
      * unfold literal_text. rewrite !app_nil_r_s.
        destruct (substring (Z.to_nat n) (String.length ds - Z.to_nat n) ds);
          [cbn [String.length] in Hf; pose proof (Pos2Nat.is_pos k); lia
          |reflexivity].
      * rewrite substring_split by lia. split; [exact H2|].
        unfold slen. rewrite Hf. cbn [literal_exponent]. lia.
    + destruct ((-6 <? n) && (n <=? 0)) eqn:Hsmall.
      * apply andb_prop in Hsmall. destruct Hsmall as [_ Hhi].
        apply Z.leb_le in Hhi.
        exists "0", (repeat_char "0" (Z.to_nat (- n)) ++ ds), None.
        split; [|split].
        -- unfold literal_ok. rewrite all_digits_app, all_digits_zeros, H1.
           reflexivity.
        -- unfold literal_text. rewrite !app_nil_r_s.
           assert (Hne : repeat_char "0" (Z.to_nat (- n)) ++ ds <> "").
           { rewrite H3. destruct (repeat_char "0" (Z.to_nat (- n))); discriminate. }
           destruct (repeat_char "0" (Z.to_nat (- n)) ++ ds);
             [congruence|reflexivity].
        -- split.
           ++ change ("0" ++ repeat_char "0" (Z.to_nat (- n)) ++ ds)
                with (repeat_char "0" (S (Z.to_nat (- n))) ++ ds).
              rewrite digits_value_leading_zeros. exact H2.
           ++ unfold slen. rewrite length_app_s.
              assert (Hz : forall j, String.length (repeat_char "0" j) = j)
                by (clear; induction j as [|j IH]; [reflexivity|cbn; rewrite IH; reflexivity]).
              rewrite Hz. cbn [literal_exponent]. unfold n, slen in *. lia.
      * rewrite H3 in H1.
        destruct (exponent_form_value c r n H1) as (e & Hok & Ht & He).
        exists (String c ""), r, e. rewrite H3. split; [exact Hok|].
        split; [exact Ht|].
        change (String c "" ++ r) with (String c r). rewrite <- H3.
        split; [exact H2|]. rewrite He.
        unfold n. rewrite H3. unfold slen. cbn [String.length]. lia.
Qed.

Lemma parse_number_literal negative i f e rest :
  literal_ok i f e = true ->
  stops_number rest = true ->
  parse_number ((if negative : bool then "-" else "") ++ literal_text i f e ++ rest)
  = Parsed (literal_value negative i f e) rest.
Proof.
  intros Hok Hs.
  destruct (literal_head i f e Hok) as (c & r & Hc & Hd).
  destruct negative.
  - cbn [append].
    change (parse_number (String "-" (literal_text i f e ++ rest)))
      with (parse_unsigned true (literal_text i f e ++ rest)).
    apply parse_unsigned_literal; assumption.
  - cbn [append]. rewrite Hc.
    rewrite (parse_number_unsigned (String c r) rest c r eq_refl Hd).
    rewrite <- Hc. apply parse_unsigned_literal; assumption.
Qed.

Lemma literal_value_number negative i f e :
  literal_value negative i f e
  = decimal_number negative (digits_value (i ++ f)) (literal_exponent e - slen f).
Proof. unfold literal_value, literal_exponent. destruct e as [[[] d]|]; reflexivity. Qed.

(** A number in normal form is read back as itself. *)
Lemma parse_number_normal n :
  normal_number n = true -> is_finite n = true ->
  parse_number (NumberToString n) = Parsed n "".
Proof.
  intros Hn Hf.
  assert (Hgen : forall negative i f e,
            literal_ok i f e = true ->
            parse_number (if negative : bool then "-" ++ literal_text i f e
                          else literal_text i f e)
            = Parsed (literal_value negative i f e) "").
  { intros negative i f e Hok.
    pose proof (parse_number_literal negative i f e "" Hok eq_refl) as Hp.
    rewrite app_nil_r_s in Hp. destruct negative; exact Hp. }
  destruct n as [| | |z|m k]; try discriminate; unfold NumberToString.
  - cbn [normal_number] in Hn. apply Z.ltb_lt in Hn.
    destruct (z =? 0) eqn:E0.
    + apply Z.eqb_eq in E0. subst z. reflexivity.
    + apply Z.eqb_neq in E0. destruct (z <? 0) eqn:En.
      * apply Z.ltb_lt in En.
        destruct (positive_literal_value (Fin (- z)))
          as (i & f & e & Hok & Ht & HE & Hv); [cbn; lia|].
        rewrite Ht. rewrite (Hgen true i f e Hok).
        rewrite literal_value_number.
        rewrite decimal_number_integer.
        -- rewrite Hv. f_equal. f_equal. lia.
        -- assert (0 < 10 ^ (literal_exponent e - slen f))
             by (apply Z.pow_pos_nonneg; lia).
           nia.
        -- exact HE.
        -- rewrite Hv. lia.
      * apply Z.ltb_ge in En.
        destruct (positive_literal_value (Fin z))
          as (i & f & e & Hok & Ht & HE & Hv); [cbn; lia|].
        rewrite Ht. rewrite (Hgen false i f e Hok).
        rewrite literal_value_number.
        rewrite decimal_number_integer.
        -- rewrite Hv. reflexivity.
        -- assert (0 < 10 ^ (literal_exponent e - slen f))
             by (apply Z.pow_pos_nonneg; lia).
           nia.
        -- exact HE.
        -- rewrite Hv. lia.
  - assert (Hm0 : m <> 0).
    { intros ->. cbn [normal_number] in Hn. discriminate Hn. }
    destruct (m <? 0) eqn:En.
    + apply Z.ltb_lt in En.
      assert (Hn' : normal_number (Frac (- m) k) = true).
      { cbn [normal_number] in Hn |- *. rewrite Z.abs_opp.
        replace (- m mod 10 =? 0) with (m mod 10 =? 0); [exact Hn|].
        destruct (m mod 10 =? 0) eqn:E1.
        - apply Z.eqb_eq in E1. symmetry. apply Z.eqb_eq.
          apply Z.mod_opp_l_z; [lia|exact E1].
        - apply Z.eqb_neq in E1. symmetry. apply Z.eqb_neq.
          rewrite Z.mod_opp_l_nz by lia. 
          pose proof (Z.mod_pos_bound m 10). lia. }
      destruct (positive_literal_value (Frac (- m) k))
        as (i & f & e & Hok & Ht & Hv & HE); [cbn; lia|].
      rewrite Ht. rewrite (Hgen true i f e Hok).
      rewrite literal_value_number, Hv, HE.
      rewrite decimal_number_fraction; [|lia|exact Hn'].
      f_equal. f_equal. lia.
    + apply Z.ltb_ge in En.
      destruct (positive_literal_value (Frac m k))
        as (i & f & e & Hok & Ht & Hv & HE); [cbn; lia|].
      rewrite Ht. rewrite (Hgen false i f e Hok).
      rewrite literal_value_number, Hv, HE.
      rewrite decimal_number_fraction; [reflexivity|lia|exact Hn].
Qed.

(** ** Every value that is written is read back *)

Lemma all_ws_app a b : all_ws (a ++ b) = all_ws a && all_ws b.
Proof.
  induction a as [|c a IH]; [reflexivity|].
  cbn [append all_ws]. rewrite IH. apply andb_assoc.
Qed.

Lemma skip_ws_app pre s : all_ws pre = true -> skip_ws (pre ++ s) = skip_ws s.
Proof.
  induction pre as [|c pre IH]; intros H; [reflexivity|].
  cbn [all_ws] in H. apply andb_prop in H. destruct H as [Hc Hp].
  cbn [append skip_ws]. rewrite Hc. apply IH. exact Hp.
Qed.

Lemma skip_ws_head c r : is_json_ws c = false -> skip_ws (String c r) = String c r.
Proof. intros H. cbn [skip_ws]. rewrite H. reflexivity. Qed.

Lemma parse_value_ws f pre s :
  all_ws pre = true -> parse_value f (pre ++ s) = parse_value f s.
Proof.
  intros H. destruct f as [|f]; [reflexivity|].
  cbn [parse_value]. rewrite (skip_ws_app pre s H). reflexivity.
Qed.

Lemma parse_members_ws f pre s acc :
  all_ws pre = true -> parse_members f (pre ++ s) acc = parse_members f s acc.
Proof.
  intros H. destruct f as [|f]; [reflexivity|].
  cbn [parse_members]. rewrite (skip_ws_app pre s H). reflexivity.
Qed.

Lemma all_ws_gap s : all_ws s = true -> all_ws (s ++ gap) = true.
Proof. intros H. rewrite all_ws_app, H. reflexivity. Qed.

Lemma digit_head c : is_digit c = true ->
  is_json_ws c = false /\ Ascii.eqb c "]" = false /\ Ascii.eqb c "," = false.
Proof.
  intros H.
  destruct (is_digit_cases c H) as [E|[E|[E|[E|[E|[E|[E|[E|[E|E]]]]]]]]];
    subst c; repeat split; reflexivity.
Qed.

Lemma number_text_head x :
  match x with Fin _ | Frac _ _ => True | _ => False end ->
  exists c r, NumberToString x = String c r /\
              (c = "-"%char \/ is_digit c = true).
Proof.
  intros Hx.
  destruct (number_literal x Hx) as (negative & i & fr & e & Hok & Ht).
  destruct (literal_head i fr e Hok) as (c & r & Hc & Hd).
  rewrite Ht. destruct negative.
  - eexists. eexists. split; [reflexivity|left; reflexivity].
  - exists c, r. split; [rewrite Hc; reflexivity|right; exact Hd].
Qed.

Lemma wrap_block_head o c stepback indent parts :
  exists r, wrap_block (String o "") c stepback indent parts = String o r.
Proof.
  unfold wrap_block. destruct parts; eexists; reflexivity.
Qed.

Lemma item_text_head indent x : value_head (item_text indent x).
Proof.
  unfold item_text, value_head.
  destruct x as [p|items|props].
  - destruct p as [| |[|]|n|s]; cbn [SerializeJSONProperty];
      try (eexists; eexists; split; [reflexivity|repeat split; reflexivity]).
    destruct n as [| | |z|m k]; cbn [SerializeJSONProperty];
      try (eexists; eexists; split; [reflexivity|repeat split; reflexivity]).
    + destruct (number_text_head (Fin z) I) as (c & r & Hc & [E|E]).
      * exists c, r. subst c. split; [exact Hc|repeat split; reflexivity].
      * exists c, r. split; [exact Hc|apply digit_head; exact E].
    + destruct (number_text_head (Frac m k) I) as (c & r & Hc & [E|E]).
      * exists c, r. subst c. split; [exact Hc|repeat split; reflexivity].
      * exists c, r. split; [exact Hc|apply digit_head; exact E].
  - cbn [SerializeJSONProperty].
    destruct (wrap_block_head "[" "]" indent (indent ++ gap)
                (map (fun x => match SerializeJSONProperty (indent ++ gap) x with
                               | Some s => s
                               | None => "null"
                               end) items)) as [r Hr].
    rewrite Hr. exists "["%char, r. repeat split; reflexivity.
  - cbn [SerializeJSONProperty].
    destruct (wrap_block_head "{" "}" indent (indent ++ gap)
                (flat_map (fun kv => match SerializeJSONProperty (indent ++ gap) (snd kv) with
                                     | Some s => [QuoteJSONString (fst kv) ++ ": " ++ s]
                                     | None => []
                                     end) props)) as [r Hr].
    rewrite Hr. exists "{"%char, r. repeat split; reflexivity.
Qed.

Lemma parse_value_head_number f c r :
  c = "-"%char \/ is_digit c = true ->
  parse_value (S f) (String c r)
  = match parse_number (String c r) with
    | Parsed x rest => Parsed (JNum x) rest
    | SyntaxError => SyntaxError
    | OutOfFuel => OutOfFuel
    end.
Proof.
  intros [H|H].
  - subst c. reflexivity.
  - destruct (is_digit_cases c H) as [E|[E|[E|[E|[E|[E|[E|[E|[E|E]]]]]]]]];
      subst c; reflexivity.
Qed.

(** The text of a finite number, read where it stands. *)
Lemma parse_number_text x rest :
  match x with Fin _ | Frac _ _ => True | _ => False end ->
  stops_number rest = true ->
  exists y, parse_number (NumberToString x ++ rest) = Parsed y rest /\
            parse_number (NumberToString x) = Parsed y "".
Proof.
  intros Hx Hstop.
  destruct (number_literal x Hx) as (negative & i & fr & e & Hok & Ht).
  exists (literal_value negative i fr e).
  destruct (literal_head i fr e Hok) as (c & r & Hc & Hd).
  assert (Hgen : forall rest, stops_number rest = true ->
            parse_number (NumberToString x ++ rest)
            = Parsed (literal_value negative i fr e) rest).
  { intros rest0 Hs. rewrite Ht. destruct negative.
    - rewrite app_assoc_s. cbn [append].
      change (parse_number (String "-" (literal_text i fr e ++ rest0)))
        with (parse_unsigned true (literal_text i fr e ++ rest0)).
      apply parse_unsigned_literal; assumption.
    - cbn [append]. rewrite Hc.
      rewrite (parse_number_unsigned (String c r) rest0 c r eq_refl Hd).
      rewrite <- Hc. apply parse_unsigned_literal; assumption. }
  split; [apply Hgen; exact Hstop|].
  rewrite <- (app_nil_r_s (NumberToString x)). apply Hgen. reflexivity.
Qed.

Lemma reads_ok_number indent x :
  match x with Fin _ | Frac _ _ => True | _ => False end ->
  SerializeJSONProperty indent (JNum x) = Some (NumberToString x) ->
  reads_ok indent (JNum x).
Proof.
  intros Hx Hser. exists 1%nat. intros f pre rest Hf Hpre Hstop.
  destruct f as [|f]; [lia|].
  rewrite parse_value_ws by exact Hpre.
  unfold item_text. rewrite Hser.
  destruct (number_text_head x Hx) as (c & r & Hc & Hd).
  destruct (parse_number_text x rest Hx Hstop) as (y & Hy & Hy0).
  assert (Hb : item_back (JNum x) = JNum y).
  { unfold item_back, JNum. cbn [read_back]. unfold read_number.
    destruct x; try contradiction; rewrite Hy0; reflexivity. }
  rewrite Hb. rewrite Hc. cbn [append].
  rewrite parse_value_head_number by exact Hd.
  change (String c (r ++ rest)) with (String c r ++ rest).
  rewrite <- Hc, Hy. reflexivity.
Qed.

Lemma reads_ok_prim indent p : reads_ok indent (JPrim p).
Proof.
  destruct p as [| |[|]|n|s].
  - exists 1%nat. intros f pre rest Hf Hpre _. destruct f as [|f]; [lia|].
    rewrite parse_value_ws by exact Hpre.
    change (parse_value (S f) (item_text indent (JPrim PUndefined) ++ rest))
      with (expect_literal "null" JNull ("null" ++ rest)).
    apply expect_literal_app.
  - exists 1%nat. intros f pre rest Hf Hpre _. destruct f as [|f]; [lia|].
    rewrite parse_value_ws by exact Hpre.
    change (parse_value (S f) (item_text indent (JPrim PNull) ++ rest))
      with (expect_literal "null" JNull ("null" ++ rest)).
    apply expect_literal_app.
  - exists 1%nat. intros f pre rest Hf Hpre _. destruct f as [|f]; [lia|].
    rewrite parse_value_ws by exact Hpre.
    change (parse_value (S f) (item_text indent (JPrim (PBool true)) ++ rest))
      with (expect_literal "true" (JPrim (PBool true)) ("true" ++ rest)).
    apply expect_literal_app.
  - exists 1%nat. intros f pre rest Hf Hpre _. destruct f as [|f]; [lia|].
    rewrite parse_value_ws by exact Hpre.
    change (parse_value (S f) (item_text indent (JPrim (PBool false)) ++ rest))
      with (expect_literal "false" (JPrim (PBool false)) ("false" ++ rest)).
    apply expect_literal_app.
  - destruct n as [| | |z|m k];
      try (exists 1%nat; intros f pre rest Hf Hpre _; destruct f as [|f]; [lia|];
           rewrite parse_value_ws by exact Hpre;
           match goal with
           | |- parse_value _ (item_text _ ?v ++ _) = _ =>
               change (parse_value (S f) (item_text indent v ++ rest))
                 with (expect_literal "null" JNull ("null" ++ rest))
           end;
           apply expect_literal_app).
    + apply reads_ok_number; [exact I|reflexivity].
    + apply reads_ok_number; [exact I|reflexivity].
  - exists 1%nat. intros f pre rest Hf Hpre _. destruct f as [|f]; [lia|].
    rewrite parse_value_ws by exact Hpre.
    unfold item_text. cbn [SerializeJSONProperty]. unfold QuoteJSONString.
    rewrite !app_assoc_s.
    change (dquote ++ quote_chars s ++ dquote ++ rest)
      with (String (ascii_of_nat 34) (quote_chars s ++ dquote ++ rest)).
    change (parse_value (S f)
              (String (ascii_of_nat 34) (quote_chars s ++ dquote ++ rest)))
      with (match parse_string (quote_chars s ++ dquote ++ rest) with
            | Parsed str rest0 => Parsed (JStr str) rest0
            | SyntaxError => SyntaxError
            | OutOfFuel => OutOfFuel
            end).
    rewrite parse_string_quote. reflexivity.
Qed.

Lemma all_ws_newline s : all_ws s = true -> all_ws (newline ++ s) = true.
Proof. intros H. cbn. exact H. Qed.

Lemma join_lines_cons indent t t' ts :
  join_lines indent (t :: t' :: ts)
  = t ++ "," ++ newline ++ indent ++ join_lines indent (t' :: ts).
Proof. reflexivity. Qed.

(** After the last item of a block comes the closing bracket. *)
Lemma closing_ahead stepback c rest :
  all_ws stepback = true -> is_json_ws c = false ->
  skip_ws (newline ++ stepback ++ String c rest) = String c rest.
Proof.
  intros Hs Hc.
  rewrite <- app_assoc_s.
  rewrite skip_ws_app by (apply all_ws_newline; exact Hs).
  apply skip_ws_head. exact Hc.
Qed.

Lemma skip_block_ws indent s :
  all_ws indent = true -> skip_ws (newline ++ indent ++ gap ++ s) = skip_ws s.
Proof.
  intros Hi.
  replace (newline ++ indent ++ gap ++ s) with ((newline ++ indent ++ gap) ++ s)
    by (rewrite !app_assoc_s; reflexivity).
  apply skip_ws_app. apply all_ws_newline. rewrite all_ws_app, Hi. reflexivity.
Qed.

Lemma parse_elements_items stepback indent items :
  all_ws stepback = true -> all_ws indent = true ->
  Forall (reads_ok indent) items ->
  items <> [] ->
  exists f0, forall f acc rest,
    (f0 <= f)%nat ->
    parse_elements f
      (newline ++ indent ++ join_lines indent (map (item_text indent) items)
       ++ newline ++ stepback ++ "]" ++ rest) acc
    = Parsed (JArr (acc ++ map item_back items)) rest.
Proof.
  intros Hs Hi HF. induction HF as [|x items Hx HF IH]; [congruence|]. intros _.
  destruct Hx as [fx Hx].
  destruct items as [|x' items].
  - exists (S fx). intros f acc rest Hf. destruct f as [|f]; [lia|].
    cbn [map join_lines String.concat]. unfold join_lines. cbn [String.concat].
    cbn [parse_elements].
    replace (newline ++ indent ++ item_text indent x ++ newline ++ stepback ++ "]" ++ rest)
      with ((newline ++ indent) ++ item_text indent x
            ++ (newline ++ stepback ++ "]" ++ rest))
      by (rewrite !app_assoc_s; reflexivity).
    rewrite Hx; [|lia|apply all_ws_newline; exact Hi|reflexivity].
    cbv zeta.
    change ("]" ++ rest) with (String "]" rest).
    rewrite (closing_ahead stepback "]" rest Hs eq_refl).
    reflexivity.
  - destruct IH as [f1 IH]; [discriminate|].
    exists (S (Nat.max fx f1)). intros f acc rest Hf. destruct f as [|f]; [lia|].
    cbn [map]. rewrite join_lines_cons.
    cbn [parse_elements].
    replace (newline ++ indent ++ (item_text indent x ++ "," ++ newline ++ indent
               ++ join_lines indent (item_text indent x' :: map (item_text indent) items))
             ++ newline ++ stepback ++ "]" ++ rest)
      with ((newline ++ indent) ++ item_text indent x
            ++ ("," ++ newline ++ indent
                ++ join_lines indent (map (item_text indent) (x' :: items))
                ++ newline ++ stepback ++ "]" ++ rest))
      by (cbn [map]; rewrite !app_assoc_s; reflexivity).
    rewrite Hx; [|lia|apply all_ws_newline; exact Hi|reflexivity].
    cbv zeta.
    change (starts_with "," (skip_ws ("," ++ ?Y))) with (Some Y). cbv iota.
    rewrite IH by lia.
    rewrite <- app_assoc. reflexivity.
Qed.

Lemma member_head indent kv tail f acc :
  all_ws indent = true ->
  parse_members (S f)
    (newline ++ indent ++ member_line indent kv ++ tail) acc
  = match parse_value f (" " ++ item_text indent (snd kv) ++ tail) with
    | Parsed v r3 =>
        let acc' := set_prop (fst kv) v acc in
        match starts_with "," (skip_ws r3) with
        | Some r4 => parse_members f r4 acc'
        | None =>
            match starts_with "}" (skip_ws r3) with
            | Some r4 => Parsed (JObj acc') r4
            | None => SyntaxError
            end
        end
    | SyntaxError => SyntaxError
    | OutOfFuel => OutOfFuel
    end.
Proof.
  intros Hi.
  replace (newline ++ indent ++ member_line indent kv ++ tail)
    with ((newline ++ indent) ++ member_line indent kv ++ tail)
    by (rewrite !app_assoc_s; reflexivity).
  rewrite parse_members_ws by (apply all_ws_newline; exact Hi).
  unfold member_line, QuoteJSONString. rewrite !app_assoc_s.
  change (dquote ++ ?X) with (String (ascii_of_nat 34) X).
  cbn [parse_members].
  change (starts_with (ascii_of_nat 34) (skip_ws (String (ascii_of_nat 34) ?X)))
    with (Some X).
  cbv iota. rewrite parse_string_quote.
  change (starts_with ":" (skip_ws (": " ++ ?Y))) with (Some (" " ++ Y)).
  cbv iota. reflexivity.
Qed.

Lemma parse_members_items stepback indent kvs :
  all_ws stepback = true -> all_ws indent = true ->
  Forall (fun kv => reads_ok indent (snd kv)) kvs ->
  kvs <> [] ->
  exists f0, forall f acc rest,
    (f0 <= f)%nat ->
    parse_members f
      (newline ++ indent ++ join_lines indent (map (member_line indent) kvs)
       ++ newline ++ stepback ++ "}" ++ rest) acc
    = Parsed (JObj (fold_left set_field
                      (map (fun kv => (fst kv, item_back (snd kv))) kvs) acc)) rest.
Proof.
  intros Hs Hi HF. induction HF as [|kv kvs Hx HF IH]; [congruence|]. intros _.
  destruct Hx as [fx Hx].
  destruct kvs as [|kv' kvs].
  - exists (S fx). intros f acc rest Hf. destruct f as [|f]; [lia|].
    cbn [map]. unfold join_lines. cbn [String.concat].
    rewrite (member_head indent kv _ f acc Hi).
    rewrite Hx; [|lia|reflexivity|reflexivity].
    cbv zeta.
    change ("}" ++ rest) with (String "}" rest).
    rewrite (closing_ahead stepback "}" rest Hs eq_refl).
    reflexivity.
  - destruct IH as [f1 IH]; [discriminate|].
    exists (S (Nat.max fx f1)). intros f acc rest Hf. destruct f as [|f]; [lia|].
    cbn [map]. rewrite join_lines_cons.
    replace (newline ++ indent ++ (member_line indent kv ++ "," ++ newline ++ indent
               ++ join_lines indent (member_line indent kv' :: map (member_line indent) kvs))
             ++ newline ++ stepback ++ "}" ++ rest)
      with (newline ++ indent ++ member_line indent kv
            ++ ("," ++ newline ++ indent
                ++ join_lines indent (map (member_line indent) (kv' :: kvs))
                ++ newline ++ stepback ++ "}" ++ rest))
      by (cbn [map]; rewrite !app_assoc_s; reflexivity).
    rewrite (member_head indent kv _ f acc Hi).
    rewrite Hx; [|lia|reflexivity|reflexivity].
    cbv zeta.
    change (starts_with "," (skip_ws ("," ++ ?Y))) with (Some Y). cbv iota.
    rewrite IH by lia.
    reflexivity.
Qed.

(** Induction on values, through the items and the properties. *)
Lemma JsVal_nested_ind (P : JsVal -> Prop) :
  (forall p, P (JPrim p)) ->
  (forall items, Forall P items -> P (JArr items)) ->
  (forall props, Forall (fun kv => P (snd kv)) props -> P (JObj props)) ->
  forall v, P v.
Proof.
  intros HP HA HO. fix IH 1. intros [p|items|props].
  - apply HP.
  - apply HA. induction items as [|x items IHi]; constructor; [apply IH|exact IHi].
  - apply HO. induction props as [|[k x] props IHp]; constructor;
      [apply IH|exact IHp].
Qed.

Lemma members_kept indent props :
  flat_map (fun kv : string * JsVal =>
              match SerializeJSONProperty indent (snd kv) with
                      | Some s => [QuoteJSONString (fst kv) ++ ": " ++ s]
                      | None => []
                      end) props
  = map (member_line indent) (filter (fun kv => is_defined (snd kv)) props).
Proof.
  induction props as [|[k x] props IH]; [reflexivity|].
  cbn [flat_map filter fst snd]. rewrite IH.
  unfold member_line, item_text. cbn [fst snd].
  destruct x as [[| |[|]|[]|]| |]; reflexivity.
Qed.

Lemma read_back_kept props :
  flat_map (fun kv : string * JsVal =>
              match snd kv with
                      | JPrim PUndefined => []
                      | _ => [(fst kv, read_back (snd kv))]
                      end) props
  = map (fun kv => (fst kv, item_back (snd kv)))
      (filter (fun kv => is_defined (snd kv)) props).
Proof.
  induction props as [|[k x] props IH]; [reflexivity|].
  cbn [flat_map filter fst snd]. rewrite IH.
  destruct x as [[| |[|]|[]|]| |]; reflexivity.
Qed.

(** Every value [JSON.stringify] writes is read back by [JSON.parse]. *)
Lemma reads_ok_all v : forall indent, all_ws indent = true -> reads_ok indent v.
Proof.
  induction v as [p|items IH|props IH] using JsVal_nested_ind; intros indent Hi.
  - apply reads_ok_prim.
  - destruct items as [|x items].
    + exists 1%nat. intros f pre rest Hf Hpre _. destruct f as [|f]; [lia|].
      rewrite parse_value_ws by exact Hpre. reflexivity.
    + assert (HF : Forall (reads_ok (indent ++ gap)) (x :: items)).
      { eapply Forall_impl; [|exact IH]. cbv beta. intros a Ha. apply Ha.
        apply all_ws_gap. exact Hi. }
      destruct (parse_elements_items indent (indent ++ gap) (x :: items) Hi
                  (all_ws_gap _ Hi) HF) as [f0 Hp]; [discriminate|].
      exists (S f0). intros f pre rest Hf Hpre _. destruct f as [|f]; [lia|].
      rewrite parse_value_ws by exact Hpre.
      unfold item_text. cbn [SerializeJSONProperty]. unfold wrap_block.
      change (map (fun x0 => match SerializeJSONProperty (indent ++ gap) x0 with
                             | Some s => s
                             | None => "null"
                             end) (x :: items))
        with (map (item_text (indent ++ gap)) (x :: items)).
      cbn [map]. rewrite !app_assoc_s.
      change ("[" ++ ?X) with (String "[" X).
      destruct (item_text_head (indent ++ gap) x) as (c & r & Hc & Hw & Hb & _).
      set (body := newline ++ indent ++ gap ++
                   join_lines (indent ++ gap)
                     (item_text (indent ++ gap) x :: map (item_text (indent ++ gap)) items)
                   ++ newline ++ indent ++ "]" ++ rest).
      assert (Hskip : starts_with "]" (skip_ws body) = None).
      { unfold body.
        rewrite skip_block_ws by exact Hi.
        unfold join_lines. cbn [String.concat].
        destruct (map (item_text (indent ++ gap)) items);
          rewrite Hc; cbn [append]; rewrite skip_ws_head by exact Hw;
          cbn [starts_with]; rewrite Hb; reflexivity. }
      change (parse_value (S f) (String "[" body))
        with (match starts_with "]" (skip_ws body) with
              | Some r' => Parsed (JArr []) r'
              | None => parse_elements f body []
              end).
      rewrite Hskip. unfold body.
      change (item_text (indent ++ gap) x :: map (item_text (indent ++ gap)) items)
        with (map (item_text (indent ++ gap)) (x :: items)).
      assert (Hf' : (f0 <= f)%nat) by lia.
      specialize (Hp f [] rest Hf').
      rewrite !app_assoc_s in Hp.
      rewrite Hp. reflexivity.
  - set (kept := filter (fun kv => is_defined (snd kv)) props).
    assert (Hser : item_text indent (JObj props)
                   = wrap_block "{" "}" indent (indent ++ gap)
                       (map (member_line (indent ++ gap)) kept)).
    { unfold item_text. cbn [SerializeJSONProperty].
      rewrite members_kept. reflexivity. }
    assert (Hback : item_back (JObj props)
                    = JObj (fold_left set_field
                              (map (fun kv => (fst kv, item_back (snd kv))) kept) [])).
    { unfold item_back. cbn [read_back]. rewrite read_back_kept. reflexivity. }
    assert (HF : Forall (fun kv => reads_ok (indent ++ gap) (snd kv)) kept).
    { apply Forall_forall. intros kv Hin. unfold kept in Hin.
      apply filter_In in Hin. destruct Hin as [Hin _].
      rewrite Forall_forall in IH. apply (IH kv Hin). apply all_ws_gap. exact Hi. }
    destruct kept as [|kv kept'] eqn:Ek.
    + exists 1%nat. intros f pre rest Hf Hpre _. destruct f as [|f]; [lia|].
      rewrite parse_value_ws by exact Hpre.
      unfold reads_ok. rewrite Hser, Hback. reflexivity.
    + destruct (parse_members_items indent (indent ++ gap) (kv :: kept') Hi
                  (all_ws_gap _ Hi) HF) as [f0 Hp]; [discriminate|].
      exists (S f0). intros f pre rest Hf Hpre _. destruct f as [|f]; [lia|].
      rewrite parse_value_ws by exact Hpre.
      rewrite Hser, Hback. unfold wrap_block. cbn [map].
      rewrite !app_assoc_s.
      change ("{" ++ ?X) with (String "{" X).
      set (body := newline ++ indent ++ gap ++
                   join_lines (indent ++ gap)
                     (member_line (indent ++ gap) kv
                      :: map (member_line (indent ++ gap)) kept')
                   ++ newline ++ indent ++ "}" ++ rest).
      assert (Hskip : starts_with "}" (skip_ws body) = None).
      { unfold body.
        rewrite skip_block_ws by exact Hi.
        unfold join_lines. cbn [String.concat].
        destruct (map (member_line (indent ++ gap)) kept');
          unfold member_line, QuoteJSONString; rewrite !app_assoc_s; reflexivity. }
      change (parse_value (S f) (String "{" body))
        with (match starts_with "}" (skip_ws body) with
              | Some r' => Parsed (JObj []) r'
              | None => parse_members f body []
              end).
      rewrite Hskip. unfold body.
      change (member_line (indent ++ gap) kv :: map (member_line (indent ++ gap)) kept')
        with (map (member_line (indent ++ gap)) (kv :: kept')).
      assert (Hf' : (f0 <= f)%nat) by lia.
      specialize (Hp f [] rest Hf').
      rewrite !app_assoc_s in Hp.
      rewrite Hp. reflexivity.
Qed.

(** [JSON.parse(JSON.stringify(v, null, 2))] *)
Lemma JSON_round_trip v :
  JSON_parse (item_text "" v) = Some (item_back v).
Proof.
  destruct (reads_ok_all v "" eq_refl) as [f0 H].
  apply (JSON_parse_with_fuel f0).
  specialize (H f0 "" "" (Nat.le_refl _) eq_refl eq_refl).
  cbn [append] in H. rewrite app_nil_r_s in H. exact H.
Qed.

(** ** Values as [JSON.parse] builds them *)

Lemma has_key_app k a b : has_key k (a ++ b) = has_key k a || has_key k b.
Proof.
  induction a as [|[k' v'] a IH]; [reflexivity|].
  cbn [app has_key]. rewrite IH. apply orb_assoc.
Qed.

Lemma in_order_snoc acc k v :
  in_order (acc ++ [(k, v)]) = true ->
  has_key k acc = false /\
  Forall (fun kv => key_before (fst kv) k = true) acc.
Proof.
  induction acc as [|[k' v'] acc IH]; intros H; [split; [reflexivity|constructor]|].
  cbn [app in_order] in H.
  apply andb_prop in H. destruct H as [H H3].
  apply andb_prop in H. destruct H as [H1 H2].
  destruct (IH H3) as [Hk Hb].
  rewrite has_key_app in H1. apply negb_true_iff in H1.
  apply orb_false_elim in H1. destruct H1 as [_ H1].
  cbn [has_key] in H1. rewrite orb_false_r in H1.
  rewrite forallb_app in H2. apply andb_prop in H2. destruct H2 as [_ H2].
  cbn [forallb fst] in H2. rewrite andb_true_r in H2.
  split.
  - cbn [has_key]. rewrite Hk, orb_false_r.
    rewrite String.eqb_sym. exact H1.
  - constructor; [exact H2|exact Hb].
Qed.

Lemma in_order_prefix a b : in_order (a ++ b) = true -> in_order a = true.
Proof.
  induction a as [|[k v] a IH]; intros H; [reflexivity|].
  cbn [app in_order] in H |- *.
  apply andb_prop in H. destruct H as [H H3].
  apply andb_prop in H. destruct H as [H1 H2].
  rewrite has_key_app in H1. apply negb_true_iff in H1.
  apply orb_false_elim in H1. destruct H1 as [H1 _].
  rewrite forallb_app in H2. apply andb_prop in H2. destruct H2 as [H2 _].
  rewrite H1, H2, (IH H3). reflexivity.
Qed.

Lemma insert_index_last i k v acc :
  Forall (fun kv => match array_index (fst kv) with
                    | Some j => j <? i
                    | None => false
                    end = true) acc ->
  insert_index i k v acc = (acc ++ [(k, v)])%list.
Proof.
  induction 1 as [|[k' v'] acc Hh Ht IH]; [reflexivity|].
  cbn [insert_index app fst] in *.
  destruct (array_index k') as [j|]; [|discriminate].
  rewrite Hh, IH. reflexivity.
Qed.

(** Setting the next property of a list that is in order appends it. *)
Lemma set_prop_next acc k v :
  in_order (acc ++ [(k, v)]) = true ->
  set_prop k v acc = (acc ++ [(k, v)])%list.
Proof.
  intros H. destruct (in_order_snoc acc k v H) as [Hk Hb].
  unfold set_prop. rewrite Hk.
  destruct (array_index k) as [i|] eqn:Ei; [|reflexivity].
  apply insert_index_last.
  eapply Forall_impl; [|exact Hb]. cbv beta. intros [k' v'] Hkb.
  cbn [fst] in *. unfold key_before in Hkb. rewrite Ei in Hkb.
  destruct (array_index k'); [exact Hkb|discriminate].
Qed.

Lemma fold_set_field_in_order props : forall acc,
  in_order (acc ++ props) = true ->
  fold_left set_field props acc = (acc ++ props)%list.
Proof.
  induction props as [|[k v] props IH]; intros acc H.
  - rewrite app_nil_r. reflexivity.
  - cbn [fold_left]. unfold set_field at 2. cbn [fst snd].
    replace (acc ++ (k, v) :: props)%list with ((acc ++ [(k, v)]) ++ props)%list in *
      by (rewrite <- app_assoc; reflexivity).
    rewrite set_prop_next by (apply (in_order_prefix _ props); exact H).
    apply IH. exact H.
Qed.

Lemma has_key_values (g : JsVal -> JsVal) k props :
  has_key k (map (fun kv => (fst kv, g (snd kv))) props) = has_key k props.
Proof.
  induction props as [|[k' v'] props IH]; [reflexivity|].
  cbn [map has_key fst snd]. rewrite IH. reflexivity.
Qed.

Lemma in_order_values (g : JsVal -> JsVal) props :
  in_order (map (fun kv => (fst kv, g (snd kv))) props) = in_order props.
Proof.
  induction props as [|[k v] props IH]; [reflexivity|].
  cbn [map in_order fst snd]. rewrite IH, has_key_values.
  f_equal. f_equal. clear IH.
  induction props as [|[k' v'] props IH]; [reflexivity|].
  cbn [map forallb fst snd]. rewrite IH. reflexivity.
Qed.

Lemma json_value_defined v : json_value v = true -> is_defined v = true.
Proof. destruct v as [[| |[|]|[]|]| |]; try reflexivity; discriminate. Qed.

Lemma item_back_defined v : is_defined v = true -> item_back v = read_back v.
Proof. destruct v as [[| |[|]|[]|]| |]; try reflexivity; discriminate. Qed.

(** A value as [JSON.parse] builds it is read back as itself, apart
    from the numbers that are not finite. *)
Lemma read_back_json v :
  json_value v = true -> read_back v = non_finite_to_null v.
Proof.
  induction v as [p|items IH|props IH] using JsVal_nested_ind; intros H.
  - destruct p as [| |[|]|n|s]; try reflexivity.
    cbn [json_value] in H. cbn [read_back non_finite_to_null].
    unfold read_number.
    destruct n as [| | |z|m k]; try reflexivity.
    + rewrite (parse_number_normal (Fin z) H eq_refl). reflexivity.
    + rewrite (parse_number_normal (Frac m k) H eq_refl). reflexivity.
  - cbn [json_value] in H. cbn [read_back non_finite_to_null]. f_equal.
    induction IH as [|x items Hx _ IHl]; [reflexivity|].
    cbn [forallb] in H. apply andb_prop in H. destruct H as [H1 H2].
    cbn [map]. rewrite (IHl H2).
    change (match x with JPrim PUndefined => JNull | _ => read_back x end)
      with (item_back x).
    rewrite (item_back_defined x (json_value_defined x H1)), (Hx H1). reflexivity.
  - cbn [json_value] in H. apply andb_prop in H. destruct H as [Ho Hv].
    cbn [read_back non_finite_to_null]. f_equal.
    rewrite read_back_kept.
    assert (E : map (fun kv => (fst kv, item_back (snd kv)))
                  (filter (fun kv => is_defined (snd kv)) props)
                = map (fun kv => (fst kv, non_finite_to_null (snd kv))) props).
    { clear Ho. induction IH as [|[k x] props Hx _ IHl]; [reflexivity|].
      cbn [forallb snd] in Hv. apply andb_prop in Hv. destruct Hv as [H1 H2].
      cbn [snd] in Hx.
      cbn [filter snd]. rewrite (json_value_defined x H1). cbn [map fst snd].
      rewrite (IHl H2), (item_back_defined x (json_value_defined x H1)), (Hx H1).
      reflexivity. }
    rewrite E.
    rewrite fold_set_field_in_order; [reflexivity|].
    cbn [app]. rewrite in_order_values. exact Ho.
Qed.

Lemma non_finite_to_null_finite v :
  finite_only v = true -> non_finite_to_null v = v.
Proof.
  induction v as [p|items IH|props IH] using JsVal_nested_ind; intros H.
  - destruct p as [| |[|]|n|s]; try reflexivity.
    cbn [finite_only] in H. cbn [non_finite_to_null]. rewrite H. reflexivity.
  - cbn [finite_only] in H. cbn [non_finite_to_null]. f_equal.
    induction IH as [|x items Hx _ IHl]; [reflexivity|].
    cbn [forallb] in H. apply andb_prop in H. destruct H as [H1 H2].
    cbn [map]. rewrite (IHl H2), (Hx H1). reflexivity.
  - cbn [finite_only] in H. cbn [non_finite_to_null]. f_equal.
    induction IH as [|[k x] props Hx _ IHl]; [reflexivity|].
    cbn [forallb snd] in H. apply andb_prop in H. destruct H as [H1 H2].
    cbn [snd] in Hx. cbn [map fst snd]. rewrite (IHl H2), (Hx H1). reflexivity.
Qed.

(** ** What [JSON.parse] builds *)

Lemma is_digit_value c : is_digit c = true -> 0 <= digit_value c <= 9.
Proof.
  unfold is_digit, digit_value. intros H. apply andb_prop in H. destruct H as [H1 H2].
  apply Nat.leb_le in H1. apply Nat.leb_le in H2. lia.
Qed.

Lemma digits_value_from_nonneg s : forall acc,
  all_digits s = true -> 0 <= acc -> 0 <= digits_value_from acc s.
Proof.
  induction s as [|c s IH]; intros acc H Ha; [exact Ha|].
  cbn [all_digits] in H. apply andb_prop in H. destruct H as [Hc Hs].
  cbn [digits_value_from]. apply IH; [exact Hs|].
  pose proof (is_digit_value c Hc). lia.
Qed.

Lemma span_digits_digits s : all_digits (fst (span_digits s)) = true.
Proof.
  induction s as [|c s IH]; [reflexivity|].
  cbn [span_digits]. destruct (is_digit c) eqn:E; [|reflexivity].
  destruct (span_digits s) as [d rest]. cbn [fst all_digits] in *.
  rewrite E, IH. reflexivity.
Qed.

Lemma strip_tens_spec fuel : forall m k,
  0 < m -> 0 <= k -> (Z.to_nat k <= fuel)%nat ->
  0 < fst (strip_tens fuel m k) /\ 0 <= snd (strip_tens fuel m k) /\
  (0 < snd (strip_tens fuel m k) -> fst (strip_tens fuel m k) mod 10 <> 0).
Proof.
  induction fuel as [|fuel IH]; intros m k Hm Hk Hf.
  - cbn [strip_tens fst snd]. repeat split; lia.
  - cbn [strip_tens].
    destruct (0 <? k) eqn:Ek; cbn [andb].
    + destruct (m mod 10 =? 0) eqn:Em.
      * apply Z.ltb_lt in Ek. apply Z.eqb_eq in Em.
        apply IH; [|lia|lia].
        pose proof (Z.div_mod m 10 ltac:(lia)). lia.
      * cbn [fst snd]. apply Z.eqb_neq in Em. repeat split; try lia; intros _; exact Em.
    + cbn [fst snd]. apply Z.ltb_ge in Ek. repeat split; lia.
Qed.

Lemma decimal_number_normal negative m e :
  0 <= m -> normal_number (decimal_number negative m e) = true.
Proof.
  intros Hm. unfold decimal_number.
  destruct (m =? 0) eqn:E0; [reflexivity|]. apply Z.eqb_neq in E0.
  destruct (0 <=? e) eqn:Ee.
  - destruct (310 <? _); [destruct negative; reflexivity|].
    destruct (overflow_threshold <=? m * 10 ^ e) eqn:Eo;
      [destruct negative; reflexivity|].
    apply Z.leb_gt in Eo. apply Z.leb_le in Ee.
    assert (0 <= m * 10 ^ e) by (apply Z.mul_nonneg_nonneg; [lia|apply Z.pow_nonneg; lia]).
    cbn [normal_number]. apply Z.ltb_lt. destruct negative; lia.
  - apply Z.leb_gt in Ee.
    pose proof (strip_tens_spec (Z.to_nat (- e)) m (- e) ltac:(lia) ltac:(lia) ltac:(lia))
      as (H1 & H2 & H3).
    destruct (strip_tens (Z.to_nat (- e)) m (- e)) as [m' k]. cbn [fst snd] in *.
    destruct k as [|p|p].
    + destruct (overflow_threshold <=? m') eqn:Eo; [destruct negative; reflexivity|].
      apply Z.leb_gt in Eo. cbn [normal_number]. apply Z.ltb_lt. destruct negative; lia.
    + destruct (330 <? _) eqn:E1; [reflexivity|].
      destruct (m' * underflow_scale <=? 10 ^ Z.pos p) eqn:E2; [reflexivity|].
      cbn [normal_number].
      assert (Ha : Z.abs (if negative then - m' else m') = m')
        by (destruct negative; lia).
      rewrite Ha, E1, E2.
      assert (Hmod : ((if negative then - m' else m') mod 10 =? 0) = false).
      { apply Z.eqb_neq. specialize (H3 ltac:(lia)). destruct negative; [|exact H3].
        intros Hz. apply H3. apply Z.mod_divide in Hz; [|lia].
        apply Z.mod_divide; [lia|]. apply Z.divide_opp_r. exact Hz. }
      rewrite Hmod. reflexivity.
    + lia.
Qed.

Lemma parse_number_normal_value s x rest :
  parse_number s = Parsed x rest -> normal_number x = true.
Proof.
  assert (H : forall negative body, parse_unsigned negative body = Parsed x rest ->
                                    normal_number x = true).
  { intros negative body. unfold parse_unsigned.
    pose proof (span_digits_digits body) as Hi.
    destruct (span_digits body) as [int r1]. cbn [fst] in Hi.
    destruct int as [|d0 ds]; [discriminate|].
    destruct (Ascii.eqb d0 "0" && negb (String.eqb ds "")); [discriminate|].
    set (fp := match r1 with
               | String "." r2 => match span_digits r2 with
                                  | (EmptyString, _) => None
                                  | (f, r3) => Some (f, r3)
                                  end
               | _ => Some (EmptyString, r1)
               end).
    assert (Hf : match fp with Some (f, _) => all_digits f = true | None => True end).
    { subst fp. destruct r1 as [|c r2]; [reflexivity|].
      destruct (Ascii.eqb c ".") eqn:Ec.
      - apply Ascii.eqb_eq in Ec. subst c.
        pose proof (span_digits_digits r2) as Hd.
        destruct (span_digits r2) as [f r3]. cbn [fst] in Hd.
        destruct f; [exact I|exact Hd].
      - destruct c as [[] [] [] [] [] [] [] []]; try reflexivity; discriminate. }
    destruct fp as [[frac r3]|]; [|discriminate].
    match goal with
    | |- match ?ep with Some _ => _ | None => _ end = _ -> _ => destruct ep as [[ex r5]|]
    end; [|discriminate].
    intros Heq. injection Heq as <- _.
    apply decimal_number_normal. unfold digits_value.
    apply digits_value_from_nonneg; [|lia].
    change (all_digits (String d0 ds ++ frac) = true).
    rewrite all_digits_app, Hi, Hf. reflexivity. }
  unfold parse_number. destruct s as [|c r]; [apply H|].
  destruct (Ascii.eqb c "-") eqn:Ec.
  - apply Ascii.eqb_eq in Ec. subst c. apply H.
  - destruct c as [[] [] [] [] [] [] [] []]; apply H.
Qed.

Lemma array_index_text k i : array_index k = Some i -> decimal_digits i = k.
Proof.
  unfold array_index.
  destruct (all_digits k && negb (String.eqb k "")); [|discriminate].
  cbv zeta.
  destruct (String.eqb (decimal_digits (digits_value k)) k) eqn:E; [|discriminate].
  destruct (digits_value k <=? 4294967294); [|discriminate].
  cbn [andb]. intros H. injection H as <-. apply String.eqb_eq. exact E.
Qed.

Lemma key_before_trans a b c :
  key_before a b = true -> key_before b c = true -> key_before a c = true.
Proof.
  unfold key_before.
  destruct (array_index a) as [i|], (array_index b) as [j|], (array_index c) as [l|];
    try reflexivity; try discriminate.
  intros H1 H2. apply Z.ltb_lt in H1. apply Z.ltb_lt in H2. apply Z.ltb_lt. lia.
Qed.

Lemma has_key_replace_prop k v k0 props :
  has_key k0 (replace_prop k v props) = has_key k0 props.
Proof.
  induction props as [|[k' v'] props IH]; [reflexivity|].
  cbn [replace_prop]. destruct (String.eqb k' k); cbn [has_key]; [reflexivity|].
  rewrite IH. reflexivity.
Qed.

Lemma forallb_keys_replace_prop (P : string -> bool) k v props :
  forallb (fun kv : string * JsVal => P (fst kv)) (replace_prop k v props)
  = forallb (fun kv : string * JsVal => P (fst kv)) props.
Proof.
  induction props as [|[k' v'] props IH]; [reflexivity|].
  cbn [replace_prop]. destruct (String.eqb k' k); cbn [forallb fst]; [reflexivity|].
  rewrite IH. reflexivity.
Qed.

Lemma in_order_replace_prop k v props :
  in_order (replace_prop k v props) = in_order props.
Proof.
  induction props as [|[k' v'] props IH]; [reflexivity|].
  cbn [replace_prop]. destruct (String.eqb k' k); cbn [in_order]; [reflexivity|].
  rewrite IH, has_key_replace_prop, forallb_keys_replace_prop. reflexivity.
Qed.

Lemma has_key_insert_index i k v k0 props :
  has_key k0 (insert_index i k v props) = String.eqb k k0 || has_key k0 props.
Proof.
  induction props as [|[k' v'] props IH]; [reflexivity|].
  cbn [insert_index].
  destruct (array_index k') as [j|]; [|reflexivity].
  destruct (j <? i); [|reflexivity].
  cbn [has_key]. rewrite IH.
  destruct (String.eqb k' k0), (String.eqb k k0); reflexivity.
Qed.

Lemma forallb_insert_index (P : string * JsVal -> bool) i k v props :
  forallb P (insert_index i k v props) = P (k, v) && forallb P props.
Proof.
  induction props as [|[k' v'] props IH]; [reflexivity|].
  cbn [insert_index].
  destruct (array_index k') as [j|]; [|reflexivity].
  destruct (j <? i); [|reflexivity].
  cbn [forallb]. rewrite IH.
  destruct (P (k', v')), (P (k, v)); reflexivity.
Qed.

Lemma in_order_cons k v props :
  in_order ((k, v) :: props)
  = negb (has_key k props)
    && forallb (fun kv : string * JsVal => key_before k (fst kv)) props
    && in_order props.
Proof. reflexivity. Qed.

(** A key that may stand before the first key of an ordered list may
    stand before all of them. *)
Lemma key_before_all k k' v' props :
  key_before k k' = true ->
  in_order ((k', v') :: props) = true ->
  forallb (fun kv : string * JsVal => key_before k (fst kv)) ((k', v') :: props) = true.
Proof.
  intros Hk H. rewrite in_order_cons in H.
  apply andb_prop in H. destruct H as [H _].
  apply andb_prop in H. destruct H as [_ H].
  cbn [forallb fst]. rewrite Hk. cbn [andb].
  rewrite forallb_forall in *. intros kv Hin.
  apply key_before_trans with k'; [exact Hk|apply H; exact Hin].
Qed.

Lemma in_order_insert_index i k v props :
  array_index k = Some i ->
  has_key k props = false ->
  in_order props = true ->
  in_order (insert_index i k v props) = true.
Proof.
  intros Hi. induction props as [|[k' v'] props IH]; intros Hk H; [reflexivity|].
  cbn [has_key] in Hk. apply orb_false_elim in Hk. destruct Hk as [Hne Hk].
  cbn [insert_index].
  assert (Hfront : key_before k k' = true ->
                   in_order ((k, v) :: (k', v') :: props) = true).
  { intros Hb. rewrite in_order_cons.
    rewrite (key_before_all k k' v' props Hb H), H.
    cbn [has_key]. rewrite Hne, Hk. reflexivity. }
  destruct (array_index k') as [j|] eqn:Ej.
  - destruct (j <? i) eqn:Eji.
    + rewrite in_order_cons in H |- *.
      apply andb_prop in H. destruct H as [H H3].
      apply andb_prop in H. destruct H as [H1 H2].
      rewrite has_key_insert_index, forallb_insert_index, (IH Hk H3), H2.
      cbn [fst]. apply negb_true_iff in H1. rewrite H1.
      rewrite String.eqb_sym, Hne.
      unfold key_before. rewrite Ej, Hi, Eji. reflexivity.
    + apply Hfront. unfold key_before. rewrite Hi, Ej.
      apply Z.ltb_lt. apply Z.ltb_ge in Eji.
      assert (i <> j); [|lia].
      intros ->. apply array_index_text in Hi. apply array_index_text in Ej.
      rewrite <- Hi, <- Ej, String.eqb_refl in Hne. discriminate.
  - apply Hfront. unfold key_before. rewrite Hi, Ej. reflexivity.
Qed.

Lemma in_order_app_new k v props :
  array_index k = None ->
  has_key k props = false ->
  in_order props = true ->
  in_order (props ++ [(k, v)]) = true.
Proof.
  intros Hi. induction props as [|[k' v'] props IH]; intros Hk H; [reflexivity|].
  cbn [has_key] in Hk. apply orb_false_elim in Hk. destruct Hk as [Hne Hk].
  cbn [app]. rewrite in_order_cons in H |- *.
  apply andb_prop in H. destruct H as [H H3].
  apply andb_prop in H. destruct H as [H1 H2].
  rewrite has_key_app, forallb_app, (IH Hk H3), H2.
  apply negb_true_iff in H1. rewrite H1.
  cbn [has_key forallb fst]. rewrite String.eqb_sym, Hne.
  unfold key_before. rewrite Hi.
  destruct (array_index k'); reflexivity.
Qed.

(** [CreateDataProperty] keeps the properties in enumeration order. *)
Lemma in_order_set_prop k v props :
  in_order props = true -> in_order (set_prop k v props) = true.
Proof.
  intros H. unfold set_prop. destruct (has_key k props) eqn:Ek.
  - rewrite in_order_replace_prop. exact H.
  - destruct (array_index k) as [i|] eqn:Ei.
    + apply in_order_insert_index; assumption.
    + apply in_order_app_new; assumption.
Qed.

Lemma forallb_replace_prop (P : JsVal -> bool) k v props :
  P v = true ->
  forallb (fun kv : string * JsVal => P (snd kv)) props = true ->
  forallb (fun kv : string * JsVal => P (snd kv)) (replace_prop k v props) = true.
Proof.
  intros Hv. induction props as [|[k' v'] props IH]; intros H; [reflexivity|].
  cbn [forallb snd] in H. apply andb_prop in H. destruct H as [H1 H2].
  cbn [replace_prop]. destruct (String.eqb k' k); cbn [forallb snd].
  - rewrite Hv, H2. reflexivity.
  - rewrite H1, (IH H2). reflexivity.
Qed.

Lemma forallb_set_prop (P : JsVal -> bool) k v props :
  P v = true ->
  forallb (fun kv : string * JsVal => P (snd kv)) props = true ->
  forallb (fun kv : string * JsVal => P (snd kv)) (set_prop k v props) = true.
Proof.
  intros Hv H. unfold set_prop. destruct (has_key k props).
  - apply forallb_replace_prop; assumption.
  - destruct (array_index k) as [i|].
    + rewrite forallb_insert_index. cbn [snd]. rewrite Hv, H. reflexivity.
    + rewrite forallb_app. cbn [forallb snd]. rewrite Hv, H. reflexivity.
Qed.

Lemma expect_literal_value lit v0 s v rest :
  expect_literal lit v0 s = Parsed v rest -> v = v0.
Proof.
  unfold expect_literal. destruct (String.prefix lit s); [|discriminate].
  intros H. injection H as <- _. reflexivity.
Qed.

(** The parser builds values of the kind [json_value] describes. *)
Lemma parse_builds_json_value f :
  (forall s v rest, parse_value f s = Parsed v rest -> json_value v = true) /\
  (forall s acc v rest,
      in_order acc = true ->
      forallb (fun kv : string * JsVal => json_value (snd kv)) acc = true ->
      parse_members f s acc = Parsed v rest -> json_value v = true) /\
  (forall s acc v rest,
      forallb json_value acc = true ->
      parse_elements f s acc = Parsed v rest -> json_value v = true).
Proof.
  induction f as [|f (IHv & IHm & IHe)];
    [repeat split; intros; discriminate|].
  split; [|split].
  - intros s v rest. cbn [parse_value].
    destruct (skip_ws s) as [|c r]; [discriminate|]. cbv zeta.
    destruct (Nat.eqb (nat_of_ascii c) 123).
    { destruct (starts_with "}" (skip_ws r)).
      - intros H. injection H as <- _. reflexivity.
      - apply IHm; reflexivity. }
    destruct (Nat.eqb (nat_of_ascii c) 91).
    { destruct (starts_with "]" (skip_ws r)).
      - intros H. injection H as <- _. reflexivity.
      - apply IHe; reflexivity. }
    destruct (Nat.eqb (nat_of_ascii c) 34).
    { destruct (parse_string r); try discriminate.
      intros H. injection H as <- _. reflexivity. }
    destruct (Nat.eqb (nat_of_ascii c) 45 || is_digit c).
    { destruct (parse_number (String c r)) as [x rest'| |] eqn:En; try discriminate.
      intros H. injection H as <- _.
      cbn [json_value JNum]. unfold JNum. cbn [json_value].
      apply (parse_number_normal_value _ _ _ En). }
    destruct (Nat.eqb (nat_of_ascii c) 116).
    { intros H. apply expect_literal_value in H. subst v. reflexivity. }
    destruct (Nat.eqb (nat_of_ascii c) 102).
    { intros H. apply expect_literal_value in H. subst v. reflexivity. }
    destruct (Nat.eqb (nat_of_ascii c) 110).
    { intros H. apply expect_literal_value in H. subst v. reflexivity. }
    discriminate.
  - intros s acc v rest Ho Ha. cbn [parse_members].
    destruct (starts_with (ascii_of_nat 34) (skip_ws s)) as [r|]; [|discriminate].
    destruct (parse_string r) as [k r1| |]; try discriminate.
    destruct (starts_with ":" (skip_ws r1)) as [r2|]; [|discriminate].
    destruct (parse_value f r2) as [x r3| |] eqn:Ex; try discriminate.
    cbv zeta.
    pose proof (IHv _ _ _ Ex) as Hx.
    pose proof (in_order_set_prop k x acc Ho) as Ho'.
    pose proof (forallb_set_prop json_value k x acc Hx Ha) as Ha'.
    destruct (starts_with "," (skip_ws r3)) as [r4|].
    + apply IHm; assumption.
    + destruct (starts_with "}" (skip_ws r3)); [|discriminate].
      intros H. injection H as <- _. cbn [json_value]. rewrite Ho', Ha'. reflexivity.
  - intros s acc v rest Ha. cbn [parse_elements].
    destruct (parse_value f s) as [x r1| |] eqn:Ex; try discriminate.
    cbv zeta.
    pose proof (IHv _ _ _ Ex) as Hx.
    assert (Ha' : forallb json_value (acc ++ [x]) = true).
    { rewrite forallb_app. cbn [forallb]. rewrite Ha, Hx. reflexivity. }
    destruct (starts_with "," (skip_ws r1)) as [r2|].
    + apply IHe; assumption.
    + destruct (starts_with "]" (skip_ws r1)); [|discriminate].
      intros H. injection H as <- _. cbn [json_value]. exact Ha'.
Qed.

(** Every value [JSON.parse] returns is a [json_value]. *)
Lemma JSON_parse_json_value text v :
  JSON_parse text = Some v -> json_value v = true.
Proof.
  unfold JSON_parse.
  destruct (parse_value _ text) as [x rest| |] eqn:E; try discriminate.
  destruct (skip_ws rest); [|discriminate].
  intros H. injection H as <-.
  apply (proj1 (parse_builds_json_value _) _ _ _ E).
Qed.

Lemma lookup_json_field k props :
  forallb (fun kv : string * JsVal => json_value (snd kv)) props = true ->
  json_field (lookup k props) = true.
Proof.
  induction props as [|[k' v'] props IH]; intros H; [reflexivity|].
  cbn [forallb snd] in H. apply andb_prop in H. destruct H as [H1 H2].
  cbn [lookup]. destruct (String.eqb k' k); [|apply IH; exact H2].
  unfold json_field. rewrite H1. apply orb_true_r.
Qed.

Lemma get_json_field k v : json_value v = true -> json_field (get k v) = true.
Proof.
  destruct v as [p|items|props]; try reflexivity.
  cbn [json_value get]. intros H. apply andb_prop in H. destruct H as [_ H].
  apply lookup_json_field. exact H.
Qed.

(** The body of a request, parsed by [express.json()] and taken apart
    on line 57, is a [json_body]. *)
Lemma request_body_json text v :
  JSON_parse text = Some v -> json_body (request_body v) = true.
Proof.
  intros H. apply JSON_parse_json_value in H.
  unfold json_body, request_body. cbn [forallb name phone email date time guests notes].
  rewrite !(get_json_field _ v H). reflexivity.
Qed.

(** ** Timestamps are not numbers *)

Lemma string_rev_snoc a c :
  string_rev (a ++ String c "") = String c (string_rev a).
Proof.
  unfold string_rev.
  assert (H : list_ascii_of_string (a ++ String c "")
              = (list_ascii_of_string a ++ [c])%list).
  { induction a as [|x a IH]; [reflexivity|]. cbn. rewrite IH. reflexivity. }
  rewrite H, rev_app_distr. reflexivity.
Qed.

Lemma string_rev_involutive s : string_rev (string_rev s) = s.
Proof.
  unfold string_rev. rewrite list_ascii_of_string_of_list_ascii, rev_involutive.
  apply string_of_list_ascii_of_string.
Qed.

Lemma sign_or_digit_cases c :
  sign_or_digit c = true ->
  c = "+"%char \/ c = "-"%char \/ is_digit c = true.
Proof.
  unfold sign_or_digit. intros H.
  apply orb_prop in H. destruct H as [H|H].
  - apply orb_prop in H. destruct H as [H|H]; [tauto|].
    apply Ascii.eqb_eq in H. tauto.
  - apply Ascii.eqb_eq in H. tauto.
Qed.

Lemma no_leading_space c r :
  sign_or_digit c = true ->
  drop_leading (String.length (String c r)) str_white_space (String c r)
  = String c r.
Proof.
  intros H. cbn [String.length drop_leading].
  assert (Hf : find (fun p => String.prefix p (String c r)) str_white_space = None).
  { destruct (sign_or_digit_cases c H) as [E|[E|E]];
      [subst c; reflexivity|subst c; reflexivity|].
    destruct (is_digit_cases c E) as [E0|[E0|[E0|[E0|[E0|[E0|[E0|[E0|[E0|E0]]]]]]]]];
      subst c; reflexivity. }
  rewrite Hf. reflexivity.
Qed.

Lemma no_trailing_space n r :
  drop_leading (S n) (map string_rev str_white_space) (String "Z" r)
  = String "Z" r.
Proof. reflexivity. Qed.

Lemma trim_stamp c r :
  sign_or_digit c = true ->
  trim (String c r ++ "Z") = String c r ++ "Z".
Proof.
  intros H. unfold trim.
  change (String c r ++ "Z") with (String c (r ++ "Z")).
  rewrite (no_leading_space c (r ++ "Z") H). cbv zeta.
  cbn [String.length].
  change (String c (r ++ "Z")) with (String c r ++ String "Z" "").
  rewrite string_rev_snoc.
  rewrite no_trailing_space.
  rewrite <- string_rev_snoc. apply string_rev_involutive.
Qed.

Lemma not_radix_prefix c r :
  sign_or_digit c = true ->
  match r with
  | String p _ => sign_or_digit p = true
  | EmptyString => True
  end ->
  non_decimal_literal (String c r) = None.
Proof.
  intros Hc Hp. unfold non_decimal_literal.
  destruct (Ascii.eqb c "0") eqn:E0.
  - apply Ascii.eqb_eq in E0. subst c.
    destruct r as [|p [|x r']]; try reflexivity.
    destruct (sign_or_digit_cases p Hp) as [E|[E|E]];
      [subst p; reflexivity|subst p; reflexivity|].
    destruct (is_digit_cases p E) as [E1|[E1|[E1|[E1|[E1|[E1|[E1|[E1|[E1|E1]]]]]]]]];
      subst p; reflexivity.
  - destruct c as [[] [] [] [] [] [] [] []]; try reflexivity; discriminate.
Qed.

Lemma unsigned_digits_dash negative c d tail :
  all_digits (String c d) = true ->
  str_unsigned_literal negative (String c d ++ String "-" tail) = NaN.
Proof.
  intros Hd.
  assert (Hc : is_digit c = true).
  { cbn [all_digits] in Hd. apply andb_prop in Hd. tauto. }
  unfold str_unsigned_literal.
  assert (Hinf : String.eqb (String c d ++ String "-" tail) "Infinity" = false).
  { cbn [append String.eqb].
    destruct (is_digit_cases c Hc) as [E|[E|[E|[E|[E|[E|[E|[E|[E|E]]]]]]]]];
      subst c; reflexivity. }
  rewrite Hinf.
  rewrite (span_digits_app (String c d) (String "-" tail) Hd) by reflexivity.
  reflexivity.
Qed.

(** A run of digits, signed or not, followed by a dash is no number. *)
Lemma signed_digits_dash sign c d tail :
  sign = "" \/ sign = "+" \/ sign = "-" ->
  all_digits (String c d) = true ->
  StringToNumber (sign ++ String c d ++ String "-" (tail ++ "Z")) = NaN.
Proof.
  intros Hs Hd.
  assert (Hc : is_digit c = true).
  { cbn [all_digits] in Hd. apply andb_prop in Hd. tauto. }
  assert (Hsd : sign_or_digit c = true) by (unfold sign_or_digit; rewrite Hc; reflexivity).
  assert (Hnext : match d ++ String "-" (tail ++ "Z") with
                  | String p _ => sign_or_digit p = true
                  | EmptyString => True
                  end).
  { destruct d as [|p d']; [reflexivity|].
    cbn [append]. cbn [all_digits] in Hd.
    apply andb_prop in Hd. destruct Hd as [_ Hd].
    apply andb_prop in Hd. destruct Hd as [Hp _].
    unfold sign_or_digit. rewrite Hp. reflexivity. }
  unfold StringToNumber.
  assert (Hshape : exists a r, sign ++ String c d ++ String "-" (tail ++ "Z")
                               = String a r ++ "Z" /\ sign_or_digit a = true /\
                               non_decimal_literal (String a r ++ "Z") = None /\
                               str_decimal_literal (String a r ++ "Z") = NaN).
  { assert (Hbody : String c d ++ String "-" (tail ++ "Z")
                    = String c (d ++ String "-" tail) ++ "Z").
    { cbn [append]. rewrite app_assoc_s. reflexivity. }
    destruct Hs as [-> | [-> | ->]].
    - exists c, (d ++ String "-" tail).
      split; [exact Hbody|]. split; [exact Hsd|].
      rewrite <- Hbody. split.
      + cbn [append]. apply not_radix_prefix; assumption.
      + assert (Hu : str_decimal_literal (String c d ++ String "-" (tail ++ "Z"))
                     = str_unsigned_literal false (String c d ++ String "-" (tail ++ "Z"))).
        { cbn [append]. unfold str_decimal_literal.
          destruct (is_digit_cases c Hc) as [E|[E|[E|[E|[E|[E|[E|[E|[E|E]]]]]]]]];
            subst c; reflexivity. }
        rewrite Hu. apply unsigned_digits_dash. exact Hd.
    - exists "+"%char, (String c d ++ String "-" tail).
      split; [cbn [append]; rewrite app_assoc_s; reflexivity|].
      split; [reflexivity|].
      replace (String "+" (String c d ++ String "-" tail) ++ "Z")
        with (String "+" (String c d ++ String "-" (tail ++ "Z")))
        by (cbn [append]; rewrite app_assoc_s; reflexivity).
      split.
      + apply not_radix_prefix; [reflexivity|]. cbn [append]. exact Hsd.
      + apply (unsigned_digits_dash false c d (tail ++ "Z") Hd).
    - exists "-"%char, (String c d ++ String "-" tail).
      split; [cbn [append]; rewrite app_assoc_s; reflexivity|].
      split; [reflexivity|].
      replace (String "-" (String c d ++ String "-" tail) ++ "Z")
        with (String "-" (String c d ++ String "-" (tail ++ "Z")))
        by (cbn [append]; rewrite app_assoc_s; reflexivity).
      split.
      + apply not_radix_prefix; [reflexivity|]. cbn [append]. exact Hsd.
      + apply (unsigned_digits_dash true c d (tail ++ "Z") Hd). }
  destruct Hshape as (a & r & -> & Ha & Hn & Hdec).
  rewrite (trim_stamp a r Ha). rewrite Hn, Hdec.
  reflexivity.
Qed.

Lemma pad_digits w n :
  (0 <= n)%Z ->
  exists c d, pad w n = String c d /\ all_digits (String c d) = true.
Proof.
  intros Hn. unfold pad.
  destruct (decimal_digits_spec n Hn) as (H1 & _ & c & r & H3 & _).
  destruct (repeat_char "0" (w - String.length (decimal_digits n))) as [|z zs] eqn:Ez.
  - exists c, r. cbn [append]. rewrite <- H3. split; [reflexivity|exact H1].
  - exists z, (zs ++ decimal_digits n). split; [reflexivity|].
    change (String z (zs ++ decimal_digits n)) with (String z zs ++ decimal_digits n).
    rewrite <- Ez. rewrite all_digits_app, all_digits_zeros, H1. reflexivity.
Qed.

(** [toISOString] never yields a numeric string: [ToNumber] of a
    timestamp is [NaN]. *)
Lemma timestamp_not_numeric t : StringToNumber (toISOString t) = NaN.
Proof.
  unfold toISOString.
  destruct (civil_from_days (t / 86400000)) as [[y m] d].
  set (ms := t mod 86400000).
  match goal with
  | |- StringToNumber (year_string y ++ "-" ++ ?rest) = _ =>
      assert (Hrest : exists tail, rest = tail ++ "Z")
  end.
  { eexists. rewrite <- !app_assoc_s. reflexivity. }
  destruct Hrest as [tail ->].
  unfold year_string.
  destruct ((0 <=? y) && (y <=? 9999))%Z eqn:Ey.
  - apply andb_prop in Ey. destruct Ey as [Ey _]. apply Z.leb_le in Ey.
    destruct (pad_digits 4 y Ey) as (c & dd & -> & Hd).
    apply (signed_digits_dash "" c dd tail); [tauto|exact Hd].
  - destruct (pad_digits 6 (Z.abs y) (Z.abs_nonneg y)) as (c & dd & Hp & Hd).
    rewrite Hp. rewrite app_assoc_s.
    destruct (y <? 0)%Z.
    + apply (signed_digits_dash "-" c dd tail); [tauto|exact Hd].
    + apply (signed_digits_dash "+" c dd tail); [tauto|exact Hd].
Qed.

(** ** Submissions *)

Ltac run_monad :=
  cbv beta iota delta [bind ret throw try_catch Date_now writeFileSync
                       sendMail console_log verify readdirSync readFileSync
                       evaluated];
  cbn [files outbox console ticks].

Lemma absent_or_empty_falsy v : absent_or_empty v = true -> truthy v = false.
Proof.
  destruct v as [[| | |n|s]| |]; try discriminate; try reflexivity.
  destruct s; [reflexivity|discriminate].
Qed.

Lemma missing_short_circuit env st b w :
  missing_required b = true ->
  post_reservations env st b w
  = (Returned (json_message 400 false "Missing required fields"), w).
Proof.
  intros H. unfold post_reservations. rewrite H. reflexivity.
Qed.

(** What a submission that passed validation does from the write on. *)
Lemma post_valid_unfold env st b w :
  missing_required b = false ->
  post_reservations env st b w =
  try_catch
    (writeFileSync env (fileName (submission_id env w)) (submission_text env w b) ;;;
     saved <- evaluated (ToString (name b)) ;;
     console_log ("✓ Reservation saved: " ++ saved ++ " - "
                  ++ path_join (dataDir env) (fileName (submission_id env w))) ;;;
     emailSent <- (if emailConfigured st && transporter st
                   then send_both env b else ret false) ;;
     ret (json_message 200 true
            (if emailSent : bool then message_sent else message_received)))
    (fun error =>
       console_log ("Error processing reservation: " ++ message_of error) ;;;
       ret (failure_response env error))
    {| files := files w; outbox := outbox w; console := console w;
       ticks := S (S (ticks w)) |}.
Proof.
  intros H. unfold post_reservations. rewrite H.
  reflexivity.
Qed.

(** Where the message to the restaurant can be built, so can the one
    to the guest, and the address of the guest can be shown. *)
Lemma messages_built env b m1 :
  mailOptions env b = Some m1 ->
  exists m2 to, confirmationEmail env b = Some m2 /\
                ToString (email b) = Some to.
Proof.
  unfold mailOptions, confirmationEmail.
  destruct (ToString (name b)); [|discriminate].
  destruct (ToString (phone b)); [|discriminate].
  destruct (ToString (email b)); [|discriminate].
  destruct (format_date env (date b)); [|discriminate].
  destruct (ToString (time b)); [|discriminate].
  destruct (ToString (guests b)); [|discriminate].
  intros _. eexists. eexists. split; reflexivity.
Qed.


Section Submission.
Variable env : Env.
Variable st : ServerState.
Variable b : Body.
Variable w : World.

Lemma storage_failure_run e :
  missing_required b = false ->
  disk_write env (files w) (fileName (submission_id env w))
    (submission_text env w b) = Some e ->
  exists w',
    post_reservations env st b w = (Returned (failure_response env e), w') /\
    files w' = interrupted_write env (fileName (submission_id env w))
                 (submission_text env w b) (files w) /\
    outbox w' = outbox w /\
    ticks w' = S (S (ticks w)).
Proof.
  intros Hv Hd. rewrite (post_valid_unfold env st b w Hv).
  run_monad. rewrite Hd.
  eexists. split; [reflexivity|]. repeat split.
Qed.

(** A name that cannot be shown: the record is written, then the log
    line throws and the outer [catch] answers. *)
Lemma unshown_run :
  missing_required b = false ->
  disk_write env (files w) (fileName (submission_id env w))
    (submission_text env w b) = None ->
  ToString (name b) = None ->
  exists w',
    post_reservations env st b w
    = (Returned (failure_response env conversion_error), w') /\
    files w' = upsert (fileName (submission_id env w)) (submission_text env w b)
                 (files w) /\
    outbox w' = outbox w /\
    ticks w' = S (S (ticks w)).
Proof.
  intros Hv Hd Hn. rewrite (post_valid_unfold env st b w Hv).
  rewrite Hn. run_monad. rewrite Hd.
  eexists. split; [reflexivity|]. repeat split.
Qed.

Lemma not_ready_run :
  missing_required b = false ->
  disk_write env (files w) (fileName (submission_id env w))
    (submission_text env w b) = None ->
  ToString (name b) <> None ->
  emailConfigured st && transporter st = false ->
  exists w',
    post_reservations env st b w
    = (Returned (json_message 200 true message_received), w') /\
    files w' = upsert (fileName (submission_id env w)) (submission_text env w b)
                 (files w) /\
    outbox w' = outbox w /\
    ticks w' = S (S (ticks w)).
Proof.
  intros Hv Hd Hs Hn. rewrite (post_valid_unfold env st b w Hv).
  destruct (ToString (name b)) as [shown|]; [|contradiction].
  rewrite Hn. run_monad. rewrite Hd.
  eexists. split; [reflexivity|]. repeat split.
Qed.

(** The sends of a submission handled while the channel is ready. *)
Lemma ready_run :
  missing_required b = false ->
  disk_write env (files w) (fileName (submission_id env w))
    (submission_text env w b) = None ->
  ToString (name b) <> None ->
  emailConfigured st && transporter st = true ->
  exists w',
    match mailOptions env b with
    | None =>
        post_reservations env st b w
        = (Returned (json_message 200 true message_received), w') /\
        outbox w' = outbox w
    | Some m1 =>
        match smtp_send env (outbox w) m1 with
        | Some _ =>
            post_reservations env st b w
            = (Returned (json_message 200 true message_received), w') /\
            outbox w' = (outbox w ++ [(m1, false)])%list
        | None =>
            exists m2,
              confirmationEmail env b = Some m2 /\
              match smtp_send env (outbox w ++ [(m1, true)]) m2 with
              | Some _ =>
                  post_reservations env st b w
                  = (Returned (json_message 200 true message_received), w') /\
                  outbox w' = (outbox w ++ [(m1, true); (m2, false)])%list
              | None =>
                  post_reservations env st b w
                  = (Returned (json_message 200 true message_sent), w') /\
                  outbox w' = (outbox w ++ [(m1, true); (m2, true)])%list
              end
        end
    end /\
    files w' = upsert (fileName (submission_id env w)) (submission_text env w b)
                 (files w) /\
    ticks w' = S (S (ticks w)).
Proof.
  intros Hv Hd Hs Hr. rewrite (post_valid_unfold env st b w Hv).
  destruct (ToString (name b)) as [shown|]; [|contradiction].
  rewrite Hr. unfold send_both.
  destruct (mailOptions env b) as [m1|] eqn:Em.
  - destruct (messages_built env b m1 Em) as (m2 & to & Hm2 & Hto).
    rewrite Hm2, Hto. run_monad. rewrite Hd. run_monad.
    destruct (smtp_send env (outbox w) m1); run_monad.
    + eexists. split; [split; reflexivity|split; reflexivity].
    + destruct (smtp_send env (outbox w ++ [(m1, true)]) m2) eqn:E2; run_monad;
        (eexists; split;
         [exists m2; split; [reflexivity|rewrite E2; split; [reflexivity|]]
         |split; reflexivity]);
        cbn [outbox]; rewrite <- app_assoc; reflexivity.
  - run_monad. rewrite Hd. run_monad.
    eexists. split; [split; reflexivity|split; reflexivity].
Qed.

(** Whatever the channel does, a submission whose write is accepted
    leaves its record in the directory; it is answered with status 200
    unless its name cannot be shown. *)
Lemma stored_run :
  missing_required b = false ->
  disk_write env (files w) (fileName (submission_id env w))
    (submission_text env w b) = None ->
  exists r w',
    post_reservations env st b w = (Returned r, w') /\
    (ToString (name b) <> None -> status r = 200 /\ success r = true) /\
    (ToString (name b) = None -> status r = 500 /\ success r = false) /\
    files w' = upsert (fileName (submission_id env w)) (submission_text env w b)
                 (files w).
Proof.
  intros Hv Hd.
  destruct (ToString (name b)) as [shown|] eqn:Es.
  - assert (Hs : ToString (name b) <> None) by (rewrite Es; discriminate).
    destruct (emailConfigured st && transporter st) eqn:Hr.
    + destruct (ready_run Hv Hd Hs Hr) as (w' & Hm & Hf & _).
      destruct (mailOptions env b) as [m1|].
      * destruct (smtp_send env (outbox w) m1).
        -- destruct Hm as [Hp _]. rewrite Hp. eexists. eexists.
           split; [reflexivity|]. repeat split; try assumption; discriminate.
        -- destruct Hm as (m2 & _ & Hm).
           destruct (smtp_send env (outbox w ++ [(m1, true)]) m2);
             destruct Hm as [Hp _]; rewrite Hp; eexists; eexists;
             (split; [reflexivity|]); repeat split; try assumption; discriminate.
      * destruct Hm as [Hp _]. rewrite Hp. eexists. eexists.
        split; [reflexivity|]. repeat split; try assumption; discriminate.
    + destruct (not_ready_run Hv Hd Hs Hr) as (w' & Hp & Hf & _).
      rewrite Hp. eexists. eexists.
      split; [reflexivity|]. repeat split; try assumption; discriminate.
  - destruct (unshown_run Hv Hd Es) as (w' & Hp & Hf & _).
    rewrite Hp. eexists. eexists.
    split; [reflexivity|]. repeat split; try assumption; congruence.
Qed.
End Submission.

(** The channel state [initializeEmail] leaves behind: Disabled without
    both credentials, Unavailable when the verification throws, Ready
    otherwise. *)
Lemma channel_after_startup env w :
  exists st w',
    initializeEmail env w = (Returned st, w') /\
    files w' = files w /\ outbox w' = outbox w /\
    channel_state st
    = if ToBoolean (env_prim (GMAIL_USER env))
         && ToBoolean (env_prim (GMAIL_PASSWORD env))
      then match smtp_verify env with
           | None => Ready
           | Some _ => Unavailable
           end
      else Disabled.
Proof.
  unfold initializeEmail.
  destruct (ToBoolean (env_prim (GMAIL_USER env))
            && ToBoolean (env_prim (GMAIL_PASSWORD env))).
  - run_monad. destruct (smtp_verify env); run_monad;
      (eexists; eexists; split; [reflexivity|]; repeat split).
  - eexists. eexists. split; [reflexivity|]. repeat split.
Qed.

(** A number that is not finite is written as [null]. *)
Lemma non_finite_written_as_null indent n :
  match n with Fin _ | Frac _ _ => False | _ => True end ->
  SerializeJSONProperty indent (JNum n) = Some "null".
Proof. destruct n; intros H; try reflexivity; contradiction. Qed.

(** ** The record of a submission *)

Lemma truthy_defined v : truthy v = true -> is_defined v = true.
Proof. destruct v as [[| |[|]|[]|]| |]; try reflexivity; discriminate. Qed.

Lemma required_present b :
  missing_required b = false ->
  truthy (name b) = true /\ truthy (phone b) = true /\
  truthy (email b) = true /\ truthy (date b) = true /\
  truthy (time b) = true /\ truthy (guests b) = true.
Proof.
  unfold missing_required. intros H.
  repeat (apply orb_false_elim in H; destruct H as [H ?]).
  repeat match goal with
         | H : negb _ = false |- _ => apply negb_false_iff in H
         end.
  tauto.
Qed.

Lemma kept_property (k : string) v :
  is_defined v = true ->
  match v with
  | JPrim PUndefined => []
  | _ => [(k, read_back v)]
  end = [(k, read_back v)].
Proof. destruct v as [[| |[|]|[]|]| |]; try reflexivity; discriminate. Qed.

Lemma undefined_property v :
  is_defined v = false -> v = JUndefined.
Proof. destruct v as [[| |[|]|[]|]| |]; try reflexivity; discriminate. Qed.

Lemma fold_record_props v0 v1 v2 v3 v4 v5 v6 v7 v8 :
  fold_left set_field
    [("id", v0); ("name", v1); ("phone", v2); ("email", v3); ("date", v4);
     ("time", v5); ("guests", v6); ("notes", v7); ("submittedAt", v8)] []
  = [("id", v0); ("name", v1); ("phone", v2); ("email", v3); ("date", v4);
     ("time", v5); ("guests", v6); ("notes", v7); ("submittedAt", v8)].
Proof. reflexivity. Qed.

Lemma fold_record_props_without_notes v0 v1 v2 v3 v4 v5 v6 v8 :
  fold_left set_field
    [("id", v0); ("name", v1); ("phone", v2); ("email", v3); ("date", v4);
     ("time", v5); ("guests", v6); ("submittedAt", v8)] []
  = [("id", v0); ("name", v1); ("phone", v2); ("email", v3); ("date", v4);
     ("time", v5); ("guests", v6); ("submittedAt", v8)].
Proof. reflexivity. Qed.

(** The text of a record is read back, whatever the fields hold. *)
Lemma record_text_parses id submitted b :
  JSON_parse (JSON_text (reservationData id submitted b))
  = Some (read_back (reservationData id submitted b)).
Proof. apply (JSON_round_trip (reservationData id submitted b)). Qed.

(** What is read back answers every property access as the record
    does, up to what the round trip does to each value. *)
Lemma record_read_back id submitted b :
  missing_required b = false ->
  exists props,
    read_back (reservationData id submitted b) = JObj props /\
    forall k, lookup k props = read_back (get k (reservationData id submitted b)).
Proof.
  intros Hv.
  destruct (required_present b Hv) as (T1 & T2 & T3 & T4 & T5 & T6).
  apply truthy_defined in T1, T2, T3, T4, T5, T6.
  unfold reservationData, JNum, JStr. cbn [read_back flat_map fst snd app].
  rewrite (kept_property "name" _ T1), (kept_property "phone" _ T2),
    (kept_property "email" _ T3), (kept_property "date" _ T4),
    (kept_property "time" _ T5), (kept_property "guests" _ T6).
  destruct (is_defined (notes b)) eqn:Dn.
  - rewrite (kept_property "notes" _ Dn). cbn [app].
    rewrite fold_record_props.
    eexists. split; [reflexivity|].
    intros k. cbn [get lookup].
    repeat match goal with
           | |- context [String.eqb ?a k] =>
               destruct (String.eqb a k); [reflexivity|]
           end.
    reflexivity.
  - rewrite (undefined_property _ Dn). unfold JUndefined. cbn [app].
    rewrite fold_record_props_without_notes.
    eexists. split; [reflexivity|].
    intros k. cbn [get lookup].
    repeat match goal with
           | |- context [String.eqb ?a k] =>
               destruct (String.eqb a k) eqn:?; [try reflexivity|]
           end; try reflexivity.
    all: match goal with
         | E : String.eqb "notes" ?x = true |- _ => apply String.eqb_eq in E; subst x
         end.
    all: first [reflexivity | discriminate].
Qed.

Lemma read_back_field v :
  json_field v = true -> read_back v = non_finite_to_null v.
Proof.
  unfold json_field. intros H. apply orb_prop in H. destruct H as [H|H].
  - apply negb_true_iff in H. rewrite (undefined_property v H). reflexivity.
  - apply read_back_json. exact H.
Qed.

Lemma normal_below_ten_21 z :
  - 10 ^ 21 < z < 10 ^ 21 -> normal_number (Fin z) = true.
Proof.
  intros Hz. cbn [normal_number]. apply Z.ltb_lt.
  pose proof ten_21_below_overflow as H. apply Z.leb_gt in H. lia.
Qed.

Lemma record_fields_json id submitted b :
  - 10 ^ 21 < id < 10 ^ 21 ->
  json_body b = true ->
  forall k, json_field (get k (reservationData id submitted b)) = true.
Proof.
  intros Hid Hj k.
  unfold json_body in Hj. cbn [forallb] in Hj.
  repeat (apply andb_prop in Hj; destruct Hj as [? Hj]).
  cbn [get reservationData lookup].
  repeat match goal with
         | |- context [String.eqb ?a k] =>
             destruct (String.eqb a k); [try assumption|]
         end; try reflexivity.
  unfold json_field. cbn [is_defined JNum negb orb json_value].
  apply normal_below_ten_21. exact Hid.
Qed.

(** The record of a submission whose fields are as [express.json()]
    builds them is read back with every number that is not finite
    replaced by [null], and otherwise as it was written. *)
Lemma record_stored id submitted b :
  - 10 ^ 21 < id < 10 ^ 21 ->
  missing_required b = false ->
  json_body b = true ->
  exists props,
    JSON_parse (JSON_text (reservationData id submitted b)) = Some (JObj props) /\
    forall k, lookup k props
              = non_finite_to_null (get k (reservationData id submitted b)).
Proof.
  intros Hid Hv Hj.
  destruct (record_read_back id submitted b Hv) as (props & Hp & Hget).
  exists props. split; [rewrite record_text_parses, Hp; reflexivity|].
  intros k. rewrite Hget. apply read_back_field.
  apply record_fields_json; assumption.
Qed.

(** ** Claims about [POST /api/reservations] *)

Lemma upsert_content n d fs : file_content n (upsert n d fs) = Some d.
Proof.
  induction fs as [|[n' d'] r IH]; simpl.
  - rewrite String.eqb_refl. reflexivity.
  - destruct (String.eqb n' n) eqn:E; simpl; rewrite E; auto.
Qed.

Lemma upsert_other n d fs n0 :
  n0 <> n -> file_content n0 (upsert n d fs) = file_content n0 fs.
Proof.
  intros Hne. induction fs as [|[n' d'] r IH]; simpl.
  - destruct (String.eqb n n0) eqn:E; [|reflexivity].
    apply String.eqb_eq in E. congruence.
  - destruct (String.eqb n' n) eqn:E; simpl.
    + apply String.eqb_eq in E. subst n'.
      destruct (String.eqb n n0) eqn:E'; [|reflexivity].
      apply String.eqb_eq in E'. congruence.
    + rewrite IH. reflexivity.
Qed.

Lemma upsert_fresh n d fs :
  file_content n fs = None -> upsert n d fs = (fs ++ [(n, d)])%list.
Proof.
  induction fs as [|[n' d'] r IH]; simpl; [reflexivity|].
  destruct (String.eqb n' n); [discriminate|].
  intros H. rewrite IH by assumption. reflexivity.
Qed.

Lemma message_failed_has_phone :
  includes "call (214) 555-1234" message_failed = true.
Proof. reflexivity. Qed.

(** C5.  A submission in which one of name, phone, email, date, time or
    guests is absent or empty is answered with status 400,
    [success = false] and the message "Missing required fields", and
    the world is left exactly as it was: no file is written and no send
    is attempted. *)
Theorem missing_field_rejected env st b w :
  existsb absent_or_empty [name b; phone b; email b; date b; time b; guests b] = true ->
  post_reservations env st b w
  = (Returned {| status := 400; success := false;
                 message := Some "Missing required fields";
                 reservations := None; error := None |}, w).
Proof.
  intros H. apply missing_short_circuit.
  unfold missing_required. simpl in H.
  repeat (apply orb_prop in H; destruct H as [H|H]);
    try (apply absent_or_empty_falsy in H; rewrite H; simpl;
         rewrite ?orb_true_r; reflexivity).
  discriminate.
Qed.

Lemma missing_field_rejected_witness :
  post_reservations env_ok st_ready (sample_body (PStr "")) empty_world
  = (Returned {| status := 400; success := false;
                 message := Some "Missing required fields";
                 reservations := None; error := None |}, empty_world).
Proof.
  apply (missing_field_rejected env_ok st_ready (sample_body (PStr "")) empty_world).
  reflexivity.
Defined.

(** C6.  When a submission passes validation and the write of its
    record throws, the answer is status 500 with [success = false] and a
    message that tells the guest to call the restaurant, and no send is
    attempted.  The directory is as the failed write left it: as it
    was when the file could not be opened, and otherwise with the file
    holding what had been written of the record. *)
Theorem storage_failure_aborts env st b w e :
  missing_required b = false ->
  disk_write env (files w) (fileName (submission_id env w))
    (submission_text env w b) = Some e ->
  exists r w',
    post_reservations env st b w = (Returned r, w') /\
    status r = 500 /\ success r = false /\
    message r = Some message_failed /\
    includes "call (214) 555-1234" message_failed = true /\
    files w' = interrupted_write env (fileName (submission_id env w))
                 (submission_text env w b) (files w) /\
    (disk_partial env (files w) (fileName (submission_id env w))
       (submission_text env w b) = None -> files w' = files w) /\
    outbox w' = outbox w.
Proof.
  intros Hv Hd.
  destruct (storage_failure_run env st b w e Hv Hd) as (w' & H1 & H2 & H3 & _).
  exists (failure_response env e), w'.
  split; [exact H1|]. repeat split; try assumption.
  intros Hp. rewrite H2. unfold interrupted_write. rewrite Hp. reflexivity.
Qed.

Lemma storage_failure_aborts_witness :
  exists r w',
    post_reservations env_disk_full st_ready (sample_body (PNum (Fin 4))) empty_world
    = (Returned r, w') /\
    status r = 500 /\ success r = false /\
    message r = Some message_failed /\
    includes "call (214) 555-1234" message_failed = true /\
    files w' = [] /\ outbox w' = [].
Proof.
  destruct (storage_failure_aborts env_disk_full st_ready
              (sample_body (PNum (Fin 4))) empty_world
              (Error "ENOSPC: no space left on device") eq_refl eq_refl)
    as (r & w' & H1 & H2 & H3 & H4 & H5 & _ & H7 & H8).
  exists r, w'. repeat split; try assumption. apply H7. reflexivity.
Defined.

Lemma not_ready_flag st :
  channel_state st <> Ready -> emailConfigured st && transporter st = false.
Proof.
  unfold channel_state. destruct (transporter st), (emailConfigured st);
    intros H; try reflexivity. exfalso. apply H. reflexivity.
Qed.

(** C7, as stated, fails: a name that cannot be shown as text (here an
    object with a [toString] property of its own) passes the
    validation and is written, and then the log line of line 83
    throws: the answer is 500, with the channel Disabled and nothing
    wrong with the disk. *)
Lemma unshown_name_answered_500 :
  missing_required unshown_body = false /\
  channel_state st_disabled <> Ready /\
  disk_write env_ok (files empty_world) (fileName (submission_id env_ok empty_world))
    (submission_text env_ok empty_world unshown_body) = None /\
  fst (post_reservations env_ok st_disabled unshown_body empty_world)
  = Returned {| status := 500; success := false;
                message := Some message_failed;
                reservations := None; error := None |} /\
  map fst (files (snd (post_reservations env_ok st_disabled unshown_body
                         empty_world)))
  = ["reservation-1700000000000.json"].
Proof. repeat split. discriminate. Qed.

(** C7 amended.  A submission that passes validation while the channel
    is Disabled or Unavailable, whose record is written and whose name
    can be shown as text, is answered with status 200 and
    [success = true]; no send is attempted, nothing is thrown, and the
    message is the "we will contact you" variant, not the
    "confirmation email shortly" one. *)
Theorem degraded_channel_still_succeeds env st b w :
  missing_required b = false ->
  channel_state st <> Ready ->
  disk_write env (files w) (fileName (submission_id env w))
    (submission_text env w b) = None ->
  ToString (name b) <> None ->
  exists w',
    post_reservations env st b w
    = (Returned {| status := 200; success := true;
                   message := Some message_received;
                   reservations := None; error := None |}, w') /\
    outbox w' = outbox w /\
    includes "We will contact you" message_received = true /\
    includes "confirmation email shortly" message_received = false.
Proof.
  intros Hv Hn Hd Hs. apply not_ready_flag in Hn.
  destruct (not_ready_run env st b w Hv Hd Hs Hn) as (w' & H1 & _ & H3 & _).
  exists w'. repeat split; assumption.
Qed.

Lemma degraded_channel_still_succeeds_witness :
  exists w',
    post_reservations env_ok st_disabled (sample_body (PNum (Fin 4))) empty_world
    = (Returned {| status := 200; success := true;
                   message := Some message_received;
                   reservations := None; error := None |}, w') /\
    outbox w' = [] /\
    includes "We will contact you" message_received = true /\
    includes "confirmation email shortly" message_received = false.
Proof.
  apply (degraded_channel_still_succeeds env_ok st_disabled
           (sample_body (PNum (Fin 4))) empty_world).
  - reflexivity.
  - discriminate.
  - reflexivity.
  - discriminate.
Defined.

(** C8, as stated, fails: a guest count that is not a finite number
    (the body said [1e999]) passes the validation, and what is stored
    for it is [null], not the caller's value. *)
Lemma infinite_guests_stored_as_null :
  missing_required (sample_body (PNum PosInf)) = false /\
  exists data stored,
    file_content "reservation-1700000000000.json" (files after_infinite_guests)
    = Some data /\
    JSON_parse data = Some stored /\
    get "guests" stored = JNull /\
    get "guests" stored <> guests (sample_body (PNum PosInf)).
Proof.
  split; [reflexivity|]. eexists. eexists.
  split; [reflexivity|]. split; [vm_compute; reflexivity|].
  split; [reflexivity|discriminate].
Qed.

(** C8 amended.  A submission that passes validation and whose write
    is accepted leaves one record file: the directory afterwards is the
    directory before with the file [reservation-<id>.json] set to the
    serialised record, a new entry when no file of that name existed.
    The text of the file parses to a record whose [id] is the clock
    reading of [Date.now()], whose [submittedAt] is the ISO-8601
    rendering of the clock reading of [new Date()], and whose other
    fields are the caller's values with every number that is not
    finite replaced by [null]; a field that holds no such number is
    stored unchanged, and an absent [notes] stays absent. *)
Theorem valid_submission_creates_record env st b w :
  missing_required b = false ->
  json_body b = true ->
  - 10 ^ 21 < submission_id env w < 10 ^ 21 ->
  disk_write env (files w) (fileName (submission_id env w))
    (submission_text env w b) = None ->
  exists r w' stored,
    post_reservations env st b w = (Returned r, w') /\
    (ToString (name b) <> None -> status r = 200) /\
    files w' = upsert (fileName (submission_id env w)) (submission_text env w b)
                 (files w) /\
    file_content (fileName (submission_id env w)) (files w')
    = Some (submission_text env w b) /\
    (forall n, n <> fileName (submission_id env w) ->
               file_content n (files w') = file_content n (files w)) /\
    (file_content (fileName (submission_id env w)) (files w) = None ->
     files w' = (files w ++ [(fileName (submission_id env w),
                              submission_text env w b)])%list) /\
    fileName (submission_id env w)
    = "reservation-" ++ NumberToString (Fin (clock env (ticks w))) ++ ".json" /\
    JSON_stringify (submission_record env w b) = Some (submission_text env w b) /\
    JSON_parse (submission_text env w b) = Some stored /\
    get "id" stored = JNum (Fin (clock env (ticks w))) /\
    get "submittedAt" stored = JStr (toISOString (clock env (S (ticks w)))) /\
    get "name" stored = non_finite_to_null (name b) /\
    get "phone" stored = non_finite_to_null (phone b) /\
    get "email" stored = non_finite_to_null (email b) /\
    get "date" stored = non_finite_to_null (date b) /\
    get "time" stored = non_finite_to_null (time b) /\
    get "guests" stored = non_finite_to_null (guests b) /\
    get "notes" stored = non_finite_to_null (notes b) /\
    (forall v, In v [name b; phone b; email b; date b; time b; guests b; notes b] ->
               finite_only v = true -> non_finite_to_null v = v).
Proof.
  intros Hv Hj Hid Hd.
  destruct (stored_run env st b w Hv Hd) as (r & w' & H1 & H2 & _ & H4).
  destruct (record_stored (submission_id env w) (submission_stamp env w) b Hid Hv Hj)
    as (props & Hp & Hget).
  exists r, w', (JObj props).
  split; [exact H1|]. split; [intros Hs; apply (H2 Hs)|]. split; [exact H4|].
  rewrite H4.
  split; [apply upsert_content|].
  split; [intros n Hn; apply upsert_other; exact Hn|].
  split; [apply upsert_fresh|].
  split; [reflexivity|]. split; [reflexivity|]. split; [exact Hp|].
  cbn [get]. rewrite !Hget.
  repeat (split; [reflexivity|]).
  intros v _. apply non_finite_to_null_finite.
Qed.

Lemma valid_submission_creates_record_witness :
  exists r w' stored,
    post_reservations env_ok st_ready (sample_body (PNum (Fin 4))) empty_world
    = (Returned r, w') /\
    status r = 200 /\
    files w' = [("reservation-1700000000000.json",
                 JSON_text (reservationData 1700000000000 1700000000001
                              (sample_body (PNum (Fin 4)))))] /\
    JSON_parse (JSON_text (reservationData 1700000000000 1700000000001
                             (sample_body (PNum (Fin 4))))) = Some stored /\
    get "guests" stored = JNum (Fin 4) /\
    get "name" stored = JStr "Asha Rao".
Proof.
  destruct (valid_submission_creates_record env_ok st_ready
              (sample_body (PNum (Fin 4))) empty_world eq_refl eq_refl)
    as (r & w' & stored & H1 & H2 & H3 & _ & _ & _ & _ & _ & H9 & _ & _ & H12
        & _ & _ & _ & _ & H17 & _);
    [split; reflexivity|reflexivity|].
  exists r, w', stored. split; [exact H1|].
  split; [apply H2; discriminate|]. split; [exact H3|].
  split; [exact H9|]. split; [exact H17|exact H12].
Defined.

(** C9, as stated, fails: validation looks at presence only, so a
    guest count that is not a positive integer (here the text "plenty")
    is stored like any other. *)
Lemma non_integer_guests_stored :
  positive_integer (guests (sample_body (PStr "plenty"))) = false /\
  files (snd (post_reservations env_ok st_ready (sample_body (PStr "plenty"))
                empty_world))
  = [("reservation-1700000000000.json",
      JSON_text (reservationData 1700000000000 1700000000001
                   (sample_body (PStr "plenty"))))] /\
  get "guests" (reservationData 1700000000000 1700000000001
                  (sample_body (PStr "plenty"))) = JStr "plenty".
Proof. repeat split. Qed.

(** C9 amended.  A submission changes the directory only if the guests
    value it was submitted with is truthy (present and not the empty
    string, zero, [null], [false] or [NaN]); a submission whose guests
    value is falsy stores nothing. *)
Theorem stored_guests_truthy env st b w :
  files (snd (post_reservations env st b w)) <> files w ->
  truthy (guests b) = true.
Proof.
  intros Hch. destruct (truthy (guests b)) eqn:Hg; [reflexivity|].
  exfalso. apply Hch.
  rewrite missing_short_circuit; [reflexivity|].
  unfold missing_required. rewrite Hg. simpl. apply orb_true_r.
Qed.

Lemma stored_guests_truthy_witness :
  truthy (guests (sample_body (PStr "plenty"))) = true.
Proof.
  apply (stored_guests_truthy env_ok st_ready (sample_body (PStr "plenty"))
           empty_world).
  discriminate.
Defined.

(** C2, as stated, fails: both sends sit in one [try] block, so when
    the restaurant-facing send throws, the guest-facing send is never
    attempted. *)
Lemma second_send_skipped_after_failure :
  exists m1 m2,
    mailOptions env_first_send_fails (sample_body (PNum (Fin 4))) = Some m1 /\
    confirmationEmail env_first_send_fails (sample_body (PNum (Fin 4))) = Some m2 /\
    fst (post_reservations env_first_send_fails st_ready
           (sample_body (PNum (Fin 4))) empty_world)
    = Returned (json_message 200 true message_received) /\
    outbox (snd (post_reservations env_first_send_fails st_ready
                   (sample_body (PNum (Fin 4))) empty_world))
    = [(m1, false)] /\
    smtp_send env_first_send_fails [(m1, false)] m2 = None.
Proof. eexists. eexists. repeat split. Qed.

(** C2 amended.  While the channel is Ready, a submission that passed
    validation and was stored sends the restaurant-facing message
    first and the guest-facing message only if the first send
    succeeded.  A failed send is absorbed: the answer is 200 with
    [success = true], and all it records is whether both sends
    succeeded (the "confirmation email shortly" message) or not (the
    "we will contact you" message).  When a field of the body cannot
    be shown as text, the messages cannot be built and nothing is
    sent: the answer is then 500 if that field is the name, which the
    log line after the write shows, and 200 with the "we will contact
    you" message otherwise. *)
Theorem ready_channel_sends_in_sequence env st b w :
  missing_required b = false ->
  channel_state st = Ready ->
  disk_write env (files w) (fileName (submission_id env w))
    (submission_text env w b) = None ->
  exists w',
    match ToString (name b), mailOptions env b with
    | None, _ =>
        post_reservations env st b w
        = (Returned {| status := 500; success := false;
                       message := Some message_failed;
                       reservations := None;
                       error := error (failure_response env conversion_error) |},
           w') /\
        outbox w' = outbox w
    | Some _, None =>
        post_reservations env st b w
        = (Returned (json_message 200 true message_received), w') /\
        outbox w' = outbox w
    | Some _, Some m1 =>
        match smtp_send env (outbox w) m1 with
        | Some _ =>
            post_reservations env st b w
            = (Returned (json_message 200 true message_received), w') /\
            outbox w' = (outbox w ++ [(m1, false)])%list
        | None =>
            exists m2,
              confirmationEmail env b = Some m2 /\
              match smtp_send env (outbox w ++ [(m1, true)]) m2 with
              | Some _ =>
                  post_reservations env st b w
                  = (Returned (json_message 200 true message_received), w') /\
                  outbox w' = (outbox w ++ [(m1, true); (m2, false)])%list
              | None =>
                  post_reservations env st b w
                  = (Returned (json_message 200 true message_sent), w') /\
                  outbox w' = (outbox w ++ [(m1, true); (m2, true)])%list
              end
        end
    end.
Proof.
  intros Hv Hr Hd.
  assert (Hf : emailConfigured st && transporter st = true).
  { unfold channel_state in Hr.
    destruct (transporter st), (emailConfigured st); try discriminate; reflexivity. }
  destruct (ToString (name b)) as [shown|] eqn:Es.
  - assert (Hs : ToString (name b) <> None) by (rewrite Es; discriminate).
    destruct (ready_run env st b w Hv Hd Hs Hf) as (w' & H & _).
    exists w'. exact H.
  - destruct (unshown_run env st b w Hv Hd Es) as (w' & H1 & _ & H3 & _).
    exists w'. split; [exact H1|exact H3].
Qed.

Lemma ready_channel_sends_in_sequence_witness :
  exists w' m1 m2,
    mailOptions env_ok (sample_body (PNum (Fin 4))) = Some m1 /\
    confirmationEmail env_ok (sample_body (PNum (Fin 4))) = Some m2 /\
    post_reservations env_ok st_ready (sample_body (PNum (Fin 4))) empty_world
    = (Returned (json_message 200 true message_sent), w') /\
    outbox w' = [(m1, true); (m2, true)].
Proof.
  destruct (ready_channel_sends_in_sequence env_ok st_ready
              (sample_body (PNum (Fin 4))) empty_world eq_refl eq_refl eq_refl)
    as (w' & m2 & Hm2 & H1 & H2).
  exists w'. eexists. exists m2.
  split; [reflexivity|]. split; [exact Hm2|]. split; [exact H1|exact H2].
Defined.

(** ** Reading the directory *)

Lemma read_record_pure n w :
  exists r, read_record n w = (r, w).
Proof.
  unfold read_record, readFileSync, bind.
  destruct (file_content n (files w)) as [d|]; [|eexists; reflexivity].
  destruct (JSON_parse d); eexists; reflexivity.
Qed.

Lemma read_record_parsed n d v w :
  file_content n (files w) = Some d ->
  JSON_parse d = Some v ->
  read_record n w = (Returned v, w).
Proof.
  intros Hc Hp. unfold read_record, readFileSync, bind. rewrite Hc, Hp. reflexivity.
Qed.

Lemma read_record_malformed n d w :
  file_content n (files w) = Some d ->
  JSON_parse d = None ->
  exists e, read_record n w = (Thrown e, w).
Proof.
  intros Hc Hp. unfold read_record, readFileSync, bind. rewrite Hc, Hp.
  eexists. reflexivity.
Qed.

Lemma mapM_read_pure names w :
  exists r, mapM read_record names w = (r, w).
Proof.
  induction names as [|n names IH]; [eexists; reflexivity|].
  cbn [mapM]. unfold bind.
  destruct (read_record_pure n w) as [[v|e] Hr]; rewrite Hr; [|eexists; reflexivity].
  destruct IH as [[l|e] Hl]; rewrite Hl; eexists; reflexivity.
Qed.

(** When every file is read, each name has its record in the result. *)
Lemma mapM_read_returned names : forall w l w',
  mapM read_record names w = (Returned l, w') ->
  w' = w /\ Forall2 (fun n v => read_record n w = (Returned v, w)) names l.
Proof.
  induction names as [|n names IH]; intros w l w' H.
  - cbn in H. injection H as <- <-. split; [reflexivity|constructor].
  - cbn [mapM] in H. unfold bind in H.
    destruct (read_record_pure n w) as [[v|e] Hr]; rewrite Hr in H; [|discriminate].
    destruct (mapM_read_pure names w) as [[l0|e] Hl]; rewrite Hl in H; [|discriminate].
    unfold ret in H. injection H as <- <-.
    destruct (IH w l0 w Hl) as [_ HF].
    split; [reflexivity|]. constructor; assumption.
Qed.

(** One file that cannot be read makes the whole map throw. *)
Lemma mapM_read_thrown names w n e :
  In n names ->
  read_record n w = (Thrown e, w) ->
  exists e', mapM read_record names w = (Thrown e', w).
Proof.
  induction names as [|m names IH]; intros Hin Hr; [contradiction|].
  cbn [mapM]. unfold bind.
  destruct (read_record_pure m w) as [[v|e0] Hm]; rewrite Hm; [|eexists; reflexivity].
  destruct Hin as [->|Hin]; [rewrite Hr in Hm; discriminate|].
  destruct (IH Hin Hr) as [e' He']. rewrite He'. eexists. reflexivity.
Qed.

Lemma file_content_listed n d fs :
  file_content n fs = Some d -> In n (map fst fs).
Proof.
  induction fs as [|[n' d'] fs IH]; cbn; [discriminate|].
  destruct (String.eqb n' n) eqn:E.
  - apply String.eqb_eq in E. left. exact E.
  - intros H. right. apply IH. exact H.
Qed.

(** ** Sorting *)

Section SortFacts.
Context {A : Type}.
Variable cmp : A -> A -> option JsNumber.

Lemma insert_sorted_perm x l l' :
  insert_sorted cmp x l = Some l' -> Permutation (x :: l) l'.
Proof.
  revert l'. induction l as [|y r IH]; intros l' H; cbn in H.
  - injection H as <-. apply Permutation_refl.
  - destruct (cmp x y) as [v|]; [|discriminate].
    destruct (compare_sign v).
    + injection H as <-. apply Permutation_refl.
    + injection H as <-. apply Permutation_refl.
    + destruct (insert_sorted cmp x r) as [r'|]; [|discriminate].
      injection H as <-.
      apply perm_trans with (y :: x :: r); [apply perm_swap|].
      apply perm_skip. apply IH. reflexivity.
Qed.

(** The sort rearranges; it neither drops nor invents an element. *)
Lemma sort_by_perm l l' :
  sort_by cmp l = Some l' -> Permutation l l'.
Proof.
  revert l'. induction l as [|x r IH]; intros l' H; cbn in H.
  - injection H as <-. constructor.
  - destruct (sort_by cmp r) as [r'|]; [|discriminate].
    apply perm_trans with (x :: r').
    + apply perm_skip. apply IH. reflexivity.
    + apply insert_sorted_perm. exact H.
Qed.

(** A comparator that never answers a positive number leaves the
    array as it is. *)
Lemma sort_by_no_move l :
  (forall a b, In a l -> In b l ->
               exists v, cmp a b = Some v /\ compare_sign v <> Gt) ->
  sort_by cmp l = Some l.
Proof.
  induction l as [|x r IH]; intros H; [reflexivity|].
  cbn [sort_by]. rewrite IH.
  - destruct r as [|y r']; [reflexivity|].
    cbn [insert_sorted].
    destruct (H x y) as (v & Hv & Hs); [left; reflexivity|right; left; reflexivity|].
    rewrite Hv. destruct (compare_sign v); try reflexivity. congruence.
  - intros a b Ha Hb. apply H; right; assumption.
Qed.
End SortFacts.

(** ** Claims about [GET /api/reservations] *)

Lemma prefix_fileName id : String.prefix "reservation-" (fileName id) = true.
Proof. unfold fileName. apply prefix_app. Qed.

Lemma by_submittedAt_text a b :
  text_stamped a = true -> text_stamped b = true ->
  by_submittedAt a b = Some NaN.
Proof.
  unfold text_stamped, by_submittedAt, property, get.
  destruct a as [p|l|pa]; try discriminate.
  destruct b as [q|m|pb]; try discriminate.
  destruct (lookup "submittedAt" pa) as [[| | | |sa]| |]; try discriminate.
  destruct (lookup "submittedAt" pb) as [[| | | |sb]| |]; try discriminate.
  unfold ToNumber, ToPrimitive.
  destruct (StringToNumber sa); try discriminate.
  destruct (StringToNumber sb); try discriminate.
  reflexivity.
Qed.

Lemma iso_stamped_text v : iso_stamped v -> text_stamped v = true.
Proof.
  intros (props & t & -> & Hs). unfold text_stamped. rewrite Hs.
  unfold JStr. rewrite timestamp_not_numeric. reflexivity.
Qed.

(** The records the server writes come back with an ISO timestamp. *)
Lemma written_record_iso_stamped id submitted b props :
  lookup "submittedAt" props
  = get "submittedAt" (reservationData id submitted b) ->
  iso_stamped (JObj props).
Proof. intros H. exists props, submitted. split; [reflexivity|exact H]. Qed.

(** C1.  Where every listed record carries the ISO-8601 timestamp the
    server stamps it with, the comparator subtracts two timestamp
    strings, which gives [NaN] for every pair, so the sort moves
    nothing: the listing answers with the records in the order the
    directory lists their files, whatever their submission times. *)
Theorem listing_keeps_directory_order env w l :
  disk_read env (files w) = None ->
  mapM read_record (listed_names w) w = (Returned l, w) ->
  Forall iso_stamped l ->
  get_reservations env w
  = (Returned {| status := 200; success := true; message := None;
                 reservations := Some l; error := None |}, w).
Proof.
  intros Hd Hm Hs.
  unfold get_reservations, try_catch, bind, readdirSync. rewrite Hd.
  fold (listed_names w). rewrite Hm.
  rewrite sort_by_no_move; [reflexivity|].
  intros a b Ha Hb. exists NaN. split; [|discriminate].
  rewrite Forall_forall in Hs.
  apply by_submittedAt_text; apply iso_stamped_text; apply Hs; assumption.
Qed.

Lemma listing_keeps_directory_order_witness :
  get_reservations env_ok three_records
  = (Returned {| status := 200; success := true; message := None;
                 reservations := Some [parsed_at 1700000000000;
                                       parsed_at 1700000060000;
                                       parsed_at 1700000120000];
                 error := None |}, three_records).
Proof.
  apply (listing_keeps_directory_order env_ok three_records
           [parsed_at 1700000000000; parsed_at 1700000060000;
            parsed_at 1700000120000]).
  - reflexivity.
  - vm_compute. reflexivity.
  - repeat constructor; eexists; eexists; (split; reflexivity).
Defined.

(** C10.  When a file whose name starts with [reservation-] holds a
    text that [JSON.parse] rejects, the listing answers with status
    500 and the message "Failed to retrieve reservations", and with no
    record at all. *)
Theorem unparseable_file_fails_listing env w n d :
  file_content n (files w) = Some d ->
  String.prefix "reservation-" n = true ->
  JSON_parse d = None ->
  get_reservations env w
  = (Returned {| status := 500; success := false;
                 message := Some "Failed to retrieve reservations";
                 reservations := None; error := None |}, w).
Proof.
  intros Hc Hp Hj.
  unfold get_reservations, try_catch, bind, readdirSync.
  destruct (disk_read env (files w)); [reflexivity|].
  destruct (read_record_malformed n d w Hc Hj) as [e He].
  assert (Hin : In n (filter (fun f => String.prefix "reservation-" f)
                        (map fst (files w)))).
  { apply filter_In. split; [|exact Hp].
    apply file_content_listed with d. exact Hc. }
  destruct (mapM_read_thrown _ w n e Hin He) as [e' He'].
  rewrite He'. reflexivity.
Qed.

Lemma unparseable_file_fails_listing_witness :
  get_reservations env_ok truncated_record
  = (Returned {| status := 500; success := false;
                 message := Some "Failed to retrieve reservations";
                 reservations := None; error := None |}, truncated_record).
Proof.
  apply (unparseable_file_fails_listing env_ok truncated_record
           "reservation-1700000060000.json" "{ "); reflexivity.
Defined.

(** C4, as stated, fails: a guest count that overflowed to [Infinity]
    passes validation, is written as [null], and is read back as
    [null]. *)
Lemma infinite_guests_read_back_null :
  files after_infinite_guests
  = [(fileName 1700000000000,
      JSON_text (reservationData 1700000000000 1700000000001
                   (sample_body (PNum PosInf))))] /\
  get "guests" (reservationData 1700000000000 1700000000001
                  (sample_body (PNum PosInf))) = JNum PosInf /\
  option_map (map (get "guests"))
    (reservations
       match fst (get_reservations env_ok after_infinite_guests) with
       | Returned listing => listing
       | Thrown _ => json_message 500 false ""
       end) = Some [JNull].
Proof. vm_compute. repeat split. Qed.

(** C4 amended.  A record is read back equal field for field, except
    that a number that is not finite is read back as [null]: the file
    the submission wrote parses to a record that answers every
    property access with what the written record answers, its numbers
    that are not finite replaced by [null] (an absent [notes] is read
    back absent).  A field that holds no such number is read back as
    it was written, a field that is such a number is read back as
    [null], and the record read back is in every successful listing of
    the directory. *)
Theorem saved_record_reads_back env st b w :
  missing_required b = false ->
  json_body b = true ->
  - 10 ^ 21 < submission_id env w < 10 ^ 21 ->
  disk_write env (files w) (fileName (submission_id env w))
    (submission_text env w b) = None ->
  exists resp w' r,
    post_reservations env st b w = (Returned resp, w') /\
    read_record (fileName (submission_id env w)) w' = (Returned r, w') /\
    (forall k, get k r = non_finite_to_null (get k (submission_record env w b))) /\
    (forall k, finite_only (get k (submission_record env w b)) = true ->
               get k r = get k (submission_record env w b)) /\
    (forall k n, get k (submission_record env w b) = JNum n ->
                 is_finite n = false -> get k r = JNull) /\
    (forall listing w'' l,
        get_reservations env w' = (Returned listing, w'') ->
        reservations listing = Some l -> In r l).
Proof.
  intros Hv Hs Hid Hd.
  set (id := submission_id env w) in *.
  set (submitted := submission_stamp env w).
  set (record := submission_record env w b).
  destruct (stored_run env st b w Hv Hd) as (resp & w' & H1 & _ & _ & H4).
  destruct (record_stored id submitted b Hid Hv Hs) as (props & Hr & Hget).
  set (r := JObj props) in *.
  assert (Hc : file_content (fileName id) (files w') = Some (JSON_text record)).
  { rewrite H4. apply upsert_content. }
  assert (Hread : read_record (fileName id) w' = (Returned r, w')).
  { apply read_record_parsed with (JSON_text record); assumption. }
  exists resp, w', r. split; [exact H1|]. split; [exact Hread|].
  split; [exact Hget|].
  split.
  { intros k Hk. unfold r. cbn [get]. rewrite Hget.
    apply non_finite_to_null_finite. exact Hk. }
  split.
  { intros k n Hk Hn. unfold r. cbn [get]. rewrite Hget.
    change (reservationData id submitted b) with record.
    rewrite Hk. unfold JNum. cbn [non_finite_to_null].
    rewrite Hn. reflexivity. }
  intros listing w'' l Hl Hres.
  unfold get_reservations, try_catch, bind, readdirSync in Hl.
  destruct (disk_read env (files w')).
  { unfold ret in Hl. injection Hl as <- _. discriminate. }
  destruct (mapM_read_pure
              (filter (fun f => String.prefix "reservation-" f) (map fst (files w'))) w')
    as [[parsed|e] Hm]; rewrite Hm in Hl.
  2:{ unfold ret in Hl. injection Hl as <- _. discriminate. }
  destruct (sort_by by_submittedAt parsed) as [sorted|] eqn:Hsort.
  2:{ unfold throw, ret in Hl. injection Hl as <- _. discriminate. }
  unfold ret in Hl. injection Hl as <- _. cbn in Hres. injection Hres as <-.
  apply Permutation_in with parsed; [apply sort_by_perm with by_submittedAt; exact Hsort|].
  destruct (mapM_read_returned _ _ _ _ Hm) as [_ HF].
  assert (Hin : In (fileName id)
                  (filter (fun f => String.prefix "reservation-" f) (map fst (files w')))).
  { apply filter_In. split; [|apply prefix_fileName].
    apply file_content_listed with (JSON_text record). exact Hc. }
  clear - HF Hin Hread.
  induction HF as [|n v names vs Hnv HF IH]; [contradiction|].
  destruct Hin as [->|Hin].
  - rewrite Hread in Hnv. injection Hnv as <-. left. reflexivity.
  - right. apply IH. exact Hin.
Qed.

Lemma saved_record_reads_back_witness :
  exists resp w' r,
    post_reservations env_ok st_ready (sample_body (PNum (Fin 4))) empty_world
    = (Returned resp, w') /\
    read_record (fileName 1700000000000) w' = (Returned r, w') /\
    (forall k, get k r
               = get k (reservationData 1700000000000 1700000000001
                          (sample_body (PNum (Fin 4))))) /\
    (forall listing w'' l,
        get_reservations env_ok w' = (Returned listing, w'') ->
        reservations listing = Some l -> In r l).
Proof.
  destruct (saved_record_reads_back env_ok st_ready (sample_body (PNum (Fin 4)))
              empty_world eq_refl eq_refl)
    as (resp & w' & r & H1 & H2 & H3 & _ & _ & H6);
    [split; reflexivity|reflexivity|].
  exists resp, w', r. split; [exact H1|]. split; [exact H2|].
  split; [|exact H6].
  intros k. rewrite H3. apply non_finite_to_null_finite.
  cbn [get submission_record reservationData lookup].
  repeat match goal with
         | |- context [String.eqb ?a k] => destruct (String.eqb a k); [reflexivity|]
         end.
  reflexivity.
Defined.

(** ** The batch sender *)

Section BatchFacts.
Variable env : Env.

Lemma process_file_prepared n d m1 m2 shown to w :
  file_content n (files w) = Some d ->
  prepared env d = Some (m1, m2, shown, to) ->
  process_file env n w = send_pair env m1 m2 shown to w.
Proof.
  intros Hc Hp. unfold process_file, readFileSync, bind.
  rewrite Hc. unfold prepared in Hp.
  destruct (JSON_parse d) as [reservation|]; [|discriminate].
  unfold ret.
  destruct (property "name" reservation) as [nm|]; [|discriminate].
  destruct (restaurantEmail env reservation) as [a|]; [|discriminate].
  destruct (batch_confirmationEmail env reservation) as [c|]; [|discriminate].
  injection Hp as <- <- <- <-. reflexivity.
Qed.

(** One record: one or two attempts, and the lines about them. *)
Lemma send_pair_run m1 m2 shown to w :
  exists w' attempts lines,
    send_pair env m1 m2 shown to w = (Returned tt, w') /\
    files w' = files w /\
    outbox w' = (outbox w ++ attempts)%list /\
    console w' = (console w ++ lines)%list /\
    (1 <= List.length attempts <= 2)%nat /\
    (forallb snd attempts = true -> List.length attempts = 2%nat) /\
    record_run env (outbox w) m1 m2 shown to attempts lines.
Proof.
  unfold send_pair. run_monad.
  destruct (smtp_send env (outbox w) m1) as [e1|] eqn:E1; run_monad.
  - eexists. exists [(m1, false)]. eexists.
    split; [reflexivity|]. split; [reflexivity|]. split; [reflexivity|].
    split; [reflexivity|]. split; [cbn; lia|].
    split; [discriminate|].
    apply first_send_failed. exact E1.
  - destruct (smtp_send env (outbox w ++ [(m1, true)]) m2) as [e2|] eqn:E2; run_monad.
    + eexists. exists [(m1, true); (m2, false)]. eexists.
      split; [reflexivity|]. split; [reflexivity|].
      split; [cbn [outbox]; rewrite <- app_assoc; reflexivity|].
      split; [cbn [console]; rewrite <- app_assoc; reflexivity|].
      split; [cbn; lia|]. split; [reflexivity|].
      apply second_send_failed; assumption.
    + eexists. exists [(m1, true); (m2, true)]. eexists.
      split; [reflexivity|]. split; [reflexivity|].
      split; [cbn [outbox]; rewrite <- app_assoc; reflexivity|].
      split; [cbn [console]; rewrite <- !app_assoc; reflexivity|].
      split; [cbn; lia|]. split; [reflexivity|].
      apply both_sent; assumption.
Qed.

(** The loop: every file gets its turn, whatever happened before. *)
Lemma for_each_run names : forall w w0,
  files w = files w0 ->
  all_prepared env w0 names = true ->
  exists w' attempts lines,
    for_each env names w = (Returned tt, w') /\
    files w' = files w0 /\
    outbox w' = (outbox w ++ attempts)%list /\
    console w' = (console w ++ lines)%list /\
    (List.length names <= List.length attempts <= 2 * List.length names)%nat /\
    (forallb snd attempts = true ->
     List.length attempts = (2 * List.length names)%nat) /\
    records_run env w0 (outbox w) names attempts lines.
Proof.
  induction names as [|n names IH]; intros w w0 Hf Hall.
  - exists w, [], []. cbn [for_each]. unfold ret.
    split; [reflexivity|]. split; [exact Hf|].
    rewrite !app_nil_r. repeat split; try reflexivity; try (cbn; lia).
    constructor.
  - cbn [all_prepared forallb] in Hall. apply andb_prop in Hall.
    destruct Hall as [Hn Hrest].
    destruct (file_content n (files w0)) as [d|] eqn:Hc; [|discriminate].
    destruct (prepared env d) as [[[[m1 m2] shown] to]|] eqn:Hp; [|discriminate].
    cbn [for_each]. unfold bind.
    rewrite (process_file_prepared n d m1 m2 shown to w) by (rewrite ?Hf; assumption).
    destruct (send_pair_run m1 m2 shown to w)
      as (w1 & a1 & l1 & Hrun & Hf1 & Ho1 & Hc1 & Hlen1 & Hall1 & Hrec1).
    rewrite Hrun.
    destruct (IH w1 w0) as (w2 & a2 & l2 & Hrun2 & Hf2 & Ho2 & Hc2 & Hlen2 & Hall2 & Hrest2);
      [congruence|exact Hrest|].
    rewrite Hrun2.
    exists w2, (a1 ++ a2)%list, (l1 ++ l2)%list.
    split; [reflexivity|]. split; [exact Hf2|].
    split; [rewrite Ho2, Ho1, app_assoc; reflexivity|].
    split; [rewrite Hc2, Hc1, app_assoc; reflexivity|].
    split; [rewrite length_app; cbn [List.length]; lia|].
    split.
    { intros Hok. rewrite forallb_app in Hok. apply andb_prop in Hok.
      destruct Hok as [Hok1 Hok2].
      rewrite length_app, (Hall1 Hok1), (Hall2 Hok2). cbn [List.length]. lia. }
    apply records_next with d m1 m2 shown to; try assumption.
    rewrite <- Ho1. exact Hrest2.
Qed.
End BatchFacts.

(** C3, as stated, fails: the two sends of a record share one [try]
    block, so a record whose restaurant-facing send throws gets one
    attempt, not two.  Here three records get five attempts. *)
Lemma batch_attempts_fewer_than_twice :
  List.length (batch_names three_records) = 3%nat /\
  fst (sendConfirmationEmails env_first_send_fails three_records)
  = Returned Completed /\
  List.length (outbox (snd (sendConfirmationEmails env_first_send_fails
                              three_records))) = 5%nat.
Proof. vm_compute. repeat split. Qed.

(** C3 amended.  When the connection is verified and every stored
    record can be read, a run over N records completes and works the
    records one after the other, in the order of their file names: for
    each record the restaurant-facing message is attempted, and the
    guest-facing one is attempted after it exactly when the first send
    succeeded.  So between N and 2N sends are attempted, 2N when no
    send fails.  The console tells of each record, in the same order,
    whether its sends succeeded or which error stopped them, and a
    failed send never keeps the sends of later records from being
    attempted. *)
Theorem batch_sends_per_record env w :
  smtp_verify env = None ->
  disk_read env (files w) = None ->
  all_prepared env w (batch_names w) = true ->
  exists w' attempts lines,
    sendConfirmationEmails env w = (Returned Completed, w') /\
    outbox w' = (outbox w ++ attempts)%list /\
    records_run env w (outbox w) (batch_names w) attempts lines /\
    (exists opening closing,
        console w' = (console w ++ opening ++ lines ++ [closing])%list) /\
    (List.length (batch_names w) <= List.length attempts
     <= 2 * List.length (batch_names w))%nat /\
    (forallb snd attempts = true ->
     List.length attempts = (2 * List.length (batch_names w))%nat).
Proof.
  intros Hv Hd Hall.
  unfold sendConfirmationEmails. cbv zeta. fold (batch_names w).
  run_monad. rewrite Hv. run_monad. rewrite Hd. run_monad.
  fold (batch_names w).
  destruct (batch_names w) as [|n names] eqn:Hn.
  - run_monad. eexists. exists [], [].
    split; [reflexivity|]. cbn [outbox console].
    split; [rewrite app_nil_r; reflexivity|].
    split; [constructor|].
    split.
    { eexists [_; _]. eexists. cbn [app]. rewrite <- !app_assoc. reflexivity. }
    split; [cbn; lia|]. reflexivity.
  - run_monad.
    match goal with
    | |- context [for_each env (n :: names) ?w1] =>
        destruct (for_each_run env (n :: names) w1 w (eq_refl (files w)) Hall)
          as (w2 & attempts & lines & Hrun & _ & Ho & Hc & Hlen & Hok & Hrec)
    end.
    cbn [outbox console] in Ho, Hc, Hrec.
    eexists. exists attempts, lines.
    split; [rewrite Hrun; reflexivity|]. cbn [outbox console].
    split; [exact Ho|].
    split; [exact Hrec|].
    split.
    { eexists [_; _; _]. eexists. rewrite Hc. cbn [app].
      rewrite <- !app_assoc. reflexivity. }
    split; [exact Hlen|exact Hok].
Qed.

Lemma batch_sends_per_record_witness :
  exists w' attempts lines,
    sendConfirmationEmails env_first_send_fails three_records
    = (Returned Completed, w') /\
    outbox w' = attempts /\
    records_run env_first_send_fails three_records []
      (batch_names three_records) attempts lines /\
    (exists opening closing, console w' = (opening ++ lines ++ [closing])%list) /\
    (3 <= List.length attempts <= 6)%nat /\
    (forallb snd attempts = true -> List.length attempts = 6%nat).
Proof.
  exact (batch_sends_per_record env_first_send_fails three_records
           eq_refl eq_refl eq_refl).
Defined.

(** * Further properties of the handlers *)

(** ** Startup *)

Lemma initializeEmail_run env w :
  exists st w',
    initializeEmail env w = (Returned st, w') /\
    files w' = files w /\ outbox w' = outbox w /\ ticks w' = ticks w /\
    transporter st
    = ToBoolean (env_prim (GMAIL_USER env))
      && ToBoolean (env_prim (GMAIL_PASSWORD env)) /\
    emailConfigured st
    = ToBoolean (env_prim (GMAIL_USER env))
      && ToBoolean (env_prim (GMAIL_PASSWORD env))
      && match smtp_verify env with None => true | Some _ => false end.
Proof.
  unfold initializeEmail.
  destruct (ToBoolean (env_prim (GMAIL_USER env))
            && ToBoolean (env_prim (GMAIL_PASSWORD env))).
  - run_monad. destruct (smtp_verify env); run_monad;
      (eexists; eexists; split; [reflexivity|]; repeat split).
  - eexists. eexists. split; [reflexivity|]. repeat split.
Qed.

(** X1.  [initializeEmail] never throws and touches neither the stored
    files nor the outbox.  Afterwards [GET /api/health] reports
    [emailConfigured: true] exactly when both [GMAIL_USER] and
    [GMAIL_PASSWORD] are set to non-empty strings and the verification
    of the transport succeeded; and whenever the flag is set the
    transporter is. *)
Theorem startup_sets_health_flag env w :
  exists st w',
    initializeEmail env w = (Returned st, w') /\
    files w' = files w /\ outbox w' = outbox w /\
    get_health st
    = ("Server is running",
       match GMAIL_USER env, GMAIL_PASSWORD env, smtp_verify env with
       | Some user, Some pass, None =>
           negb (String.eqb user "") && negb (String.eqb pass "")
       | _, _, _ => false
       end) /\
    (emailConfigured st = true -> transporter st = true).
Proof.
  destruct (initializeEmail_run env w) as (st & w' & Hr & Hf & Ho & _ & Ht & He).
  exists st, w'. split; [exact Hr|]. split; [exact Hf|]. split; [exact Ho|].
  split.
  - unfold get_health. rewrite He.
    destruct (GMAIL_USER env) as [u|], (GMAIL_PASSWORD env) as [p|],
      (smtp_verify env); cbn [env_prim ToBoolean];
      rewrite ?andb_false_r, ?andb_true_r; reflexivity.
  - rewrite He, Ht. intros H. apply andb_prop in H. apply H.
Qed.

(** X2.  When the credentials are missing or the verification at
    startup threw, the server never attempts a send: whatever the
    submission and whatever happened since, the outbox after
    [POST /api/reservations] is the outbox before. *)
Theorem no_send_unless_verified_at_startup env w0 st w1 b w :
  initializeEmail env w0 = (Returned st, w1) ->
  ToBoolean (env_prim (GMAIL_USER env))
  && ToBoolean (env_prim (GMAIL_PASSWORD env)) = false
  \/ smtp_verify env <> None ->
  outbox (snd (post_reservations env st b w)) = outbox w.
Proof.
  intros Hinit Hbad.
  destruct (initializeEmail_run env w0) as (st' & w' & Hr & _ & _ & _ & _ & He).
  rewrite Hinit in Hr. injection Hr as <- <-.
  assert (Hoff : emailConfigured st && transporter st = false).
  { rewrite He. destruct Hbad as [-> | Hv]; [reflexivity|].
    destruct (smtp_verify env); [|congruence].
    rewrite andb_false_r. reflexivity. }
  destruct (missing_required b) eqn:Hv.
  - rewrite missing_short_circuit by exact Hv. reflexivity.
  - destruct (disk_write env (files w) (fileName (submission_id env w))
                (submission_text env w b)) as [e|] eqn:Hd.
    + destruct (storage_failure_run env st b w e Hv Hd) as (w' & H1 & _ & H3 & _).
      rewrite H1. exact H3.
    + destruct (ToString (name b)) as [shown|] eqn:Es.
      * assert (Hs : ToString (name b) <> None) by (rewrite Es; discriminate).
        destruct (not_ready_run env st b w Hv Hd Hs Hoff) as (w' & H1 & _ & H3 & _).
        rewrite H1. exact H3.
      * destruct (unshown_run env st b w Hv Hd Es) as (w' & H1 & _ & H3 & _).
        rewrite H1. exact H3.
Qed.

Lemma no_send_unless_verified_at_startup_witness :
  outbox (snd (post_reservations env_unverified
                 {| transporter := true; emailConfigured := false |}
                 (sample_body (PNum (Fin 4))) three_records)) = [].
Proof.
  apply (no_send_unless_verified_at_startup env_unverified empty_world
           {| transporter := true; emailConfigured := false |}
           {| files := []; outbox := [];
              console := ["⚠ Email service not available: Invalid login";
                          "✓ Reservations will be saved locally"];
              ticks := O |}).
  - reflexivity.
  - right. discriminate.
Defined.

(** ** Every run of [POST /api/reservations] *)

Lemma missing_required_falsy b :
  missing_required b = existsb (fun v => negb (truthy v)) (required_fields b).
Proof.
  unfold missing_required, required_fields. cbn [existsb].
  rewrite orb_false_r, !orb_assoc. reflexivity.
Qed.

Lemma post_run env st b w :
  exists r w', post_reservations env st b w = (Returned r, w') /\
               PostRun env st b w r w'.
Proof.
  destruct (missing_required b) eqn:Hv.
  - rewrite missing_short_circuit by exact Hv.
    eexists. eexists. split; [reflexivity|]. constructor. exact Hv.
  - destruct (disk_write env (files w) (fileName (submission_id env w))
                (submission_text env w b)) as [e|] eqn:Hd.
    + destruct (storage_failure_run env st b w e Hv Hd) as (w' & H1 & H2 & H3 & H4).
      eexists. exists w'. split; [exact H1|].
      apply Failed; assumption.
    + destruct (ToString (name b)) as [shown|] eqn:Es.
      * assert (Hs : ToString (name b) <> None) by (rewrite Es; discriminate).
        destruct (emailConfigured st && transporter st) eqn:Hon.
        -- destruct (ready_run env st b w Hv Hd Hs Hon) as (w' & Hm & Hf & Ht).
           destruct (mailOptions env b) as [m1|] eqn:Em.
           ++ destruct (smtp_send env (outbox w) m1) eqn:E1.
              ** destruct Hm as [Hp Ho]. eexists. exists w'.
                 split; [exact Hp|].
                 apply (Stored env st b w [(m1, false)] w');
                   try assumption; try congruence.
                 right. left. exists m1. split; [exact Em|reflexivity].
              ** destruct Hm as (m2 & Hm2 & Hm).
                 destruct (smtp_send env (outbox w ++ [(m1, true)]) m2) eqn:E2;
                   destruct Hm as [Hp Ho]; eexists; exists w';
                   (split; [exact Hp|]).
                 --- apply (Stored env st b w [(m1, true); (m2, false)] w');
                       try assumption; try congruence.
                     right. right. exists m1, m2, false.
                     split; [exact Em|split; [exact Hm2|reflexivity]].
                 --- apply (Stored env st b w [(m1, true); (m2, true)] w');
                       try assumption; try congruence.
                     right. right. exists m1, m2, true.
                     split; [exact Em|split; [exact Hm2|reflexivity]].
           ++ destruct Hm as [Hp Ho]. eexists. exists w'.
              split; [exact Hp|].
              apply (Stored env st b w [] w'); try assumption; try reflexivity.
              ** rewrite app_nil_r. exact Ho.
              ** left. reflexivity.
        -- destruct (not_ready_run env st b w Hv Hd Hs Hon) as (w' & Hp & Hf & Ho & Ht).
           eexists. exists w'. split; [exact Hp|].
           apply (Stored env st b w [] w'); try assumption; try reflexivity.
           ++ rewrite app_nil_r. exact Ho.
           ++ left. reflexivity.
      * destruct (unshown_run env st b w Hv Hd Es) as (w' & Hp & Hf & Ho & Ht).
        eexists. exists w'. split; [exact Hp|].
        apply Unshown; assumption.
Qed.

(** X3.  [POST /api/reservations] always answers, and the status is
    decided by the validation, the write, and whether the name can be
    shown in the log line that follows the write: 400 when one of
    name, phone, email, date, time, guests is falsy ([undefined],
    [null], [false], [0], [NaN] or the empty string); otherwise 500
    when the write of the record throws, or when the name is a value
    that cannot be converted to a string; and 200 in every other
    case.  [success] is [true] exactly for status 200; [notes], the
    other fields and the outcome of the sends have no part in it. *)
Theorem post_status_decided_by_validation_and_write env st b w :
  exists r w',
    post_reservations env st b w = (Returned r, w') /\
    status r
    = (if existsb (fun v => negb (truthy v)) (required_fields b) then 400
       else match disk_write env (files w) (fileName (submission_id env w))
                    (submission_text env w b) with
            | Some _ => 500
            | None => match ToString (name b) with
                      | Some _ => 200
                      | None => 500
                      end
            end) /\
    success r = (status r =? 200) /\
    message r <> None /\ reservations r = None.
Proof.
  destruct (post_run env st b w) as (r & w' & Hr & Hrun).
  exists r, w'. split; [exact Hr|].
  rewrite <- missing_required_falsy.
  destruct Hrun as [Hv|e w' Hv Hd _ _ _|w' Hv Hd Hs _ _ _
                   |attempts w' Hv Hd Hs _ _ _ _ _ _];
    rewrite Hv, ?Hd; repeat split; try reflexivity; try discriminate.
  - rewrite Hs. reflexivity.
  - cbn [status json_message]. destruct (ToString (name b)); [reflexivity|congruence].
Qed.

Lemma upsert_names n d fs :
  map fst (upsert n d fs)
  = if existsb (String.eqb n) (map fst fs) then map fst fs
    else (map fst fs ++ [n])%list.
Proof.
  induction fs as [|[n' d'] r IH]; [reflexivity|].
  cbn [upsert map fst existsb].
  destruct (String.eqb n' n) eqn:E.
  - rewrite String.eqb_sym, E. reflexivity.
  - rewrite String.eqb_sym, E. cbn [map fst orb]. rewrite IH.
    destruct (existsb (String.eqb n) (map fst r)); reflexivity.
Qed.

(** A write to the file [n], whatever it puts there, leaves the other
    files alone. *)
Lemma upsert_touches_one n d fs :
  (forall n0, n0 <> n -> file_content n0 (upsert n d fs) = file_content n0 fs) /\
  (forall n0, In n0 (map fst fs) -> In n0 (map fst (upsert n d fs))) /\
  (forall n0, In n0 (map fst (upsert n d fs)) -> In n0 (map fst fs) \/ n0 = n).
Proof.
  split; [intros n0 Hn; apply upsert_other; exact Hn|].
  rewrite upsert_names.
  destruct (existsb _ _).
  - split; intros n0 H; [exact H|left; exact H].
  - split; intros n0 H.
    + apply in_or_app. left. exact H.
    + apply in_app_or in H. destruct H as [H|[H|[]]]; [left; exact H|].
      right. symmetry. exact H.
Qed.

(** X4.  A submission touches at most one stored file, the one named
    after its own identifier: every other file keeps its content, no
    file is removed, and no file appears except possibly that one. *)
Theorem post_touches_one_file env st b w :
  (forall n, n <> fileName (submission_id env w) ->
             file_content n (files (snd (post_reservations env st b w)))
             = file_content n (files w)) /\
  (forall n, In n (map fst (files w)) ->
             In n (map fst (files (snd (post_reservations env st b w))))) /\
  (forall n, In n (map fst (files (snd (post_reservations env st b w)))) ->
             In n (map fst (files w)) \/ n = fileName (submission_id env w)).
Proof.
  destruct (post_run env st b w) as (r & w' & Hr & Hrun). rewrite Hr. cbn [snd].
  destruct Hrun as [Hv|e w' Hv Hd Hf _ _|w' Hv Hd Hs Hf _ _
                   |attempts w' Hv Hd Hs Hf _ _ _ _ _].
  - split; [reflexivity|]. split; intros n H; [exact H|left; exact H].
  - rewrite Hf. unfold interrupted_write.
    destruct (disk_partial env (files w) (fileName (submission_id env w))
                (submission_text env w b)).
    + apply upsert_touches_one.
    + split; [reflexivity|]. split; intros n H; [exact H|left; exact H].
  - rewrite Hf. apply upsert_touches_one.
  - rewrite Hf. apply upsert_touches_one.
Qed.

(** X5.  A submission only appends to the attempted sends, and what it
    appends is nothing, the restaurant-facing message alone (its send
    failed), or the restaurant-facing message, sent, followed by the
    guest-facing one.  The guest-facing message is never attempted
    first or alone, and the "confirmation email shortly" answer is
    given exactly when two sends were attempted and both succeeded. *)
Theorem post_appends_its_sends_in_order env st b w :
  exists r w' attempts,
    post_reservations env st b w = (Returned r, w') /\
    outbox w' = (outbox w ++ attempts)%list /\
    (attempts = [] \/
     (exists m1, mailOptions env b = Some m1 /\ attempts = [(m1, false)]) \/
     (exists m1 m2 ok, mailOptions env b = Some m1 /\
                       confirmationEmail env b = Some m2 /\
                       attempts = [(m1, true); (m2, ok)])) /\
    (message r = Some message_sent <->
     exists m1 m2, mailOptions env b = Some m1 /\
                   confirmationEmail env b = Some m2 /\
                   attempts = [(m1, true); (m2, true)]).
Proof.
  destruct (post_run env st b w) as (r & w' & Hr & Hrun).
  exists r, w'.
  destruct Hrun as [Hv|e w' Hv Hd _ Ho _|w' Hv Hd Hn _ Ho _
                   |attempts w' Hv Hd Hn _ Ho _ _ _ Hs].
  - exists []. split; [exact Hr|]. split; [rewrite app_nil_r; reflexivity|].
    split; [left; reflexivity|].
    split; [discriminate|intros (m1 & m2 & _ & _ & H); discriminate H].
  - exists []. split; [exact Hr|]. split; [rewrite app_nil_r; exact Ho|].
    split; [left; reflexivity|].
    split; [discriminate|intros (m1 & m2 & _ & _ & H); discriminate H].
  - exists []. split; [exact Hr|]. split; [rewrite app_nil_r; exact Ho|].
    split; [left; reflexivity|].
    split; [discriminate|intros (m1 & m2 & _ & _ & H); discriminate H].
  - exists attempts. split; [exact Hr|]. split; [exact Ho|].
    split; [exact Hs|].
    destruct Hs as [-> | [(m1 & Hm1 & ->) | (m1 & m2 & [|] & Hm1 & Hm2 & ->)]];
      cbn; split; intros H;
      try (exfalso; unfold message_received, message_sent in H; congruence);
      try (destruct H as (x1 & x2 & _ & _ & H); discriminate H).
    + exists m1, m2. repeat split; assumption.
    + reflexivity.
Qed.

(** ** Identifiers and file names *)

Lemma append_inv_tail (x y s : string) : x ++ s = y ++ s -> x = y.
Proof.
  revert y. induction x as [|c x IH]; intros [|d y] H; cbn in H.
  - reflexivity.
  - exfalso. apply (f_equal String.length) in H.
    cbn in H. rewrite length_app_s in H. lia.
  - exfalso. apply (f_equal String.length) in H.
    cbn in H. rewrite length_app_s in H. lia.
  - injection H as -> H. f_equal. apply IH. exact H.
Qed.

Lemma append_inv_head (p x y : string) : p ++ x = p ++ y -> x = y.
Proof.
  induction p as [|c p IH]; cbn; intros H; [exact H|].
  injection H as H. apply IH. exact H.
Qed.

Lemma time_value_range t : time_value t -> - 10 ^ 21 < t < 10 ^ 21.
Proof.
  unfold time_value. intros H.
  assert (E : 10 ^ 21 = 1000000000000000000000) by reflexivity.
  rewrite E. lia.
Qed.

Lemma fileName_inj a b :
  - 10 ^ 21 < a < 10 ^ 21 -> - 10 ^ 21 < b < 10 ^ 21 ->
  fileName a = fileName b -> a = b.
Proof.
  intros Ha Hb H. unfold fileName in H.
  apply append_inv_head, append_inv_tail in H.
  pose proof (parse_number_integer a "" Ha eq_refl) as Pa.
  pose proof (parse_number_integer b "" Hb eq_refl) as Pb.
  rewrite !app_nil_r_s in Pa, Pb. rewrite H in Pa. rewrite Pa in Pb.
  injection Pb as ->. reflexivity.
Qed.

Lemma upsert_listed n d fs : existsb (String.eqb n) (map fst (upsert n d fs)) = true.
Proof.
  induction fs as [|[n' d'] r IH]; cbn [upsert].
  - cbn. rewrite String.eqb_refl. reflexivity.
  - destruct (String.eqb n' n) eqn:E; cbn [map fst existsb].
    + rewrite String.eqb_sym, E. reflexivity.
    + rewrite IH. apply orb_true_r.
Qed.

(** X6.  Two submissions that read the same [Date.now()] (the clock
    did not advance between them) share one file name: the second
    write replaces the first record, and the directory holds the same
    file names as after the first submission.  Nothing tells the
    callers: when both names can be shown as text, both submissions
    are answered with status 200. *)
Theorem same_millisecond_overwrites env st b1 b2 w :
  let w1 := snd (post_reservations env st b1 w) in
  let w2 := snd (post_reservations env st b2 w1) in
  missing_required b1 = false -> missing_required b2 = false ->
  disk_write env (files w) (fileName (submission_id env w))
    (submission_text env w b1) = None ->
  disk_write env (files w1) (fileName (submission_id env w1))
    (submission_text env w1 b2) = None ->
  submission_id env w1 = submission_id env w ->
  ToString (name b1) <> None -> ToString (name b2) <> None ->
  exists r1 r2,
    fst (post_reservations env st b1 w) = Returned r1 /\ status r1 = 200 /\
    fst (post_reservations env st b2 w1) = Returned r2 /\ status r2 = 200 /\
    file_content (fileName (submission_id env w)) (files w1)
    = Some (submission_text env w b1) /\
    file_content (fileName (submission_id env w)) (files w2)
    = Some (submission_text env w1 b2) /\
    (forall n, In n (map fst (files w2)) <-> In n (map fst (files w1))).
Proof.
  intros w1 w2 V1 V2 D1 D2 Hid N1 N2. subst w2.
  destruct (stored_run env st b2 w1 V2 D2) as (r2 & w2 & R2 & S2 & _ & F2).
  rewrite R2. cbn [fst snd]. subst w1.
  destruct (stored_run env st b1 w V1 D1) as (r1 & w1 & R1 & S1 & _ & F1).
  rewrite R1 in *. cbn [fst snd] in *.
  exists r1, r2.
  split; [reflexivity|]. split; [apply (S1 N1)|].
  split; [reflexivity|]. split; [apply (S2 N2)|].
  rewrite Hid in F2. rewrite F2, F1.
  split; [apply upsert_content|]. split; [apply upsert_content|].
  rewrite (upsert_names _ _ (upsert _ _ _)), upsert_listed.
  intros n. split; exact (fun H => H).
Qed.

Lemma same_millisecond_overwrites_witness :
  exists r1 r2,
    fst (post_reservations env_frozen_clock st_disabled
           (sample_body (PNum (Fin 4))) empty_world) = Returned r1 /\
    status r1 = 200 /\
    fst (post_reservations env_frozen_clock st_disabled other_body
           after_first_submission) = Returned r2 /\
    status r2 = 200 /\
    file_content (fileName 1700000000000) (files after_first_submission)
    = Some (submission_text env_frozen_clock empty_world
              (sample_body (PNum (Fin 4)))) /\
    file_content (fileName 1700000000000) (files after_second_submission)
    = Some (submission_text env_frozen_clock after_first_submission other_body) /\
    (forall n, In n (map fst (files after_second_submission))
               <-> In n (map fst (files after_first_submission))).
Proof.
  apply (same_millisecond_overwrites env_frozen_clock st_disabled
           (sample_body (PNum (Fin 4))) other_body empty_world);
    first [reflexivity|discriminate].
Defined.

(** X7.  Two submissions whose identifiers differ (both within the
    range of time values) and whose writes are accepted are stored
    under different file names, and both records are on disk
    afterwards. *)
Theorem distinct_ids_keep_both_records env st b1 b2 w :
  let w1 := snd (post_reservations env st b1 w) in
  let w2 := snd (post_reservations env st b2 w1) in
  missing_required b1 = false -> missing_required b2 = false ->
  disk_write env (files w) (fileName (submission_id env w))
    (submission_text env w b1) = None ->
  disk_write env (files w1) (fileName (submission_id env w1))
    (submission_text env w1 b2) = None ->
  time_value (submission_id env w) -> time_value (submission_id env w1) ->
  submission_id env w1 <> submission_id env w ->
  fileName (submission_id env w1) <> fileName (submission_id env w) /\
  file_content (fileName (submission_id env w)) (files w2)
  = Some (submission_text env w b1) /\
  file_content (fileName (submission_id env w1)) (files w2)
  = Some (submission_text env w1 b2).
Proof.
  intros w1 w2 V1 V2 D1 D2 T1 T2 Hid. subst w2.
  destruct (stored_run env st b2 w1 V2 D2) as (r2 & w2 & R2 & _ & _ & F2).
  rewrite R2. cbn [snd].
  assert (F1 : files w1 = upsert (fileName (submission_id env w))
                            (submission_text env w b1) (files w)).
  { subst w1.
    destruct (stored_run env st b1 w V1 D1) as (r1 & w1 & R1 & _ & _ & F1).
    rewrite R1. exact F1. }
  assert (Hn : fileName (submission_id env w1) <> fileName (submission_id env w)).
  { intros E. apply Hid. apply fileName_inj; [| |exact E];
      apply time_value_range; assumption. }
  split; [exact Hn|]. rewrite F2. split; [|apply upsert_content].
  rewrite upsert_other by congruence. rewrite F1. apply upsert_content.
Qed.

Lemma distinct_ids_keep_both_records_witness :
  fileName (submission_id env_ok after_one_submission)
  <> fileName (submission_id env_ok empty_world) /\
  file_content (fileName (submission_id env_ok empty_world))
    (files after_two_submissions)
  = Some (submission_text env_ok empty_world (sample_body (PNum (Fin 4)))) /\
  file_content (fileName (submission_id env_ok after_one_submission))
    (files after_two_submissions)
  = Some (submission_text env_ok after_one_submission other_body).
Proof.
  apply (distinct_ids_keep_both_records env_ok st_disabled
           (sample_body (PNum (Fin 4))) other_body empty_world);
    try reflexivity;
    try (unfold time_value; split; vm_compute; discriminate).
  vm_compute. discriminate.
Defined.

(** X8.  The [error] detail of an answer is present only on a 500
    answer of a process running with [NODE_ENV=development]; there it
    is the message of the exception that reached the outer [catch]:
    the one the write threw or, when the write went through, the
    [TypeError] of a name that cannot be converted to a string.  In
    any other mode no answer carries it. *)
Theorem error_detail_only_in_development env st b w :
  exists r w',
    post_reservations env st b w = (Returned r, w') /\
    (error r <> None -> NODE_ENV env = Some "development" /\ status r = 500) /\
    (status r = 500 -> NODE_ENV env = Some "development" ->
     match disk_write env (files w) (fileName (submission_id env w))
             (submission_text env w b) with
     | Some e => error r = Some (message_of e)
     | None => ToString (name b) = None /\
               error r = Some "Cannot convert object to primitive value"
     end).
Proof.
  destruct (post_run env st b w) as (r & w' & Hr & Hrun).
  exists r, w'. split; [exact Hr|].
  destruct Hrun as [Hv|e w' Hv Hd _ _ _|w' Hv Hd Hs _ _ _
                   |attempts w' Hv Hd Hs _ _ _ _ _ _];
    unfold json_message, failure_response; cbn [error status].
  - split; [intros H; exfalso; apply H; reflexivity|discriminate].
  - rewrite Hd.
    destruct (NODE_ENV env) as [mode|];
      [|split; [intros H; exfalso; apply H; reflexivity|discriminate]].
    destruct (String.eqb mode "development") eqn:E.
    + apply String.eqb_eq in E. subst mode.
      split; [split; reflexivity|]. intros _ _. reflexivity.
    + split; [intros H; exfalso; apply H; reflexivity|].
      intros _ H. injection H as ->. discriminate.
  - rewrite Hd.
    destruct (NODE_ENV env) as [mode|];
      [|split; [intros H; exfalso; apply H; reflexivity|discriminate]].
    destruct (String.eqb mode "development") eqn:E.
    + apply String.eqb_eq in E. subst mode.
      split; [split; reflexivity|]. intros _ _. split; [exact Hs|reflexivity].
    + split; [intros H; exfalso; apply H; reflexivity|].
      intros _ H. injection H as ->. discriminate.
  - split; [intros H; exfalso; apply H; reflexivity|discriminate].
Qed.

Lemma error_detail_only_in_development_witness :
  exists r w',
    post_reservations env_development st_ready (sample_body (PNum (Fin 4)))
      empty_world = (Returned r, w') /\
    error r = Some "ENOSPC: no space left on device".
Proof.
  destruct (error_detail_only_in_development env_development st_ready
              (sample_body (PNum (Fin 4))) empty_world)
    as (r & w' & Hr & _ & H).
  exists r, w'. split; [exact Hr|].
  assert (Hs : status r = 500).
  { vm_compute in Hr. injection Hr as <- _. reflexivity. }
  exact (H Hs eq_refl).
Defined.

(** ** The two scripts build the same messages *)

(** A record that answers every property access as the submission's
    record does gives the batch sender the messages the server built,
    or none where the server could build none. *)
Lemma messages_of_record env id submitted b props :
  (forall k, lookup k props = get k (reservationData id submitted b)) ->
  property "name" (JObj props) = Some (name b) /\
  restaurantEmail env (JObj props) = mailOptions env b /\
  batch_confirmationEmail env (JObj props) = confirmationEmail env b /\
  get "email" (JObj props) = email b.
Proof.
  intros Hget.
  unfold property, restaurantEmail, batch_confirmationEmail, mailOptions,
    confirmationEmail.
  cbn [get]. rewrite !Hget.
  unfold reservationData. cbn [get lookup String.eqb Ascii.eqb Bool.eqb].
  repeat split.
Qed.

(** Scalars can always be shown: both messages can be built. *)
Lemma scalar_messages env b :
  scalar_body b = true ->
  exists m1 m2, mailOptions env b = Some m1 /\ confirmationEmail env b = Some m2.
Proof.
  unfold scalar_body. cbn [forallb]. intros H.
  repeat (apply andb_prop in H; destruct H as [? H]).
  unfold mailOptions, confirmationEmail, format_date.
  destruct (name b) as [p1| |]; try discriminate.
  destruct (phone b) as [p2| |]; try discriminate.
  destruct (email b) as [p3| |]; try discriminate.
  destruct (date b) as [p4| |]; try discriminate.
  destruct (time b) as [p5| |]; try discriminate.
  destruct (guests b) as [p6| |]; try discriminate.
  destruct (notes b) as [p7| |]; try discriminate.
  cbn [ToString ToPrimitive option_map interpolate truthy].
  destruct (ToBoolean p7); eexists; eexists; split; reflexivity.
Qed.

(** A body of scalars that come back as they were written. *)
Lemma storable_body_plain b :
  storable_body b = true ->
  scalar_body b = true /\ json_body b = true /\
  forallb finite_only
    [name b; phone b; email b; date b; time b; guests b; notes b] = true.
Proof.
  assert (Hone : forall v, storable_value v = true ->
            is_scalar v = true /\ json_field v = true /\ finite_only v = true).
  { intros [p| |]; try discriminate. unfold storable_value, storable_field.
    destruct p as [| |[|]|n|s]; try (intros _; repeat split; reflexivity).
    destruct n as [| | |z|m k]; try discriminate.
    cbn [defined negb orb storable]. intros H.
    apply andb_prop in H. destruct H as [Hlo Hhi].
    apply Z.ltb_lt in Hlo. apply Z.ltb_lt in Hhi.
    split; [reflexivity|]. split; [|reflexivity].
    unfold json_field. cbn [is_defined negb orb json_value].
    apply normal_below_ten_21. lia. }
  unfold storable_body, scalar_body, json_body. cbn [forallb]. intros H.
  repeat (apply andb_prop in H; destruct H as [? H]).
  repeat match goal with
         | H : storable_value ?v = true |- _ =>
             destruct (Hone v H) as (-> & -> & ->); clear H
         end.
  repeat split.
Qed.

(** What the batch sender prepares from the text of a submission whose
    fields come back as they were written. *)
Lemma prepared_submission_text env b w :
  missing_required b = false ->
  json_body b = true ->
  forallb finite_only
    [name b; phone b; email b; date b; time b; guests b; notes b] = true ->
  - 10 ^ 21 < submission_id env w < 10 ^ 21 ->
  prepared env (submission_text env w b)
  = match mailOptions env b, confirmationEmail env b with
    | Some m1, Some m2 =>
        Some (m1, m2, shown_text (name b), shown_text (email b))
    | _, _ => None
    end.
Proof.
  intros Hv Hj Hfin Hid.
  destruct (record_stored (submission_id env w) (submission_stamp env w) b
              Hid Hv Hj) as (props & Hp & Hget).
  assert (Hsame : forall k, lookup k props
                            = get k (reservationData (submission_id env w)
                                       (submission_stamp env w) b)).
  { intros k. rewrite Hget. apply non_finite_to_null_finite.
    cbn [forallb] in Hfin.
    repeat (apply andb_prop in Hfin; destruct Hfin as [? Hfin]).
    cbn [get reservationData lookup].
    repeat match goal with
           | |- context [String.eqb ?a k] =>
               destruct (String.eqb a k); [first [assumption|reflexivity]|]
           end.
    reflexivity. }
  unfold prepared, submission_text, submission_record. rewrite Hp.
  destruct (messages_of_record env _ _ b props Hsame) as (H1 & H2 & H3 & H4).
  rewrite H1, H2, H3, H4.
  destruct (mailOptions env b), (confirmationEmail env b); reflexivity.
Qed.

(** X9.  The batch sender rebuilds the messages of the submission: for
    a record the server stored (its fields strings, booleans, [null],
    absent, or integers below [10^21] in magnitude), the restaurant-facing
    and the guest-facing message the batch sender prepares from the
    file are the two messages the server built when the submission
    came in, recipient, subject and interpolated texts alike. *)
Theorem batch_rebuilds_server_messages env st b w :
  missing_required b = false ->
  storable_body b = true ->
  - 10 ^ 21 < submission_id env w < 10 ^ 21 ->
  disk_write env (files w) (fileName (submission_id env w))
    (submission_text env w b) = None ->
  exists data m1 m2,
    file_content (fileName (submission_id env w))
      (files (snd (post_reservations env st b w))) = Some data /\
    mailOptions env b = Some m1 /\
    confirmationEmail env b = Some m2 /\
    prepared env data
    = Some (m1, m2, shown_text (name b), shown_text (email b)).
Proof.
  intros Hv Hs Hid Hd.
  destruct (stored_run env st b w Hv Hd) as (r & w' & Hr & _ & _ & Hf).
  rewrite Hr. cbn [snd]. rewrite Hf.
  destruct (storable_body_plain b Hs) as (Hsc & Hj & Hfin).
  destruct (scalar_messages env b Hsc) as (m1 & m2 & Hm1 & Hm2).
  exists (submission_text env w b), m1, m2.
  split; [apply upsert_content|]. split; [exact Hm1|]. split; [exact Hm2|].
  rewrite (prepared_submission_text env b w Hv Hj Hfin Hid), Hm1, Hm2.
  reflexivity.
Qed.

Lemma batch_rebuilds_server_messages_witness :
  exists data m1 m2,
    file_content (fileName (submission_id env_ok empty_world))
      (files (snd (post_reservations env_ok st_ready other_body empty_world)))
    = Some data /\
    mailOptions env_ok other_body = Some m1 /\
    confirmationEmail env_ok other_body = Some m2 /\
    prepared env_ok data
    = Some (m1, m2, shown_text (name other_body), shown_text (email other_body)).
Proof.
  apply (batch_rebuilds_server_messages env_ok st_ready other_body empty_world).
  - reflexivity.
  - reflexivity.
  - split; reflexivity.
  - reflexivity.
Defined.

(** ** Every run of [GET /api/reservations] *)

Lemma read_record_content n w :
  read_record n w
  = (match file_content n (files w) with
     | Some d => match JSON_parse d with
                 | Some v => Returned v
                 | None => Thrown (Error "Unexpected token in JSON")
                 end
     | None => Thrown (Error "ENOENT: no such file or directory")
     end, w).
Proof.
  unfold read_record, readFileSync, bind.
  destruct (file_content n (files w)) as [d|]; [|reflexivity].
  destruct (JSON_parse d); reflexivity.
Qed.

Lemma get_reservations_run env w :
  get_reservations env w
  = (Returned
       match disk_read env (files w) with
       | Some _ => json_message 500 false "Failed to retrieve reservations"
       | None =>
           match fst (mapM read_record (listed_names w) w) with
           | Returned parsed =>
               match sort_by by_submittedAt parsed with
               | Some sorted =>
                   {| status := 200; success := true; message := None;
                      reservations := Some sorted; error := None |}
               | None => json_message 500 false "Failed to retrieve reservations"
               end
           | Thrown _ => json_message 500 false "Failed to retrieve reservations"
           end
       end, w).
Proof.
  unfold get_reservations, try_catch, bind, readdirSync.
  destruct (disk_read env (files w)); [reflexivity|].
  fold (listed_names w).
  destruct (mapM_read_pure (listed_names w) w) as [[parsed|e] Hm]; rewrite Hm;
    [|reflexivity].
  cbn [fst]. destruct (sort_by by_submittedAt parsed); reflexivity.
Qed.

(** X10.  [GET /api/reservations] always answers and changes nothing:
    the files, the outbox, the console and the clock are as before.
    The answer is either status 200 with [success = true] and a list
    of records, or status 500 with [success = false] and the fixed
    message "Failed to retrieve reservations", which is what a
    directory that cannot be listed gets; the 500 answer never carries
    a detail of the error. *)
Theorem listing_answers_and_changes_nothing env w :
  exists r,
    get_reservations env w = (Returned r, w) /\
    ((status r = 200 /\ success r = true /\ reservations r <> None) \/
     r = {| status := 500; success := false;
            message := Some "Failed to retrieve reservations";
            reservations := None; error := None |}) /\
    (disk_read env (files w) <> None -> status r = 500).
Proof.
  rewrite get_reservations_run. eexists. split; [reflexivity|].
  destruct (disk_read env (files w)).
  - split; [right; reflexivity|reflexivity].
  - split; [|intros H; exfalso; apply H; reflexivity].
    destruct (fst (mapM read_record (listed_names w) w)) as [parsed|e];
      [|right; reflexivity].
    destruct (sort_by by_submittedAt parsed); [left|right; reflexivity].
    repeat split. discriminate.
Qed.

Example ex_unreadable_directory :
  get_reservations env_unreadable three_records
  = (Returned (json_message 500 false "Failed to retrieve reservations"),
     three_records).
Proof. reflexivity. Qed.

Lemma mapM_read_agree names w1 w2 :
  (forall n, In n names -> file_content n (files w1) = file_content n (files w2)) ->
  fst (mapM read_record names w1) = fst (mapM read_record names w2).
Proof.
  induction names as [|n names IH]; intros H; [reflexivity|].
  cbn [mapM]. unfold bind. rewrite !read_record_content.
  rewrite (H n) by (left; reflexivity).
  destruct (file_content n (files w2)) as [d|]; [|reflexivity].
  destruct (JSON_parse d) as [v|]; [|reflexivity].
  assert (IH' := IH (fun m Hm => H m (or_intror Hm))).
  destruct (mapM_read_pure names w1) as [r1 H1].
  destruct (mapM_read_pure names w2) as [r2 H2].
  rewrite H1, H2 in *. cbn [fst] in IH'. subst r2.
  destruct r1; reflexivity.
Qed.

(** X11.  The listing looks at the files whose names start with
    [reservation-] and at nothing else: two directories that list the
    same reservation files in the same order, with the same contents,
    get the same answer, whatever other files they hold (readable as
    JSON or not). *)
Theorem listing_ignores_other_files env w1 w2 :
  disk_read env (files w1) = None ->
  disk_read env (files w2) = None ->
  listed_names w1 = listed_names w2 ->
  map (fun n => file_content n (files w1)) (listed_names w1)
  = map (fun n => file_content n (files w2)) (listed_names w1) ->
  fst (get_reservations env w1) = fst (get_reservations env w2).
Proof.
  intros D1 D2 Hn Hc. rewrite !get_reservations_run. cbn [fst].
  rewrite D1, D2, <- Hn.
  rewrite (mapM_read_agree (listed_names w1) w1 w2); [reflexivity|].
  apply map_ext_in_iff. exact Hc.
Qed.

Lemma listing_ignores_other_files_witness :
  fst (get_reservations env_ok three_records_and_more)
  = fst (get_reservations env_ok three_records).
Proof.
  apply (listing_ignores_other_files env_ok three_records_and_more three_records);
    reflexivity.
Defined.

Lemma get_reservations_parsed env w r l :
  fst (get_reservations env w) = Returned r ->
  reservations r = Some l ->
  exists parsed,
    mapM read_record (listed_names w) w = (Returned parsed, w) /\
    sort_by by_submittedAt parsed = Some l.
Proof.
  rewrite get_reservations_run. cbn [fst]. intros Hr Hl.
  injection Hr as <-.
  destruct (disk_read env (files w)); [discriminate|].
  destruct (mapM_read_pure (listed_names w) w) as [[parsed|e] Hm];
    rewrite Hm in Hl; cbn [fst] in Hl; [|discriminate].
  exists parsed. split; [exact Hm|].
  destruct (sort_by by_submittedAt parsed); [|discriminate].
  cbn in Hl. exact Hl.
Qed.

(** X12.  A successful listing holds one record for every reservation
    file, no more and no fewer: the list in the answer is a
    rearrangement of the values [JSON.parse] gives for the contents of
    the files whose names start with [reservation-]. *)
Theorem listing_has_every_record env w r l :
  fst (get_reservations env w) = Returned r ->
  reservations r = Some l ->
  exists parsed,
    Forall2 (fun n v => exists d, file_content n (files w) = Some d /\
                                  JSON_parse d = Some v)
      (listed_names w) parsed /\
    Permutation parsed l /\
    List.length l = List.length (listed_names w).
Proof.
  intros Hr Hl.
  destruct (get_reservations_parsed env w r l Hr Hl) as (parsed & Hm & Hs).
  exists parsed.
  destruct (mapM_read_returned _ _ _ _ Hm) as [_ HF].
  assert (HF' : Forall2 (fun n v => exists d, file_content n (files w) = Some d /\
                                              JSON_parse d = Some v)
                  (listed_names w) parsed).
  { eapply Forall2_impl; [|exact HF]. intros n v H. cbv beta in H.
    rewrite read_record_content in H.
    destruct (file_content n (files w)) as [d|]; [|discriminate].
    exists d. split; [reflexivity|].
    destruct (JSON_parse d); [|discriminate]. injection H as ->. reflexivity. }
  split; [exact HF'|].
  pose proof (sort_by_perm by_submittedAt parsed l Hs) as HP.
  split; [exact HP|].
  rewrite <- (Permutation_length HP). symmetry.
  apply (Forall2_length HF').
Qed.

Lemma listing_has_every_record_witness :
  exists parsed,
    Forall2 (fun n v => exists d,
                          file_content n (files three_records_and_more) = Some d /\
                          JSON_parse d = Some v)
      (listed_names three_records_and_more) parsed /\
    Permutation parsed
      [parsed_at 1700000000000; parsed_at 1700000060000; parsed_at 1700000120000] /\
    List.length
      [parsed_at 1700000000000; parsed_at 1700000060000; parsed_at 1700000120000]
    = List.length (listed_names three_records_and_more).
Proof.
  apply (listing_has_every_record env_ok three_records_and_more
           {| status := 200; success := true; message := None;
              reservations := Some [parsed_at 1700000000000;
                                    parsed_at 1700000060000;
                                    parsed_at 1700000120000];
              error := None |}).
  - vm_compute. reflexivity.
  - reflexivity.
Defined.

(** ** The comparator on numbers *)

Lemma by_submittedAt_integers a b ta tb :
  integer_stamp a = Some ta -> integer_stamp b = Some tb ->
  by_submittedAt a b = Some (Fin (tb - ta)).
Proof.
  unfold integer_stamp, by_submittedAt, property. intros Ha Hb.
  destruct a as [pa|ia|pa]; try discriminate.
  destruct b as [pb|ib|pb]; try discriminate.
  destruct (get "submittedAt" (JObj pa)) as [[| | |[| | |za|]|]| |];
    try discriminate.
  destruct (get "submittedAt" (JObj pb)) as [[| | |[| | |zb|]|]| |];
    try discriminate.
  injection Ha as ->. injection Hb as ->.
  cbn. f_equal. f_equal. lia.
Qed.

Lemma insert_sorted_newest_first x l :
  integer_stamp x <> None ->
  Forall (fun v => integer_stamp v <> None) l ->
  StronglySorted not_older l ->
  exists l', insert_sorted by_submittedAt x l = Some l' /\
             StronglySorted not_older l' /\ Permutation (x :: l) l'.
Proof.
  intros Hx Hl Hs. induction l as [|y r IH].
  - exists [x]. split; [reflexivity|]. split; [|apply Permutation_refl].
    repeat constructor.
  - inversion Hl as [|? ? Hy Hr]; subst.
    inversion Hs as [|? ? Hsr Hyr]; subst.
    destruct (integer_stamp x) as [tx|] eqn:Ex; [|congruence].
    destruct (integer_stamp y) as [ty|] eqn:Ey; [|congruence].
    cbn [insert_sorted]. rewrite (by_submittedAt_integers x y tx ty Ex Ey).
    cbn [compare_sign].
    destruct (Z.compare_spec (ty - tx) 0) as [E|E|E].
    + exists (x :: y :: r). split; [reflexivity|]. split; [|apply Permutation_refl].
      constructor; [exact Hs|].
      assert (Hxy : not_older x y)
        by (unfold not_older, stamp_or_zero; rewrite Ex, Ey; lia).
      constructor; [exact Hxy|].
      eapply Forall_impl; [|exact Hyr]. unfold not_older in *. intros; lia.
    + exists (x :: y :: r). split; [reflexivity|]. split; [|apply Permutation_refl].
      constructor; [exact Hs|].
      assert (Hxy : not_older x y)
        by (unfold not_older, stamp_or_zero; rewrite Ex, Ey; lia).
      constructor; [exact Hxy|].
      eapply Forall_impl; [|exact Hyr]. unfold not_older in *. intros; lia.
    + destruct (IH Hr Hsr) as (r' & Hi & Hs' & Hp).
      rewrite Hi. exists (y :: r'). split; [reflexivity|].
      split.
      * constructor; [exact Hs'|].
        apply (Permutation_Forall Hp). constructor; [|exact Hyr].
        unfold not_older, stamp_or_zero. rewrite Ex, Ey. lia.
      * apply perm_trans with (y :: x :: r); [apply perm_swap|].
        apply perm_skip. exact Hp.
Qed.

Lemma sort_by_newest_first l :
  Forall (fun v => integer_stamp v <> None) l ->
  exists l', sort_by by_submittedAt l = Some l' /\
             StronglySorted not_older l' /\ Permutation l l'.
Proof.
  induction l as [|x r IH]; intros Hl.
  - exists []. repeat split; constructor.
  - inversion Hl as [|? ? Hx Hr]; subst.
    destruct (IH Hr) as (r' & Hsort & Hs & Hp).
    cbn [sort_by]. rewrite Hsort.
    destruct (insert_sorted_newest_first x r' Hx) as (l' & Hi & Hs' & Hp');
      [apply (Permutation_Forall Hp); exact Hr|exact Hs|].
    exists l'. split; [exact Hi|]. split; [exact Hs'|].
    apply perm_trans with (x :: r'); [apply perm_skip; exact Hp|exact Hp'].
Qed.

(** X13.  On records whose [submittedAt] is an integer (a time value
    rather than its ISO-8601 text) the comparator of the listing does
    order: the answer lists the same records newest first, every
    record's [submittedAt] being at least that of every record after
    it. *)
Theorem integer_stamps_listed_newest_first env w l :
  disk_read env (files w) = None ->
  mapM read_record (listed_names w) w = (Returned l, w) ->
  Forall (fun v => integer_stamp v <> None) l ->
  exists sorted,
    get_reservations env w
    = (Returned {| status := 200; success := true; message := None;
                   reservations := Some sorted; error := None |}, w) /\
    Permutation l sorted /\
    StronglySorted not_older sorted.
Proof.
  intros Hd Hm Hl.
  destruct (sort_by_newest_first l Hl) as (sorted & Hsort & Hs & Hp).
  exists sorted. split; [|split; assumption].
  rewrite get_reservations_run, Hd, Hm. cbn [fst]. rewrite Hsort. reflexivity.
Qed.

Lemma integer_stamps_listed_newest_first_witness :
  exists sorted,
    get_reservations env_ok numbered_records
    = (Returned {| status := 200; success := true; message := None;
                   reservations := Some sorted; error := None |},
       numbered_records) /\
    Permutation [numbered 100; numbered 200; numbered 300] sorted /\
    StronglySorted not_older sorted.
Proof.
  apply (integer_stamps_listed_newest_first env_ok numbered_records
           [numbered 100; numbered 200; numbered 300]).
  - reflexivity.
  - vm_compute. reflexivity.
  - repeat constructor; discriminate.
Defined.

(** ** A record that is [null] *)

Lemma sort_by_null l :
  In JNull l -> (2 <= List.length l)%nat ->
  sort_by by_submittedAt l = None.
Proof.
  induction l as [|x r IH]; intros Hin Hlen; [contradiction|].
  cbn [sort_by].
  destruct (sort_by by_submittedAt r) as [r'|] eqn:Hsort; [|reflexivity].
  pose proof (sort_by_perm by_submittedAt r r' Hsort) as Hp.
  destruct r' as [|y r''].
  { apply Permutation_length in Hp. cbn in Hp, Hlen. lia. }
  cbn [insert_sorted].
  destruct Hin as [->|Hin].
  - unfold by_submittedAt. cbn [property JNull].
    destruct (property "submittedAt" y); reflexivity.
  - destruct r as [|z [|z' r0]].
    + contradiction.
    + destruct Hin as [->|[]]. cbn in Hsort. injection Hsort as <- <-.
      unfold by_submittedAt. reflexivity.
    + assert (Hnone : Some (y :: r'') = None) by (apply IH; [exact Hin|cbn; lia]).
      discriminate Hnone.
Qed.

(** X14.  A reservation file that holds the JSON text [null] breaks
    the listing as soon as the directory has a second reservation
    file: reading [submittedAt] of [null] throws inside the comparator,
    and the answer is status 500 with "Failed to retrieve
    reservations". *)
Theorem null_record_fails_listing env w n d :
  file_content n (files w) = Some d ->
  String.prefix "reservation-" n = true ->
  JSON_parse d = Some JNull ->
  (2 <= List.length (listed_names w))%nat ->
  get_reservations env w
  = (Returned {| status := 500; success := false;
                 message := Some "Failed to retrieve reservations";
                 reservations := None; error := None |}, w).
Proof.
  intros Hc Hp Hj Hlen. rewrite get_reservations_run.
  destruct (disk_read env (files w)); [reflexivity|].
  destruct (mapM_read_pure (listed_names w) w) as [[parsed|e] Hm]; rewrite Hm;
    [|reflexivity].
  cbn [fst]. rewrite sort_by_null; [reflexivity| |].
  - destruct (mapM_read_returned _ _ _ _ Hm) as [_ HF].
    assert (Hin : In n (listed_names w)).
    { apply filter_In. split; [|exact Hp].
      apply file_content_listed with d. exact Hc. }
    pose proof (read_record_parsed n d JNull w Hc Hj) as Hread.
    clear - HF Hin Hread.
    induction HF as [|m v names vs Hmv HF IH]; [contradiction|].
    destruct Hin as [->|Hin].
    + rewrite Hread in Hmv. injection Hmv as <-. left. reflexivity.
    + right. apply IH. exact Hin.
  - destruct (mapM_read_returned _ _ _ _ Hm) as [_ HF].
    rewrite <- (Forall2_length HF). exact Hlen.
Qed.

Lemma null_record_fails_listing_witness :
  get_reservations env_ok null_record
  = (Returned {| status := 500; success := false;
                 message := Some "Failed to retrieve reservations";
                 reservations := None; error := None |}, null_record).
Proof.
  apply (null_record_fails_listing env_ok null_record
           (fileName 1700000060000) "null").
  - reflexivity.
  - reflexivity.
  - reflexivity.
  - vm_compute. apply le_n.
Defined.

(** ** Every run of the batch sender *)

Lemma insert_name_perm x l : Permutation (x :: l) (insert_name x l).
Proof.
  induction l as [|y r IH]; cbn [insert_name]; [apply Permutation_refl|].
  destruct (name_leb x y); [apply Permutation_refl|].
  apply perm_trans with (y :: x :: r); [apply perm_swap|].
  apply perm_skip. exact IH.
Qed.

Lemma sort_names_perm l : Permutation l (sort_names l).
Proof.
  induction l as [|x r IH]; [constructor|].
  unfold sort_names. cbn [fold_right].
  apply perm_trans with (x :: sort_names r); [apply perm_skip; exact IH|].
  apply insert_name_perm.
Qed.

(** Of two sequences of code units, one is not after the other. *)
Lemma units_leb_total a : forall b, units_leb a b = false -> units_leb b a = true.
Proof.
  induction a as [|x a IH]; intros [|y b] H; cbn [units_leb] in *;
    try discriminate; try reflexivity.
  destruct (x <? y)%N eqn:E1; [discriminate|].
  destruct (y <? x)%N eqn:E2; [reflexivity|].
  apply IH. exact H.
Qed.

Lemma name_leb_total x y : name_leb x y = false -> name_le y x.
Proof. unfold name_le, name_leb. apply units_leb_total. Qed.

Lemma insert_name_sorted x l :
  Sorted name_le l -> Sorted name_le (insert_name x l).
Proof.
  induction l as [|y r IH]; intros Hs; cbn [insert_name].
  - repeat constructor.
  - destruct (name_leb x y) eqn:E.
    + constructor; [exact Hs|]. constructor. exact E.
    + inversion Hs as [|? ? Hr Hy]; subst.
      constructor; [apply IH; exact Hr|].
      assert (Hyx : name_le y x) by (apply name_leb_total; exact E).
      destruct r as [|z r']; cbn [insert_name].
      * constructor. exact Hyx.
      * destruct (name_leb x z); constructor; [exact Hyx|].
        inversion Hy; assumption.
Qed.

Lemma sort_names_sorted l : Sorted name_le (sort_names l).
Proof.
  induction l as [|x r IH]; [constructor|].
  unfold sort_names. cbn [fold_right]. apply insert_name_sorted. exact IH.
Qed.

Section BatchRuns.
Variable env : Env.

Lemma send_pair_groups m1 m2 shown to w :
  exists w' g lines,
    send_pair env m1 m2 shown to w = (Returned tt, w') /\
    files w' = files w /\
    outbox w' = (outbox w ++ g)%list /\
    console w' = (console w ++ lines)%list /\
    ((g = [(m1, false)] /\ smtp_send env (outbox w) m1 <> None) \/
     (exists ok, g = [(m1, true); (m2, ok)] /\
                 smtp_send env (outbox w) m1 = None)).
Proof.
  unfold send_pair. run_monad.
  destruct (smtp_send env (outbox w) m1) as [e1|] eqn:E1; run_monad.
  - eexists. exists [(m1, false)]. eexists.
    split; [reflexivity|]. split; [reflexivity|]. split; [reflexivity|].
    split; [reflexivity|]. left. split; [reflexivity|discriminate].
  - destruct (smtp_send env (outbox w ++ [(m1, true)]) m2) as [e2|]; run_monad.
    + eexists. exists [(m1, true); (m2, false)]. eexists.
      split; [reflexivity|]. split; [reflexivity|].
      split; [cbn [outbox]; rewrite <- app_assoc; reflexivity|].
      split; [cbn [console]; rewrite <- app_assoc; reflexivity|].
      right. exists false. split; reflexivity.
    + eexists. exists [(m1, true); (m2, true)]. eexists.
      split; [reflexivity|]. split; [reflexivity|].
      split; [cbn [outbox]; rewrite <- app_assoc; reflexivity|].
      split; [cbn [console]; rewrite <- !app_assoc; reflexivity|].
      right. exists true. split; reflexivity.
Qed.

(** The loop over files that can all be read. *)
Lemma for_each_groups names : forall w w0,
  files w = files w0 ->
  all_prepared env w0 names = true ->
  exists w' groups lines,
    for_each env names w = (Returned tt, w') /\
    files w' = files w0 /\
    outbox w' = (outbox w ++ List.concat groups)%list /\
    console w' = (console w ++ lines)%list /\
    Forall2 (record_attempts env w0) names groups.
Proof.
  induction names as [|n names IH]; intros w w0 Hf Hall.
  - exists w, [], []. cbn [for_each List.concat]. unfold ret.
    rewrite !app_nil_r. repeat split; try assumption. constructor.
  - cbn [all_prepared forallb] in Hall. apply andb_prop in Hall.
    destruct Hall as [Hn Hrest].
    destruct (file_content n (files w0)) as [d|] eqn:Hc; [|discriminate].
    destruct (prepared env d) as [[[[m1 m2] shown] to]|] eqn:Hp; [|discriminate].
    cbn [for_each]. unfold bind.
    rewrite (process_file_prepared env n d m1 m2 shown to w)
      by (rewrite ?Hf; assumption).
    destruct (send_pair_groups m1 m2 shown to w)
      as (w1 & g & l1 & Hrun & Hf1 & Ho1 & Hc1 & Hg).
    rewrite Hrun.
    destruct (IH w1 w0) as (w2 & groups & l2 & Hrun2 & Hf2 & Ho2 & Hc2 & HF);
      [congruence|exact Hrest|].
    rewrite Hrun2.
    exists w2, (g :: groups), (l1 ++ l2)%list.
    split; [reflexivity|]. split; [exact Hf2|].
    split; [cbn [List.concat]; rewrite Ho2, Ho1, app_assoc; reflexivity|].
    split; [rewrite Hc2, Hc1, app_assoc; reflexivity|].
    constructor; [|exact HF].
    exists d, m1, m2, shown, to. split; [exact Hc|]. split; [exact Hp|].
    destruct Hg as [[-> Hs]|[ok [-> Hs]]].
    + left. split; [reflexivity|]. exists (outbox w). exact Hs.
    + right. exists ok. split; [reflexivity|]. exists (outbox w). exact Hs.
Qed.

Lemma process_file_abort n w w0 :
  files w = files w0 ->
  all_prepared env w0 [n] = false ->
  exists e, process_file env n w = (Thrown e, w).
Proof.
  intros Hf Hn. cbn [all_prepared forallb] in Hn. rewrite andb_true_r in Hn.
  unfold process_file, readFileSync, bind. rewrite Hf.
  destruct (file_content n (files w0)) as [d|]; [|eexists; reflexivity].
  unfold prepared in Hn.
  destruct (JSON_parse d) as [reservation|]; [|eexists; reflexivity].
  unfold ret.
  destruct (property "name" reservation) as [nm|]; [|eexists; reflexivity].
  destruct (restaurantEmail env reservation) as [a|];
    [|destruct (batch_confirmationEmail env reservation); eexists; reflexivity].
  destruct (batch_confirmationEmail env reservation) as [c|];
    [discriminate|eexists; reflexivity].
Qed.

(** The loop up to a file that cannot be read: the files before it get
    their sends, the files after it are never looked at. *)
Lemma for_each_abort pre n post : forall w w0,
  files w = files w0 ->
  all_prepared env w0 pre = true ->
  all_prepared env w0 [n] = false ->
  exists e w' groups lines,
    for_each env (pre ++ n :: post) w = (Thrown e, w') /\
    files w' = files w0 /\
    outbox w' = (outbox w ++ List.concat groups)%list /\
    console w' = (console w ++ lines)%list /\
    Forall2 (record_attempts env w0) pre groups.
Proof.
  induction pre as [|m pre IH]; intros w w0 Hf Hall Hn.
  - destruct (process_file_abort n w w0 Hf Hn) as [e He].
    exists e, w, [], []. cbn [app for_each List.concat]. unfold bind. rewrite He.
    rewrite !app_nil_r. repeat split; try assumption. constructor.
  - cbn [all_prepared forallb] in Hall. apply andb_prop in Hall.
    destruct Hall as [Hm Hrest].
    destruct (file_content m (files w0)) as [d|] eqn:Hc; [|discriminate].
    destruct (prepared env d) as [[[[m1 m2] shown] to]|] eqn:Hp; [|discriminate].
    cbn [app for_each]. unfold bind.
    rewrite (process_file_prepared env m d m1 m2 shown to w)
      by (rewrite ?Hf; assumption).
    destruct (send_pair_groups m1 m2 shown to w)
      as (w1 & g & l1 & Hrun & Hf1 & Ho1 & Hc1 & Hg).
    rewrite Hrun.
    destruct (IH w1 w0) as (e & w2 & groups & l2 & Hrun2 & Hf2 & Ho2 & Hc2 & HF);
      [congruence|exact Hrest|exact Hn|].
    rewrite Hrun2.
    exists e, w2, (g :: groups), (l1 ++ l2)%list.
    split; [reflexivity|]. split; [exact Hf2|].
    split; [cbn [List.concat]; rewrite Ho2, Ho1, app_assoc; reflexivity|].
    split; [rewrite Hc2, Hc1, app_assoc; reflexivity|].
    constructor; [|exact HF].
    exists d, m1, m2, shown, to. split; [exact Hc|]. split; [exact Hp|].
    destruct Hg as [[-> Hs]|[ok [-> Hs]]].
    + left. split; [reflexivity|]. exists (outbox w). exact Hs.
    + right. exists ok. split; [reflexivity|]. exists (outbox w). exact Hs.
Qed.

Lemma all_prepared_split w0 names :
  all_prepared env w0 names = false ->
  exists pre n post,
    names = (pre ++ n :: post)%list /\
    all_prepared env w0 pre = true /\
    all_prepared env w0 [n] = false.
Proof.
  induction names as [|m names IH]; [discriminate|].
  intros H.
  destruct (all_prepared env w0 [m]) eqn:Hm.
  - assert (Hrest : all_prepared env w0 names = false).
    { cbn [all_prepared forallb] in H, Hm. rewrite andb_true_r in Hm.
      rewrite Hm in H. exact H. }
    destruct (IH Hrest) as (pre & n & post & -> & Hpre & Hn).
    exists (m :: pre), n, post. split; [reflexivity|]. split; [|exact Hn].
    cbn [all_prepared forallb] in Hm |- *. rewrite andb_true_r in Hm.
    rewrite Hm. exact Hpre.
  - exists [], m, names. repeat split. exact Hm.
Qed.

Lemma groups_length w0 names groups :
  Forall2 (record_attempts env w0) names groups ->
  (List.length names <= List.length (List.concat groups) <= 2 * List.length names)%nat.
Proof.
  induction 1 as [|n g names groups Hg _ IH]; [cbn; lia|].
  cbn [List.concat List.length]. rewrite length_app.
  destruct Hg as (d & m1 & m2 & s & t & _ & _ & [[-> _]|[ok [-> _]]]);
    cbn [List.length]; lia.
Qed.
End BatchRuns.

(** What a run does once the connection is verified and the directory
    is listed. *)
Lemma batch_after_listing env w :
  smtp_verify env = None ->
  disk_read env (files w) = None ->
  sendConfirmationEmails env w
  = try_catch
      (match batch_names w with
       | [] => console_log "No reservations found." ;;; ret Completed
       | _ =>
           console_log
             ("Found "
              ++ NumberToString (Fin (Z.of_nat (List.length (batch_names w))))
              ++ " reservation(s). Sending confirmation emails..." ++ newline) ;;;
           for_each env (batch_names w) ;;;
           console_log "✅ All emails sent successfully!" ;;;
           ret Completed
       end)
      (fun error =>
         console_log ("❌ Error: " ++ message_of error) ;;;
         ret (Exit 1))
      {| files := files w; outbox := outbox w;
         console := console w ++ ["🔐 Verifying Gmail connection...";
                                  "✓ Gmail connection verified!" ++ newline];
         ticks := ticks w |}.
Proof.
  intros Hv Hd.
  unfold sendConfirmationEmails. cbv zeta. fold (batch_names w).
  run_monad. rewrite Hv. run_monad. rewrite Hd. run_monad.
  rewrite <- app_assoc. reflexivity.
Qed.

(** X15.  The batch sender never throws and never touches a stored
    file.  Its exit status is decided by the verification of the
    connection, the listing of the directory and the reading of the
    records, not by the sends: it exits with status 1 exactly when the
    verification throws, the directory cannot be listed, or some
    reservation file cannot be turned into its two messages, and
    completes normally otherwise.  When the verification or the
    listing fails, or there is no reservation file, no send is
    attempted. *)
Theorem batch_exit_status env w :
  exists w',
    sendConfirmationEmails env w
    = (Returned match smtp_verify env, disk_read env (files w) with
                | None, None =>
                    if all_prepared env w (batch_names w) then Completed
                    else Exit 1
                | _, _ => Exit 1
                end, w') /\
    files w' = files w /\
    (smtp_verify env <> None \/ disk_read env (files w) <> None \/
     batch_names w = [] -> outbox w' = outbox w).
Proof.
  destruct (smtp_verify env) as [e|] eqn:Hv.
  { unfold sendConfirmationEmails. cbv zeta. run_monad. rewrite Hv. run_monad.
    eexists. split; [reflexivity|]. split; reflexivity. }
  destruct (disk_read env (files w)) as [e|] eqn:Hd.
  { unfold sendConfirmationEmails. cbv zeta. run_monad. rewrite Hv. run_monad.
    rewrite Hd. run_monad.
    eexists. split; [reflexivity|]. split; reflexivity. }
  rewrite (batch_after_listing env w Hv Hd).
  destruct (batch_names w) as [|n names] eqn:Hn.
  { run_monad. eexists. split; [reflexivity|]. split; reflexivity. }
  match goal with
  | |- context [try_catch _ _ ?w0] => set (w1 := w0)
  end.
  unfold try_catch, bind, console_log at 1.
  match goal with
  | |- context [for_each env (n :: names) ?w0] => set (w2 := w0)
  end.
  assert (Hf : files w2 = files w) by reflexivity.
  destruct (all_prepared env w (n :: names)) eqn:Hall.
  - destruct (for_each_groups env (n :: names) w2 w Hf Hall)
      as (w3 & groups & lines & Hrun & Hf3 & _).
    rewrite Hrun. run_monad.
    eexists. split; [reflexivity|]. split; [exact Hf3|].
    intros [H|[H|H]]; [exfalso; apply H; reflexivity ..|discriminate].
  - destruct (all_prepared_split env w (n :: names) Hall)
      as (pre & m & post & Hsplit & Hpre & Hm).
    rewrite Hsplit.
    destruct (for_each_abort env pre m post w2 w Hf Hpre Hm)
      as (e & w3 & groups & lines & Hrun & Hf3 & _).
    rewrite Hrun. run_monad.
    eexists. split; [reflexivity|]. split; [exact Hf3|].
    intros [H|[H|H]]; [exfalso; apply H; reflexivity ..|].
    destruct pre; discriminate H.
Qed.

(** A run over records that can all be read. *)
Lemma batch_run_groups env w :
  smtp_verify env = None ->
  disk_read env (files w) = None ->
  all_prepared env w (batch_names w) = true ->
  exists w' groups,
    sendConfirmationEmails env w = (Returned Completed, w') /\
    outbox w' = (outbox w ++ List.concat groups)%list /\
    Forall2 (record_attempts env w) (batch_names w) groups.
Proof.
  intros Hv Hd Hall.
  rewrite (batch_after_listing env w Hv Hd).
  destruct (batch_names w) as [|n names] eqn:Hn.
  { run_monad. eexists. exists []. split; [reflexivity|].
    cbn [outbox List.concat]. rewrite app_nil_r.
    split; [reflexivity|constructor]. }
  unfold try_catch, bind, console_log at 1.
  match goal with
  | |- context [for_each env (n :: names) ?w0] => set (w2 := w0)
  end.
  destruct (for_each_groups env (n :: names) w2 w eq_refl Hall)
    as (w3 & groups & lines & Hrun & _ & Ho & _ & HF).
  rewrite Hrun. run_monad.
  eexists. exists groups. split; [reflexivity|].
  split; [exact Ho|exact HF].
Qed.

(** X16.  The batch sender works through the reservation files in
    ascending order of their names, whatever the order in which the
    directory lists them (names are compared as [sort()] compares
    strings, by their UTF-16 code units, the first that differs
    deciding): when every record can be read, the sends it attempts are, record
    after record in that order, the restaurant-facing message alone
    (its send failed) or the restaurant-facing message, sent, followed
    by the guest-facing one. *)
Theorem batch_sends_in_file_order env w :
  smtp_verify env = None ->
  disk_read env (files w) = None ->
  all_prepared env w (batch_names w) = true ->
  exists w' groups,
    sendConfirmationEmails env w = (Returned Completed, w') /\
    outbox w' = (outbox w ++ List.concat groups)%list /\
    Forall2 (record_attempts env w) (batch_names w) groups /\
    Sorted name_le (batch_names w) /\
    Permutation (listed_names w) (batch_names w).
Proof.
  intros Hv Hd Hall.
  destruct (batch_run_groups env w Hv Hd Hall) as (w' & groups & Hrun & Ho & HF).
  exists w', groups.
  split; [exact Hrun|]. split; [exact Ho|]. split; [exact HF|].
  split.
  - apply sort_names_sorted.
  - apply sort_names_perm.
Qed.

Lemma batch_sends_in_file_order_witness :
  exists w' groups,
    sendConfirmationEmails env_first_send_fails three_records
    = (Returned Completed, w') /\
    outbox w' = (outbox three_records ++ List.concat groups)%list /\
    Forall2 (record_attempts env_first_send_fails three_records)
      (batch_names three_records) groups /\
    Sorted name_le (batch_names three_records) /\
    Permutation (listed_names three_records) (batch_names three_records).
Proof.
  exact (batch_sends_in_file_order env_first_send_fails three_records
           eq_refl eq_refl eq_refl).
Defined.

(** X17.  A reservation file that cannot be read as a record (its text
    is not JSON, or it holds [null], or a field cannot be shown) stops
    the batch sender: it exits with status 1, and the last line on the
    console is the error.  The files before it in name order have
    had their sends; the files after it get none, unlike after a send
    that fails. *)
Theorem batch_stops_at_unreadable_record env w pre n post :
  smtp_verify env = None ->
  disk_read env (files w) = None ->
  batch_names w = (pre ++ n :: post)%list ->
  all_prepared env w pre = true ->
  all_prepared env w [n] = false ->
  exists w' groups e,
    sendConfirmationEmails env w = (Returned (Exit 1), w') /\
    outbox w' = (outbox w ++ List.concat groups)%list /\
    Forall2 (record_attempts env w) pre groups /\
    (List.length (List.concat groups) <= 2 * List.length pre)%nat /\
    last (console w') "" = "❌ Error: " ++ message_of e.
Proof.
  intros Hv Hd Hsplit Hpre Hn.
  rewrite (batch_after_listing env w Hv Hd). rewrite Hsplit.
  destruct (pre ++ n :: post)%list as [|m names] eqn:Hnames.
  { destruct pre; discriminate. }
  rewrite <- Hnames.
  unfold try_catch, bind, console_log at 1.
  match goal with
  | |- context [for_each env _ ?w0] => set (w2 := w0)
  end.
  destruct (for_each_abort env pre n post w2 w eq_refl Hpre Hn)
    as (e & w3 & groups & lines & Hrun & _ & Ho & Hc & HF).
  rewrite Hrun. run_monad.
  eexists. exists groups, e.
  split; [reflexivity|]. split; [exact Ho|]. split; [exact HF|].
  split; [apply (groups_length env w pre groups HF)|].
  cbn [console]. apply last_last.
Qed.

Lemma batch_stops_at_unreadable_record_witness :
  exists w' groups e,
    sendConfirmationEmails env_ok truncated_record = (Returned (Exit 1), w') /\
    outbox w' = (outbox truncated_record ++ List.concat groups)%list /\
    Forall2 (record_attempts env_ok truncated_record)
      [fileName 1700000000000] groups /\
    (List.length (List.concat groups)
     <= 2 * List.length [fileName 1700000000000])%nat /\
    last (console w') "" = "❌ Error: " ++ message_of e.
Proof.
  apply (batch_stops_at_unreadable_record env_ok truncated_record
           [fileName 1700000000000] "reservation-1700000060000.json"
           [fileName 1700000120000]); vm_compute; reflexivity.
Defined.

(** X18.  The closing line of the batch sender says nothing about the
    sends: when every record can be read and the transport rejects
    every message, each record gets one attempt (its restaurant-facing
    message), all of them fail, and the run still completes normally
    with "All emails sent successfully!" as its last line. *)
Theorem batch_reports_success_when_every_send_fails env w :
  smtp_verify env = None ->
  disk_read env (files w) = None ->
  all_prepared env w (batch_names w) = true ->
  batch_names w <> [] ->
  (forall history m, smtp_send env history m <> None) ->
  exists w' attempts,
    sendConfirmationEmails env w = (Returned Completed, w') /\
    outbox w' = (outbox w ++ attempts)%list /\
    List.length attempts = List.length (batch_names w) /\
    forallb (fun a => negb (snd a)) attempts = true /\
    last (console w') "" = "✅ All emails sent successfully!".
Proof.
  intros Hv Hd Hall Hne Hfail.
  rewrite (batch_after_listing env w Hv Hd).
  destruct (batch_names w) as [|n names] eqn:Hn; [congruence|].
  unfold try_catch, bind, console_log at 1.
  match goal with
  | |- context [for_each env (n :: names) ?w0] => set (w2 := w0)
  end.
  destruct (for_each_groups env (n :: names) w2 w eq_refl Hall)
    as (w3 & groups & lines & Hrun & _ & Ho & Hc & HF).
  rewrite Hrun. run_monad.
  eexists. exists (List.concat groups).
  split; [reflexivity|]. split; [exact Ho|].
  assert (Hshape : List.length (List.concat groups) = List.length (n :: names) /\
                   forallb (fun a => negb (snd a)) (List.concat groups) = true).
  { clear - HF Hfail.
    induction HF as [|m g ms gs Hg _ IH]; [split; reflexivity|].
    destruct Hg as (d & m1 & m2 & s & t & _ & _ & [[-> _]|[ok [_ [h Hh]]]]).
    - destruct IH as [IH1 IH2]. cbn [List.concat app List.length forallb snd negb].
      rewrite IH1, IH2. split; reflexivity.
    - exfalso. apply (Hfail h m1). exact Hh. }
  split; [apply Hshape|]. split; [apply Hshape|].
  cbn [console]. apply last_last.
Qed.

Lemma batch_reports_success_when_every_send_fails_witness :
  exists w' attempts,
    sendConfirmationEmails env_no_send three_records = (Returned Completed, w') /\
    outbox w' = (outbox three_records ++ attempts)%list /\
    List.length attempts = List.length (batch_names three_records) /\
    forallb (fun a => negb (snd a)) attempts = true /\
    last (console w') "" = "✅ All emails sent successfully!".
Proof.
  apply (batch_reports_success_when_every_send_fails env_no_send three_records).
  - reflexivity.
  - reflexivity.
  - reflexivity.
  - vm_compute. discriminate.
  - intros history m. discriminate.
Defined.

(** ** Every record the server writes *)

Lemma read_back_storable p :
  storable p = true -> read_back (JPrim p) = JPrim p.
Proof.
  destruct p as [| |[|]|n|s]; try reflexivity; try discriminate.
  destruct n as [| | |z|m k]; try discriminate.
  cbn [storable]. intros H. apply andb_prop in H. destruct H as [Hlo Hhi].
  apply Z.ltb_lt in Hlo. apply Z.ltb_lt in Hhi.
  cbn [read_back]. unfold read_number.
  rewrite (parse_number_normal (Fin z)); [reflexivity| |reflexivity].
  apply normal_below_ten_21. lia.
Qed.

Lemma read_back_scalar v : is_scalar v = true -> is_scalar (read_back v) = true.
Proof.
  destruct v as [p| |]; try discriminate. intros _.
  destruct p as [| |[|]|n|s]; try reflexivity.
  cbn [read_back]. unfold read_number.
  destruct n; try reflexivity;
    match goal with
    | |- context [parse_number ?t] => destruct (parse_number t)
    end; reflexivity.
Qed.

(** The text written for a submission parses to an object, whatever
    the fields hold, and the object gives back every field
    [JSON.parse] can give back. *)
Lemma stored_text_parses id submitted b :
  missing_required b = false ->
  exists props,
    JSON_parse (JSON_text (reservationData id submitted b)) = Some (JObj props) /\
    lookup "submittedAt" props = JStr (toISOString submitted) /\
    (forall k p, get k (reservationData id submitted b) = JPrim p ->
                 storable p = true -> lookup k props = JPrim p) /\
    (forall k, is_scalar (get k (reservationData id submitted b)) = true ->
               is_scalar (lookup k props) = true).
Proof.
  intros Hv.
  destruct (record_read_back id submitted b Hv) as (props & Hp & Hget).
  exists props. split; [rewrite record_text_parses, Hp; reflexivity|].
  split; [rewrite Hget; reflexivity|]. split.
  - intros k q Hk Hs. rewrite Hget, Hk. apply read_back_storable. exact Hs.
  - intros k Hk. rewrite Hget. apply read_back_scalar. exact Hk.
Qed.

(** ** A directory of records the server wrote *)

Lemma mapM_read_server_written names w :
  Forall (fun n => exists data record,
                     file_content n (files w) = Some data /\
                     server_written data record) names ->
  exists l,
    mapM read_record names w = (Returned l, w) /\
    Forall2 (reads_back w) names l /\
    Forall iso_stamped l.
Proof.
  induction names as [|n names IH]; intros H.
  - exists []. repeat split; constructor.
  - inversion H as [|? ? Hn Hrest]; subst.
    destruct (IH Hrest) as (l & Hl & HF & Hiso).
    destruct Hn as (data & record & Hc & Hw).
    pose proof Hw as (id & submitted & b & -> & -> & Hv).
    destruct (stored_text_parses id submitted b Hv)
      as (props & Hp & Hstamp & Hget & _).
    exists (JObj props :: l).
    split.
    { cbn [mapM]. unfold bind.
      rewrite (read_record_parsed n _ (JObj props) w Hc Hp), Hl. reflexivity. }
    split.
    { constructor; [|exact HF].
      exists (JSON_text (reservationData id submitted b)),
             (reservationData id submitted b).
      split; [exact Hc|]. split; [exact Hw|exact Hget]. }
    constructor; [|exact Hiso].
    apply written_record_iso_stamped with id submitted b.
    exact Hstamp.
Qed.

(** X19.  A directory whose reservation files are all records the
    server wrote can always be listed, whatever the callers sent
    (scalars, arrays or objects): the answer is status 200, with one record per file, in the
    order the directory lists the files, and each record gives back
    its [submittedAt] and every other field that was a string, a
    boolean, [null] or an integer below [10^21] in magnitude. *)
Theorem server_written_directory_lists env w :
  disk_read env (files w) = None ->
  server_written_directory w ->
  exists l,
    get_reservations env w
    = (Returned {| status := 200; success := true; message := None;
                   reservations := Some l; error := None |}, w) /\
    Forall2 (reads_back w) (listed_names w) l.
Proof.
  intros Hd Hall.
  destruct (mapM_read_server_written (listed_names w) w Hall)
    as (l & Hl & HF & Hiso).
  exists l. split; [|exact HF].
  rewrite get_reservations_run, Hd, Hl. cbn [fst].
  rewrite sort_by_no_move; [reflexivity|].
  intros a b Ha Hb. exists NaN. split; [|discriminate].
  rewrite Forall_forall in Hiso.
  apply by_submittedAt_text; apply iso_stamped_text; apply Hiso; assumption.
Qed.

Lemma server_written_directory_lists_witness :
  exists l,
    get_reservations env_ok after_two_submissions
    = (Returned {| status := 200; success := true; message := None;
                   reservations := Some l; error := None |},
       after_two_submissions) /\
    Forall2 (reads_back after_two_submissions)
      (listed_names after_two_submissions) l.
Proof.
  apply (server_written_directory_lists env_ok after_two_submissions).
  - reflexivity.
  - constructor; [|constructor; [|constructor]].
    + eexists. eexists. split; [vm_compute; reflexivity|].
      exists 1700000000000, 1700000000001, (sample_body (PNum (Fin 4))).
      split; [reflexivity|]. split; reflexivity.
    + eexists. eexists. split; [vm_compute; reflexivity|].
      exists 1700000000002, 1700000000003, other_body.
      split; [reflexivity|]. split; reflexivity.
Defined.

(** X20.  Every record the server stores can be read back, whatever
    the caller sent (fractions, numbers too large for plain digits,
    numbers that are not finite, arrays, objects): the file of an accepted
    submission parses to an object, and that object gives back the
    [submittedAt] that was written and every field that was a string,
    a boolean, [null] or an integer below [10^21] in magnitude. *)
Theorem stored_record_always_parses env st b w :
  missing_required b = false ->
  disk_write env (files w) (fileName (submission_id env w))
    (submission_text env w b) = None ->
  exists props,
    read_record (fileName (submission_id env w))
      (snd (post_reservations env st b w))
    = (Returned (JObj props), snd (post_reservations env st b w)) /\
    lookup "submittedAt" props = JStr (toISOString (submission_stamp env w)) /\
    forall k p, get k (submission_record env w b) = JPrim p ->
                storable p = true -> lookup k props = JPrim p.
Proof.
  intros Hv Hd.
  destruct (stored_run env st b w Hv Hd) as (r & w' & Hr & _ & _ & Hf).
  rewrite Hr. cbn [snd].
  destruct (stored_text_parses (submission_id env w) (submission_stamp env w) b Hv)
    as (props & Hp & Hstamp & Hget & _).
  exists props. split; [|split; [exact Hstamp|exact Hget]].
  apply read_record_parsed with (submission_text env w b); [|exact Hp].
  rewrite Hf. apply upsert_content.
Qed.

Lemma stored_record_always_parses_witness :
  exists props,
    read_record (fileName (submission_id env_ok empty_world))
      (snd (post_reservations env_ok st_ready (sample_body (PNum (Frac 25 1)))
              empty_world))
    = (Returned (JObj props),
       snd (post_reservations env_ok st_ready (sample_body (PNum (Frac 25 1)))
              empty_world)) /\
    lookup "submittedAt" props
    = JStr (toISOString (submission_stamp env_ok empty_world)) /\
    forall k p,
      get k (submission_record env_ok empty_world (sample_body (PNum (Frac 25 1))))
      = JPrim p ->
      storable p = true -> lookup k props = JPrim p.
Proof.
  apply (stored_record_always_parses env_ok st_ready
           (sample_body (PNum (Frac 25 1))) empty_world); reflexivity.
Defined.

(** ** From a submission to the batch sender *)




(** ** What submissions leave behind *)

(** A write that is interrupted after the file was opened leaves a
    file that cannot be read as a record: the listing fails from then
    on. *)
Example ex_interrupted_write_breaks_listing :
  fst (post_reservations env_disk_fills st_disabled (sample_body (PNum (Fin 4)))
         empty_world)
  = Returned {| status := 500; success := false;
                message := Some message_failed;
                reservations := None; error := None |} /\
  files (snd (post_reservations env_disk_fills st_disabled
                (sample_body (PNum (Fin 4))) empty_world))
  = [("reservation-1700000000000.json", "{" ++ newline ++ "  " ++ dquote ++ "id" ++ dquote ++ ": ")] /\
  status match fst (get_reservations env_disk_fills
                      (snd (post_reservations env_disk_fills st_disabled
                              (sample_body (PNum (Fin 4))) empty_world))) with
         | Returned r => r
         | Thrown _ => json_message 0 false ""
         end = 500.
Proof. vm_compute. repeat split. Qed.

Lemma post_preserves_written env st b w :
  (forall fs n d, disk_write env fs n d <> None -> disk_partial env fs n d = None) ->
  server_written_directory w ->
  server_written_directory (snd (post_reservations env st b w)).
Proof.
  intros Hwhole Hw.
  assert (Hup : files (snd (post_reservations env st b w)) = files w \/
                (missing_required b = false /\
                 files (snd (post_reservations env st b w))
                 = upsert (fileName (submission_id env w))
                     (submission_text env w b) (files w))).
  { destruct (post_run env st b w) as (r & w' & Hr & Hrun). rewrite Hr. cbn [snd].
    destruct Hrun as [Hv|e w' Hv Hd Hf _ _|w' Hv Hd Hs Hf _ _
                     |attempts w' Hv Hd Hs Hf _ _ _ _ _].
    - left. reflexivity.
    - left. rewrite Hf. unfold interrupted_write.
      rewrite Hwhole; [reflexivity|]. rewrite Hd. discriminate.
    - right. split; assumption.
    - right. split; assumption. }
  unfold server_written_directory, listed_names in *.
  destruct Hup as [-> | [Hv ->]]; [exact Hw|].
  rewrite Forall_forall in *. intros n Hin.
  apply filter_In in Hin. destruct Hin as [Hin Hp].
  destruct (String.eqb n (fileName (submission_id env w))) eqn:E.
  - apply String.eqb_eq in E. subst n.
    exists (submission_text env w b), (submission_record env w b).
    split; [apply upsert_content|].
    exists (submission_id env w), (submission_stamp env w), b.
    split; [reflexivity|]. split; [reflexivity|exact Hv].
  - apply String.eqb_neq in E.
    rewrite upsert_other by exact E. apply Hw.
    apply filter_In. split; [|exact Hp].
    rewrite upsert_names in Hin.
    destruct (existsb _ _); [exact Hin|].
    apply in_app_or in Hin. destruct Hin as [Hin|[Hin|[]]]; [exact Hin|].
    congruence.
Qed.

Lemma submissions_written env st bodies :
  (forall fs n d, disk_write env fs n d <> None -> disk_partial env fs n d = None) ->
  forall w,
  server_written_directory w ->
  server_written_directory (after_submissions env st bodies w).
Proof.
  intros Hwhole.
  induction bodies as [|b bodies IH]; intros w Hw; [exact Hw|].
  cbn [after_submissions]. apply IH. apply post_preserves_written; assumption.
Qed.

(** X22.  As long as no write is interrupted after its file was
    opened (a write that throws leaves the directory as it was), no
    series of submissions can break the listing: starting from a
    directory without reservation files, after any number of
    [POST /api/reservations] requests (answered 200, 400 or 500, with
    whatever values in their bodies, and even when identifiers
    collide) [GET /api/reservations] answers with status 200 and one
    record per reservation file, provided the directory can be
    listed. *)
Theorem submissions_never_break_listing env st bodies w0 :
  (forall fs n d, disk_write env fs n d <> None -> disk_partial env fs n d = None) ->
  listed_names w0 = [] ->
  disk_read env (files (after_submissions env st bodies w0)) = None ->
  exists l,
    get_reservations env (after_submissions env st bodies w0)
    = (Returned {| status := 200; success := true; message := None;
                   reservations := Some l; error := None |},
       after_submissions env st bodies w0) /\
    Forall2 (reads_back (after_submissions env st bodies w0))
      (listed_names (after_submissions env st bodies w0)) l.
Proof.
  intros Hwhole Hnone Hd.
  assert (Hw : server_written_directory (after_submissions env st bodies w0)).
  { apply submissions_written; [exact Hwhole|]. unfold server_written_directory.
    rewrite Hnone. constructor. }
  set (w := after_submissions env st bodies w0) in *.
  destruct (mapM_read_server_written (listed_names w) w Hw)
    as (l & Hl & HF & Hiso).
  exists l. split; [|exact HF].
  rewrite get_reservations_run, Hd, Hl. cbn [fst].
  rewrite sort_by_no_move; [reflexivity|].
  intros a b Ha Hb. exists NaN. split; [|discriminate].
  rewrite Forall_forall in Hiso.
  apply by_submittedAt_text; apply iso_stamped_text; apply Hiso; assumption.
Qed.

Lemma submissions_never_break_listing_witness :
  exists l,
    get_reservations env_frozen_clock
      (after_submissions env_frozen_clock st_ready
         [sample_body (PNum (Frac 25 1)); sample_body (PStr ""); unshown_body;
          other_body]
         empty_world)
    = (Returned {| status := 200; success := true; message := None;
                   reservations := Some l; error := None |},
       after_submissions env_frozen_clock st_ready
         [sample_body (PNum (Frac 25 1)); sample_body (PStr ""); unshown_body;
          other_body]
         empty_world) /\
    Forall2 (reads_back
               (after_submissions env_frozen_clock st_ready
                  [sample_body (PNum (Frac 25 1)); sample_body (PStr "");
                   unshown_body; other_body]
                  empty_world))
      (listed_names
         (after_submissions env_frozen_clock st_ready
            [sample_body (PNum (Frac 25 1)); sample_body (PStr ""); unshown_body;
             other_body]
            empty_world)) l.
Proof.
  apply (submissions_never_break_listing env_frozen_clock st_ready
           [sample_body (PNum (Frac 25 1)); sample_body (PStr ""); unshown_body;
            other_body]
           empty_world); reflexivity.
Defined.

(** Both messages can be built from an object whose properties are
    all scalars. *)
Lemma messages_of_scalars env props :
  (forall k, is_scalar (lookup k props) = true) ->
  exists m1 m2,
    restaurantEmail env (JObj props) = Some m1 /\
    batch_confirmationEmail env (JObj props) = Some m2.
Proof.
  intros H.
  assert (Hq : forall k, exists q, lookup k props = JPrim q).
  { intros k. specialize (H k). destruct (lookup k props) as [q| |];
      try discriminate. exists q. reflexivity. }
  unfold restaurantEmail, batch_confirmationEmail, format_date. cbn [get].
  destruct (Hq "name") as [q1 ->].
  destruct (Hq "phone") as [q2 ->].
  destruct (Hq "email") as [q3 ->].
  destruct (Hq "date") as [q4 ->].
  destruct (Hq "time") as [q5 ->].
  destruct (Hq "guests") as [q6 ->].
  destruct (Hq "notes") as [q7 ->].
  cbn [ToString ToPrimitive option_map interpolate truthy].
  destruct (ToBoolean q7); cbn [option_map interpolate];
    eexists; eexists; split; reflexivity.
Qed.

Lemma scalar_record_fields id submitted b :
  scalar_body b = true ->
  forall k, is_scalar (get k (reservationData id submitted b)) = true.
Proof.
  unfold scalar_body. cbn [forallb]. intros H k.
  repeat (apply andb_prop in H; destruct H as [? H]).
  cbn [get reservationData lookup].
  repeat match goal with
         | |- context [String.eqb ?a k] =>
             destruct (String.eqb a k); [first [assumption|reflexivity]|]
         end.
  reflexivity.
Qed.

Lemma prepared_of_scalar_record env id submitted b :
  missing_required b = false ->
  scalar_body b = true ->
  prepared env (JSON_text (reservationData id submitted b)) <> None.
Proof.
  intros Hv Hs.
  destruct (stored_text_parses id submitted b Hv) as (props & Hp & _ & _ & Hsc).
  unfold prepared. rewrite Hp. cbn [property].
  destruct (messages_of_scalars env props) as (m1 & m2 & -> & ->);
    [|discriminate].
  intros k. apply Hsc. apply scalar_record_fields. exact Hs.
Qed.

Lemma written_all_prepared env w :
  scalar_records_directory w ->
  all_prepared env w (batch_names w) = true.
Proof.
  intros Hw. unfold all_prepared. apply forallb_forall. intros n Hin.
  assert (Hl : In n (listed_names w)).
  { apply Permutation_in with (batch_names w); [|exact Hin].
    apply Permutation_sym. apply sort_names_perm. }
  unfold scalar_records_directory in Hw. rewrite Forall_forall in Hw.
  destruct (Hw n Hl) as (id & submitted & b & Hc & Hv & Hs). rewrite Hc.
  pose proof (prepared_of_scalar_record env id submitted b Hv Hs) as Hp.
  destruct (prepared env _); [reflexivity|congruence].
Qed.

(** X23.  On a directory whose reservation files are all records the
    server wrote for bodies of scalars (strings, numbers, booleans,
    [null], absent fields), the batch sender never stops early: once
    the connection is verified and the directory listed it completes
    normally, every record gets its restaurant-facing message
    attempted, and a run over N records attempts between N and 2N
    sends. *)
Theorem batch_completes_on_server_written_directory env w :
  smtp_verify env = None ->
  disk_read env (files w) = None ->
  scalar_records_directory w ->
  exists w' groups,
    sendConfirmationEmails env w = (Returned Completed, w') /\
    outbox w' = (outbox w ++ List.concat groups)%list /\
    Forall2 (record_attempts env w) (batch_names w) groups /\
    (List.length (batch_names w) <= List.length (List.concat groups)
     <= 2 * List.length (batch_names w))%nat.
Proof.
  intros Hv Hd Hw.
  destruct (batch_run_groups env w Hv Hd (written_all_prepared env w Hw))
    as (w' & groups & Hrun & Ho & HF).
  exists w', groups.
  split; [exact Hrun|]. split; [exact Ho|]. split; [exact HF|].
  apply (groups_length env w _ _ HF).
Qed.

Lemma batch_completes_on_server_written_directory_witness :
  exists w' groups,
    sendConfirmationEmails env_first_send_fails after_two_submissions
    = (Returned Completed, w') /\
    outbox w' = (outbox after_two_submissions ++ List.concat groups)%list /\
    Forall2 (record_attempts env_first_send_fails after_two_submissions)
      (batch_names after_two_submissions) groups /\
    (List.length (batch_names after_two_submissions)
     <= List.length (List.concat groups)
     <= 2 * List.length (batch_names after_two_submissions))%nat.
Proof.
  apply (batch_completes_on_server_written_directory env_first_send_fails
           after_two_submissions).
  - reflexivity.
  - reflexivity.
  - constructor; [|constructor; [|constructor]].
    + exists 1700000000000, 1700000000001, (sample_body (PNum (Fin 4))).
      split; [vm_compute; reflexivity|]. split; reflexivity.
    + exists 1700000000002, 1700000000003, other_body.
      split; [vm_compute; reflexivity|]. split; reflexivity.
Defined.
